(** * AutocadViewer: the conversion orchestrator, its status store and its
      remote translation client

    A shallow embedding of [shared/schema.ts], [server/storage.ts],
    [server/aps-service.ts] and the APS revision of [server/routes.ts].

    Conventions.
    - A JavaScript string is held as the sequence of its UTF-8 bytes (a Rocq
      [string]); [Buffer.from(text)] with the default encoding therefore
      yields exactly those bytes. A text with a lone surrogate has no UTF-8
      bytes of its own: [Buffer.from] writes EF BF BD for each, so that such
      a text is held as the text it is written as. Every statement about
      [Buffer.from] is therefore a statement about the bytes it yields.
    - A [Date] is its number of milliseconds since the epoch, a [Z].
    - [undefined] and [null] results are [None].
    - An [async] function is a computation in the monad [M]: it threads the
      process state and either returns or throws.
    - The network is a parameter: a state [Net] and one operation per axios
      call ([Axios]). A request takes no time: the clock moves when a timer
      fires or when time passes between events, and an [async] function runs
      from its call to its return, or to its throw, within one event.
    - The store writes of such a run are recorded one by one ([LogStore]),
      so the states of the store between two awaited writes can be told
      from the states between two events.
    - A promise that rejects with nobody awaiting it is recorded
      ([LogUnhandled]) and the process goes on. *)

From Stdlib Require Import ZArith Ascii String List Lia.
From stdpp Require Import base option list strings pretty gmap.

Local Open Scope Z_scope.
Local Open Scope string_scope.

(** ** shared/schema.ts *)

(** A row of the [files] table ([typeof files.$inferSelect]). *)
Record File := mkFile {
  fileId : Z;                     (* id *)
  filename : string;
  originalName : string;
  mimeType : string;
  fileSize : Z;                   (* size *)
  filePath : string;
  fileType : string;
  status : string;
  errorMessage : option string;
  uploadedAt : Z;
  processedAt : option Z;
  metadata : option string
}.

(** [InsertFile]: a row without [id], [uploadedAt] and [processedAt]. *)
Record InsertFile := mkInsertFile {
  ins_filename : string;
  ins_originalName : string;
  ins_mimeType : string;
  ins_size : Z;
  ins_filePath : string;
  ins_fileType : string;
  ins_status : string;
  ins_errorMessage : option string;
  ins_metadata : option string
}.

Definition FILE_TYPES_AUTOCAD : string := "autocad".
Definition FILE_TYPES_PDF : string := "pdf".
Definition FILE_TYPES_IMAGE : string := "image".
Definition FILE_TYPES_DOCUMENT : string := "document".
Definition FILE_TYPES_OTHER : string := "other".

Definition FILE_STATUS_UPLOADING : string := "uploading".
Definition FILE_STATUS_PROCESSING : string := "processing".
Definition FILE_STATUS_READY : string := "ready".
Definition FILE_STATUS_ERROR : string := "error".

(** ** JSON values and [JSON.stringify] *)

#[local] Set Warnings "-register-all".

Inductive json : Type :=
  | JNull
  | JBool (b : bool)
  | JNum (n : Z)
  | JStr (s : string)
  | JArr (items : list json)
  | JObj (props : list (string * json)).

Definition dquote : ascii := "034"%char.
Definition backslash : ascii := "092"%char.

Definition hex_digit (n : N) : ascii :=
  match String.get (N.to_nat n) "0123456789abcdef" with
  | Some c => c
  | None => "0"%char
  end.

(** The quoting of one character inside a JSON string literal. *)
Definition json_escape_char (c : ascii) : string :=
  let n := N_of_ascii c in
  if decide (c = dquote) then String backslash (String dquote "")
  else if decide (c = backslash) then String backslash (String backslash "")
  else if decide (n = 8%N) then String backslash "b"
  else if decide (n = 9%N) then String backslash "t"
  else if decide (n = 10%N) then String backslash "n"
  else if decide (n = 12%N) then String backslash "f"
  else if decide (n = 13%N) then String backslash "r"
  else if decide (n < 32)%N then
    String backslash
      ("u00" +:+ String (hex_digit (n / 16)) (String (hex_digit (n mod 16)) ""))
  else String c "".

Fixpoint json_escape (s : string) : string :=
  match s with
  | EmptyString => ""
  | String c rest => json_escape_char c +:+ json_escape rest
  end.

Definition json_quote (s : string) : string :=
  String dquote (json_escape s) +:+ String dquote "".

Fixpoint join_comma (parts : list string) : string :=
  match parts with
  | [] => ""
  | [p] => p
  | p :: rest => p +:+ "," +:+ join_comma rest
  end.

Fixpoint JSON_stringify (j : json) : string :=
  match j with
  | JNull => "null"
  | JBool true => "true"
  | JBool false => "false"
  | JNum n => pretty n
  | JStr s => json_quote s
  | JArr items => "[" +:+ join_comma (map JSON_stringify items) +:+ "]"
  | JObj props =>
      "{" +:+
      join_comma
        (map (fun kv => json_quote (fst kv) +:+ ":" +:+ JSON_stringify (snd kv))
             props)
      +:+ "}"
  end.

(** Property read [o.k]: the last binding wins, as after [JSON.parse]. *)
Fixpoint obj_get (props : list (string * json)) (k : string) : option json :=
  match props with
  | [] => None
  | (k', v) :: rest =>
      match obj_get rest k with
      | Some v' => Some v'
      | None => if decide (k' = k) then Some v else None
      end
  end.

(** ** server/storage.ts *)

Record MemStorage := mkMemStorage {
  files : gmap Z File;
  currentId : Z
}.

(** [new MemStorage()] *)
Definition MemStorage_new : MemStorage :=
  {| files := ∅; currentId := 1 |}.

Definition getFile (s : MemStorage) (id : Z) : option File :=
  files s !! id.

(** [createFile]; [now] is the value of [new Date()]. *)
Definition createFile (now : Z) (insertFile : InsertFile) (s : MemStorage)
  : File * MemStorage :=
  let id := currentId s in
  let file :=
    {| fileId := id;
       filename := ins_filename insertFile;
       originalName := ins_originalName insertFile;
       mimeType := ins_mimeType insertFile;
       fileSize := ins_size insertFile;
       filePath := ins_filePath insertFile;
       fileType := ins_fileType insertFile;
       status := ins_status insertFile;
       errorMessage := ins_errorMessage insertFile;
       uploadedAt := now;
       processedAt := None;
       metadata := ins_metadata insertFile |} in
  (file, {| files := <[id := file]> (files s); currentId := id + 1 |}).

(** [errorMessage || null]: an absent or empty message is stored as null. *)
Definition or_null (errorMessage : option string) : option string :=
  match errorMessage with
  | Some "" => None
  | Some m => Some m
  | None => None
  end.

Definition is_terminal (st : string) : bool :=
  bool_decide (st = "ready") || bool_decide (st = "error").

(** [updateFileStatus]; [now] is the value [new Date()] would have. *)
Definition updateFileStatus (now : Z) (id : Z) (st : string)
    (msg : option string) (s : MemStorage) : option File * MemStorage :=
  match files s !! id with
  | None => (None, s)
  | Some file =>
      let updatedFile :=
        {| fileId := fileId file;
           filename := filename file;
           originalName := originalName file;
           mimeType := mimeType file;
           fileSize := fileSize file;
           filePath := filePath file;
           fileType := fileType file;
           status := st;
           errorMessage := or_null msg;
           uploadedAt := uploadedAt file;
           processedAt :=
             if is_terminal st then Some now else processedAt file;
           metadata := metadata file |} in
      (Some updatedFile,
       {| files := <[id := updatedFile]> (files s); currentId := currentId s |})
  end.

Definition updateFileMetadata (id : Z) (md : string) (s : MemStorage)
  : option File * MemStorage :=
  match files s !! id with
  | None => (None, s)
  | Some file =>
      let updatedFile :=
        {| fileId := fileId file;
           filename := filename file;
           originalName := originalName file;
           mimeType := mimeType file;
           fileSize := fileSize file;
           filePath := filePath file;
           fileType := fileType file;
           status := status file;
           errorMessage := errorMessage file;
           uploadedAt := uploadedAt file;
           processedAt := processedAt file;
           metadata := Some md |} in
      (Some updatedFile,
       {| files := <[id := updatedFile]> (files s); currentId := currentId s |})
  end.

(** [Map.prototype.delete] answers whether the key was present. *)
Definition deleteFile (id : Z) (s : MemStorage) : bool * MemStorage :=
  (bool_decide (is_Some (files s !! id)),
   {| files := delete id (files s); currentId := currentId s |}).

(** ** Node's [Buffer]: [Buffer.from(text).toString('base64')] *)

Definition byte_of (c : ascii) : Z := Z.of_N (N_of_ascii c).

(** [Buffer.from(text)]: the UTF-8 bytes of the string, which are the
    characters of its representation. *)
Fixpoint Buffer_from (text : string) : list Z :=
  match text with
  | EmptyString => []
  | String c rest => byte_of c :: Buffer_from rest
  end.

Definition base64_alphabet : string :=
  "ABCDEFGHIJKLMNOPQRSTUVWXYZabcdefghijklmnopqrstuvwxyz0123456789+/".

(** The character of a six-bit group. *)
Definition base64_char (i : Z) : ascii :=
  match String.get (Z.to_nat i) base64_alphabet with
  | Some c => c
  | None => "="%char
  end.

(** [buf.toString('base64')]: RFC 4648 base64 with [=] padding. *)
Fixpoint toString_base64 (buf : list Z) : string :=
  match buf with
  | [] => ""
  | [a] =>
      String (base64_char (Z.shiftr a 2))
        (String (base64_char (Z.shiftl (Z.land a 3) 4)) "==")
  | [a; b] =>
      String (base64_char (Z.shiftr a 2))
        (String (base64_char (Z.lor (Z.shiftl (Z.land a 3) 4) (Z.shiftr b 4)))
           (String (base64_char (Z.shiftl (Z.land b 15) 2)) "="))
  | a :: b :: c :: rest =>
      String (base64_char (Z.shiftr a 2))
        (String (base64_char (Z.lor (Z.shiftl (Z.land a 3) 4) (Z.shiftr b 4)))
           (String (base64_char (Z.lor (Z.shiftl (Z.land b 15) 2) (Z.shiftr c 6)))
              (String (base64_char (Z.land c 63)) (toString_base64 rest))))
  end.

(** [s.replace(/c/g, d)] for a one-character pattern and replacement. *)
Fixpoint replace_char (c d : ascii) (s : string) : string :=
  match s with
  | EmptyString => ""
  | String x rest =>
      String (if decide (x = c) then d else x) (replace_char c d rest)
  end.

(** [s.replace(/c/g, '')] *)
Fixpoint remove_char (c : ascii) (s : string) : string :=
  match s with
  | EmptyString => ""
  | String x rest =>
      if decide (x = c) then remove_char c rest
      else String x (remove_char c rest)
  end.

(** [APSService.encodeBase64Url] *)
Definition encodeBase64Url (text : string) : string :=
  remove_char "="
    (replace_char "/" "_"
       (replace_char "+" "-" (toString_base64 (Buffer_from text)))).





(** ** The process state and the monad of [async] functions *)

(** A thrown value: an [Error] with its [message]; an axios error also
    carries [error.response?.status]. *)
Record Error := mkError {
  message : string;
  response_status : option Z
}.

Inductive result (A : Type) : Type :=
  | Returned (a : A)
  | Thrown (e : Error).
Arguments Returned {A} a.
Arguments Thrown {A} e.

(** The response types of [aps-service.ts]. *)
Record APSAuth := mkAPSAuth {
  access_token : string;
  expires_in : Z;
  token_type : string
}.

Record APSBucket := mkAPSBucket {
  bucketKey : string;
  bucketOwner : string;
  createdDate : Z;
  permissions : list json;
  policyKey : string
}.

Record APSUploadResult := mkAPSUploadResult {
  up_bucketKey : string;
  objectId : string;
  objectKey : string;
  up_size : Z;
  contentType : string;
  location : string
}.

(** The fields of the [APSService] object. *)
Record APSService := mkAPSService {
  clientId : string;
  clientSecret : string;
  accessToken : option string;
  tokenExpiry : option Z
}.

(** The variables that [checkStatus] closes over, one cell per call of
    [processFile]. [attempts] is the [let] that every run of the closure
    increments; [maxAttempts] is the [const]. *)
Record ConversionJob := mkJob {
  job_fileId : Z;
  job_urn : string;
  job_bucketKey : string;
  job_objectKey : string;
  attempts : Z;
  maxAttempts : Z
}.

(** The two closures handed to [setTimeout]. *)
Inductive Callback : Type :=
  | CheckStatus (job : nat)          (* [checkStatus] of the job at this index *)
  | StandardProcessing (id : Z).     (* the arrow function of the non-CAD branch *)

Record Timer := mkTimer {
  due : Z;
  callback : Callback
}.

(** What the process did, newest entry first. *)
Inductive LogEntry : Type :=
  | LogAps (at_ms : Z) (method : string) (arg : string)
      (* a method of [apsService] was entered *)
  | LogStore (snapshot : gmap Z File)
      (* the contents of the status store right after one of its writes *)
  | LogTimer (at_ms : Z) (delay : Z) (cb : Callback)
      (* [setTimeout(cb, delay)] *)
  | LogConsole (label : string) (e : Error)
      (* [console.error(label, e)] *)
  | LogUnhandled (e : Error).
      (* a promise rejected with nobody awaiting it *)

(** The transport: one operation per axios call of [aps-service.ts], acting
    on the state [Net] of the network and of the remote service and answering
    [response.data] or throwing. *)
Class Axios (Net : Type) := {
  (* POST {baseUrl}/authentication/v2/token, Authorization: Basic {basic} *)
  post_token : string -> Net -> result APSAuth * Net;
  (* POST {baseUrl}/oss/v2/buckets {bucketKey, policyKey: 'temporary'} *)
  post_buckets : string -> string -> Net -> result APSBucket * Net;
  (* GET {baseUrl}/oss/v2/buckets/{bucketKey}/details *)
  get_bucket_details : string -> string -> Net -> result APSBucket * Net;
  (* PUT {baseUrl}/oss/v2/buckets/{bucketKey}/objects/{objectKey} *)
  put_object : string -> string -> string -> string -> Net
               -> result APSUploadResult * Net;
  (* POST {baseUrl}/modelderivative/v2/designdata/job {input: {urn}, ...} *)
  post_job : string -> string -> Net -> result json * Net;
  (* GET {baseUrl}/modelderivative/v2/designdata/{urn}/manifest *)
  get_manifest : string -> string -> Net -> result json * Net
}.

Section Server.

Context {Net : Type} `{!Axios Net}.

Record World := mkWorld {
  storage : MemStorage;          (* the singleton [storage] *)
  apsService : APSService;       (* the singleton [apsService] *)
  net : Net;
  clock : Z;                     (* [Date.now()] *)
  jobs : list ConversionJob;     (* closure environments, by index *)
  timers : list Timer;           (* pending [setTimeout]s, oldest first *)
  log : list LogEntry
}.

Definition M (A : Type) : Type := World -> result A * World.

Definition ret {A} (a : A) : M A := fun w => (Returned a, w).

Definition bind {A B} (c : M A) (k : A -> M B) : M B :=
  fun w =>
    match c w with
    | (Returned a, w') => k a w'
    | (Thrown e, w') => (Thrown e, w')
    end.

Definition throw {A} (e : Error) : M A := fun w => (Thrown e, w).

(** [try { body } catch (e) { handler }] *)
Definition try_catch {A} (body : M A) (handler : Error -> M A) : M A :=
  fun w =>
    match body w with
    | (Returned a, w') => (Returned a, w')
    | (Thrown e, w') => handler e w'
    end.

Notation "'let!' x ':=' c 'in' k" := (bind c (fun x => k))
  (at level 10, x pattern, c at level 100, k at level 200).

Definition set_storage (s : MemStorage) (w : World) : World :=
  mkWorld s (apsService w) (net w) (clock w) (jobs w) (timers w) (log w).
Definition set_apsService (a : APSService) (w : World) : World :=
  mkWorld (storage w) a (net w) (clock w) (jobs w) (timers w) (log w).
Definition set_net (n : Net) (w : World) : World :=
  mkWorld (storage w) (apsService w) n (clock w) (jobs w) (timers w) (log w).
Definition set_clock (t : Z) (w : World) : World :=
  mkWorld (storage w) (apsService w) (net w) t (jobs w) (timers w) (log w).
Definition set_jobs (js : list ConversionJob) (w : World) : World :=
  mkWorld (storage w) (apsService w) (net w) (clock w) js (timers w) (log w).
Definition set_timers (ts : list Timer) (w : World) : World :=
  mkWorld (storage w) (apsService w) (net w) (clock w) (jobs w) ts (log w).
Definition add_log (e : LogEntry) (w : World) : World :=
  mkWorld (storage w) (apsService w) (net w) (clock w) (jobs w) (timers w)
          (e :: log w).

Definition Date_now : M Z := fun w => (Returned (clock w), w).

Definition console_error (label : string) (e : Error) : M unit :=
  fun w => (Returned tt, add_log (LogConsole label e) w).

(** [setTimeout(cb, delay)] *)
Definition setTimeout (cb : Callback) (delay : Z) : M unit :=
  fun w =>
    (Returned tt,
     add_log (LogTimer (clock w) delay cb)
       (set_timers (timers w ++ [mkTimer (clock w + delay) cb]) w)).

(** One axios call. *)
Definition axios {A} (call : Net -> result A * Net) : M A :=
  fun w => let r := call (net w) in (fst r, set_net (snd r) w).

(** The calls on the singleton [storage]; each write leaves a snapshot of the
    store in the log. *)
Definition storage_getFile (id : Z) : M (option File) :=
  fun w => (Returned (getFile (storage w) id), w).

Definition storage_createFile (insertFile : InsertFile) : M File :=
  fun w =>
    let r := createFile (clock w) insertFile (storage w) in
    (Returned (fst r), add_log (LogStore (files (snd r))) (set_storage (snd r) w)).

Definition storage_updateFileStatus (id : Z) (st : string)
    (msg : option string) : M (option File) :=
  fun w =>
    let r := updateFileStatus (clock w) id st msg (storage w) in
    (Returned (fst r), add_log (LogStore (files (snd r))) (set_storage (snd r) w)).

Definition storage_updateFileMetadata (id : Z) (md : string)
  : M (option File) :=
  fun w =>
    let r := updateFileMetadata id md (storage w) in
    (Returned (fst r), add_log (LogStore (files (snd r))) (set_storage (snd r) w)).

Definition storage_deleteFile (id : Z) : M bool :=
  fun w =>
    let r := deleteFile id (storage w) in
    (Returned (fst r), add_log (LogStore (files (snd r))) (set_storage (snd r) w)).

(** ** server/aps-service.ts *)

Definition log_aps (method arg : string) : M unit :=
  fun w => (Returned tt, add_log (LogAps (clock w) method arg) w).

(** JavaScript truthiness of an optional string. *)
Definition truthy (s : option string) : bool :=
  match s with
  | Some "" => false
  | Some _ => true
  | None => false
  end.

(** [new Date(t)]: a time value lies within 8.64e15 ms of the epoch, and
    beyond that the date is an Invalid Date, which compares false with every
    date. The token expiry is only ever compared, so that an Invalid Date
    is held like an absent one. *)
Definition max_time : Z := 8640000000000000.

Definition new_Date (t : Z) : option Z :=
  if bool_decide (- max_time <= t <= max_time) then Some t else None.

(** The part of [authenticate] after the cache test: ask for a token and
    remember it with its expiry. *)
Definition request_token : M APSAuth :=
  fun w =>
    let this := apsService w in
    (let! auth :=
       axios (post_token
                (toString_base64
                   (Buffer_from (clientId this +:+ ":" +:+ clientSecret this)))) in
     fun w' =>
       (Returned auth,
        set_apsService
          {| clientId := clientId this;
             clientSecret := clientSecret this;
             accessToken := Some (access_token auth);
             tokenExpiry := new_Date (clock w' + expires_in auth * 1000) |} w')) w.

Definition authenticate : M APSAuth :=
  fun w =>
    let this := apsService w in
    match accessToken this, tokenExpiry this with
    | Some tok, Some expiry =>
        if truthy (Some tok) && bool_decide (clock w < expiry) then
          (Returned {| access_token := tok;
                       expires_in := (expiry - clock w) / 1000;
                       token_type := "Bearer" |}, w)
        else request_token w
    | _, _ => request_token w
    end.

Definition createBucket (key : string) : M APSBucket :=
  let! _ := log_aps "createBucket" key in
  let! auth := authenticate in
  try_catch
    (axios (post_buckets (access_token auth) key))
    (fun error =>
       if decide (response_status error = Some 409) then
         (* Bucket already exists, get bucket details *)
         axios (get_bucket_details (access_token auth) key)
       else throw error).

Definition uploadFile (bKey oKey path : string) : M APSUploadResult :=
  let! _ := log_aps "uploadFile" oKey in
  let! auth := authenticate in
  axios (put_object (access_token auth) bKey oKey path).

Definition translateFile (urn : string) : M json :=
  let! _ := log_aps "translateFile" urn in
  let! auth := authenticate in
  axios (post_job (access_token auth) urn).

Definition getTranslationStatus (urn : string) : M json :=
  let! _ := log_aps "getTranslationStatus" urn in
  let! auth := authenticate in
  axios (get_manifest (access_token auth) urn).

Definition getViewerToken : M string :=
  let! _ := log_aps "getViewerToken" "" in
  let! auth := authenticate in
  ret (access_token auth).

(** ** server/routes.ts *)

(** [path.extname] of Node's standard library. *)
Context (path_extname : string -> string).

Definition lower_ascii (c : ascii) : ascii :=
  let n := N_of_ascii c in
  if (65 <=? n)%N && (n <=? 90)%N then ascii_of_N (n + 32) else c.

(** [s.toLowerCase()], on the letters A to Z. *)
Fixpoint toLowerCase (s : string) : string :=
  match s with
  | EmptyString => ""
  | String c rest => String (lower_ascii c) (toLowerCase rest)
  end.

(** [s.startsWith(p)] *)
Fixpoint startsWith (p s : string) : bool :=
  match p, s with
  | EmptyString, _ => true
  | String a p', String b s' => bool_decide (a = b) && startsWith p' s'
  | String _ _, EmptyString => false
  end.

(** [s.includes(p)] *)
Fixpoint includes (p s : string) : bool :=
  startsWith p s ||
  match s with
  | EmptyString => false
  | String _ s' => includes p s'
  end.

(** [s.match(/p$/)] for a literal [p]. *)
Fixpoint endsWith (p s : string) : bool :=
  bool_decide (s = p) ||
  match s with
  | EmptyString => false
  | String _ s' => endsWith p s'
  end.

Definition detectFileType (name mime : string) : string :=
  let ext := toLowerCase (path_extname name) in
  if bool_decide (ext ∈ [".dwg"; ".dxf"; ".dwt"]) then FILE_TYPES_AUTOCAD
  else if bool_decide (ext = ".pdf") || bool_decide (mime = "application/pdf")
  then FILE_TYPES_PDF
  else if existsb (fun e => endsWith e ext)
            [".jpg"; ".jpeg"; ".png"; ".gif"; ".bmp"; ".webp"]
          || startsWith "image/" mime
  then FILE_TYPES_IMAGE
  else if existsb (fun e => endsWith e ext) [".doc"; ".docx"; ".txt"; ".rtf"]
          || includes "document" mime || includes "text" mime
  then FILE_TYPES_DOCUMENT
  else FILE_TYPES_OTHER.

(** [j.k] on a value received as JSON: reading a property of [null] throws a
    TypeError, a value without the property gives [undefined]. *)
Definition get_prop (j : json) (k : string) : M (option json) :=
  match j with
  | JNull =>
      throw {| message := "Cannot read properties of null (reading '"
                          +:+ k +:+ "')";
               response_status := None |}
  | JObj props => ret (obj_get props k)
  | _ => ret None
  end.

(** [v === 'lit'] for a property just read. *)
Definition is_string (v : option json) (lit : string) : bool :=
  match v with
  | Some (JStr s) => bool_decide (s = lit)
  | _ => false
  end.

(** Allocate the variables of a new [checkStatus] closure. *)
Definition new_job (job : ConversionJob) : M nat :=
  fun w => (Returned (length (jobs w)), set_jobs (jobs w ++ [job]) w).

Definition with_attempts (n : Z) (job : ConversionJob) : ConversionJob :=
  {| job_fileId := job_fileId job;
     job_urn := job_urn job;
     job_bucketKey := job_bucketKey job;
     job_objectKey := job_objectKey job;
     attempts := n;
     maxAttempts := maxAttempts job |}.

(** [attempts++] in the closure of the job at index [j]. *)
Definition count_attempt (j : nat) (job : ConversionJob) (w : World) : World :=
  set_jobs (<[j := with_attempts (attempts job + 1) job]> (jobs w)) w.

(** [JSON.stringify] of the metadata of a translated drawing. *)
Definition aps_metadata (job : ConversionJob) (st : json) : string :=
  JSON_stringify
    (JObj [("viewerType", JStr "aps");
           ("urn", JStr (job_urn job));
           ("bucketKey", JStr (job_bucketKey job));
           ("objectKey", JStr (job_objectKey job));
           ("status", JStr "translated");
           ("derivatives", st)]).

(** [checkStatus], the closure of the job at index [j]. An index without a
    job never reaches a timer; the callback then does nothing. *)
Definition checkStatus (j : nat) : M unit :=
  fun w =>
    match jobs w !! j with
    | None => (Returned tt, w)
    | Some job =>
        (let! st := getTranslationStatus (job_urn job) in
         let! st_status := get_prop st "status" in
         if is_string st_status "success" then
           let! _ := storage_updateFileStatus (job_fileId job) FILE_STATUS_READY None in
           let! _ := storage_updateFileMetadata (job_fileId job)
                       (aps_metadata job st) in
           ret tt
         else if is_string st_status "failed" then
           let! _ := storage_updateFileStatus (job_fileId job) FILE_STATUS_ERROR
                       (Some "APS translation failed") in
           ret tt
         else
           fun w' =>
             match jobs w' !! j with
             | None => (Returned tt, w')
             | Some job' =>
                 if (attempts job' <? maxAttempts job')%Z then
                   (* Still processing, check again in 10 seconds *)
                   setTimeout (CheckStatus j) 10000 w'
                 else
                   (let! _ := storage_updateFileStatus (job_fileId job)
                                FILE_STATUS_ERROR (Some "Translation timeout") in
                    ret tt) w'
             end) (count_attempt j job w)
    end.

(** [JSON.stringify] of the metadata of any other file. *)
Definition standard_metadata : string :=
  JSON_stringify
    (JObj [("viewerType", JStr "standard"); ("processed", JBool true)]).

(** The arrow function of the non-CAD branch. *)
Definition standardProcessing (id : Z) : M unit :=
  let! _ := storage_updateFileStatus id FILE_STATUS_READY None in
  let! _ := storage_updateFileMetadata id standard_metadata in
  ret tt.

Definition processFile (id : Z) (fType path oName : string) : M unit :=
  try_catch
    (if decide (fType = FILE_TYPES_AUTOCAD) then
       let! _ := storage_updateFileStatus id FILE_STATUS_PROCESSING None in
       (* Process with APS *)
       let! now := Date_now in
       let bKey := "autocad-viewer-" +:+ pretty now in
       let oKey := pretty id +:+ "-" +:+ oName in
       try_catch
         ((* Create bucket *)
          let! _ := createBucket bKey in
          (* Upload file to APS *)
          let! uploadResult := uploadFile bKey oKey path in
          let urn := encodeBase64Url (objectId uploadResult) in
          (* Start translation *)
          let! _ := translateFile urn in
          (* Poll for translation status *)
          let! j := new_job {| job_fileId := id;
                               job_urn := urn;
                               job_bucketKey := bKey;
                               job_objectKey := oKey;
                               attempts := 0;
                               maxAttempts := 30 |} in
          (* Start checking status after 10 seconds *)
          setTimeout (CheckStatus j) 10000)
         (fun apsError =>
            let! _ := console_error "APS processing error:" apsError in
            let! _ := storage_updateFileStatus id FILE_STATUS_ERROR
                        (Some ("APS error: " +:+ message apsError)) in
            ret tt)
     else
       (* Other file types use standard processing *)
       setTimeout (StandardProcessing id) 1000)
    (fun error =>
       let! _ := console_error "File processing error:" error in
       let! _ := storage_updateFileStatus id FILE_STATUS_ERROR
                   (Some ("Processing failed: " +:+ message error)) in
       ret tt).

(** A call of an [async] function whose promise nobody awaits. *)
Definition unawaited (c : M unit) : M unit :=
  fun w =>
    match c w with
    | (Returned _, w') => (Returned tt, w')
    | (Thrown e, w') => (Returned tt, add_log (LogUnhandled e) w')
    end.

(** An entry of [req.files], as multer leaves it. *)
Record MulterFile := mkMulterFile {
  mf_filename : string;
  mf_originalname : string;
  mf_mimetype : string;
  mf_size : Z;
  mf_path : string
}.

Inductive HttpResponse : Type :=
  | ResFile (f : File)                              (* 200, the record *)
  | ResUploaded (msg : string) (fs : list File)     (* 200, message and records *)
  | ResMessage (code : Z) (msg : string).           (* code, {message} *)

(** The body of the [for] loop of POST /api/files/upload.
    [insertFileSchema.parse] accepts every [fileData] built here. *)
Definition upload_one (file : MulterFile) : M File :=
  let fType := detectFileType (mf_originalname file) (mf_mimetype file) in
  let fileData :=
    {| ins_filename := mf_filename file;
       ins_originalName := mf_originalname file;
       ins_mimeType := mf_mimetype file;
       ins_size := mf_size file;
       ins_filePath := mf_path file;
       ins_fileType := fType;
       ins_status := FILE_STATUS_UPLOADING;
       ins_errorMessage := None;
       ins_metadata := None |} in
  (* Create file record *)
  let! savedFile := storage_createFile fileData in
  (* Start processing the file asynchronously *)
  let! _ := unawaited (processFile (fileId savedFile) fType (mf_path file)
                         (mf_originalname file)) in
  ret savedFile.

Fixpoint upload_all (fs : list MulterFile) : M (list File) :=
  match fs with
  | [] => ret []
  | f :: rest =>
      let! saved := upload_one f in
      let! more := upload_all rest in
      ret (saved :: more)
  end.

(** POST /api/files/upload *)
Definition post_upload (req_files : option (list MulterFile)) : M HttpResponse :=
  try_catch
    match req_files with
    | None => ret (ResMessage 400 "No files uploaded")
    | Some fs =>
        let! uploadedFiles := upload_all fs in
        ret (ResUploaded "Files uploaded successfully" uploadedFiles)
    end
    (fun _ => ret (ResMessage 500 "Failed to upload files")).

(** GET /api/files/:id *)
Definition get_file (id : Z) : M HttpResponse :=
  try_catch
    (let! file := storage_getFile id in
     match file with
     | None => ret (ResMessage 404 "File not found")
     | Some f => ret (ResFile f)
     end)
    (fun _ => ret (ResMessage 500 "Failed to fetch file")).

(** PATCH /api/files/:id/status  (update file status, for manual retry) *)
Definition patch_status (id : Z) (st : string) (msg : option string)
  : M HttpResponse :=
  try_catch
    (let! updatedFile := storage_updateFileStatus id st msg in
     match updatedFile with
     | None => ret (ResMessage 404 "File not found")
     | Some f => ret (ResFile f)
     end)
    (fun _ => ret (ResMessage 500 "Failed to update file status")).

(** DELETE /api/files/:id *)
Definition delete_file (id : Z) : M HttpResponse :=
  try_catch
    (let! deleted := storage_deleteFile id in
     if deleted : bool then ret (ResMessage 200 "File deleted successfully")
     else ret (ResMessage 404 "File not found"))
    (fun _ => ret (ResMessage 500 "Failed to delete file")).

(** ** The event loop *)

Definition run_callback (cb : Callback) : M unit :=
  match cb with
  | CheckStatus j => checkStatus j
  | StandardProcessing id => standardProcessing id
  end.

(** The timer that fires next: the earliest due, the oldest among equals. *)
Fixpoint pop_timer (ts : list Timer) : option (Timer * list Timer) :=
  match ts with
  | [] => None
  | t :: rest =>
      match pop_timer rest with
      | None => Some (t, [])
      | Some (t', rest') =>
          if (due t' <? due t)%Z then Some (t', t :: rest') else Some (t, rest)
      end
  end.

(** Let the next timer fire: the clock moves to its due time and its callback
    runs; a rejection of the callback's promise is unhandled. *)
Definition fire (w : World) : option World :=
  match pop_timer (timers w) with
  | None => None
  | Some (t, rest) =>
      let w1 := set_clock (Z.max (clock w) (due t)) (set_timers rest w) in
      Some match run_callback (callback t) w1 with
           | (Returned _, w2) => w2
           | (Thrown e, w2) => add_log (LogUnhandled e) w2
           end
  end.

(** Fire timers until none is pending, at most [fuel] of them. *)
Fixpoint run_timers (fuel : nat) (w : World) : World :=
  match fuel with
  | O => w
  | S n =>
      match fire w with
      | None => w
      | Some w' => run_timers n w'
      end
  end.

(** ** Observations on a state *)

Definition file_of (w : World) (id : Z) : option File :=
  files (storage w) !! id.

Definition is_aps_entry (e : LogEntry) : bool :=
  match e with LogAps _ _ _ => true | _ => false end.

(** The calls made on the remote translation client, newest first. *)
Definition aps_calls (w : World) : list LogEntry :=
  List.filter is_aps_entry (log w).

(** The times of the manifest polls, newest first. *)
Definition poll_times (w : World) : list Z :=
  omap (fun e => match e with
                 | LogAps t m _ =>
                     if bool_decide (m = "getTranslationStatus") then Some t else None
                 | _ => None
                 end) (log w).

(** The store contents a reader could have seen, newest first: the store
    after each write. *)
Definition snapshots (w : World) : list (gmap Z File) :=
  omap (fun e => match e with LogStore s => Some s | _ => None end) (log w).

(** ** The process as a transition system *)

(** [new APSService()]: the constructor refuses to start without credentials. *)
Definition APSService_new (env_id env_secret : option string) : result APSService :=
  if truthy env_id && truthy env_secret then
    Returned {| clientId := default "" env_id;
                clientSecret := default "" env_secret;
                accessToken := None;
                tokenExpiry := None |}
  else
    Thrown {| message := "APS_CLIENT_ID and APS_CLIENT_SECRET environment variables are required";
              response_status := None |}.

(** The state once the modules are loaded. *)
Definition boot (svc : APSService) (n : Net) (t0 : Z) : World :=
  {| storage := MemStorage_new;
     apsService := svc;
     net := n;
     clock := t0;
     jobs := [];
     timers := [];
     log := [] |}.

(** What can happen next: a request arrives, a timer fires, time passes. *)
Inductive Event : Type :=
  | ReqUpload (req_files : option (list MulterFile))
  | ReqGet (id : Z)
  | ReqPatch (id : Z) (st : string) (msg : option string)
  | ReqDelete (id : Z)
  | TimerFires
  | TimePasses (ms : Z).

Definition step (ev : Event) (w : World) : World :=
  match ev with
  | ReqUpload fs => snd (post_upload fs w)
  | ReqGet id => snd (get_file id w)
  | ReqPatch id st msg => snd (patch_status id st msg w)
  | ReqDelete id => snd (delete_file id w)
  | TimerFires => default w (fire w)
  | TimePasses ms => set_clock (clock w + Z.max 0 ms) w
  end.

Definition run_events (evs : list Event) (w : World) : World :=
  fold_left (fun w ev => step ev w) evs w.

Inductive reachable : World -> Prop :=
  | reachable_boot svc n t0 : reachable (boot svc n t0)
  | reachable_step ev w : reachable w -> reachable (step ev w).

(** The record a callback writes to. *)
Definition target (w : World) (cb : Callback) : option Z :=
  match cb with
  | CheckStatus j => job_fileId <$> jobs w !! j
  | StandardProcessing id => Some id
  end.

(** ** Vocabulary of the properties *)

(** A computation leaves every state in relation [R] with the state it
    started from. *)
Definition respects {A} (R : World -> World -> Prop) (c : M A) : Prop :=
  forall w, R w (snd (c w)).

(** [P] holds of the store afterwards if it held before. *)
Definition keeps (P : MemStorage -> Prop) (w w' : World) : Prop :=
  P (storage w) -> P (storage w').

(** Nothing changed but the network, the token cache and the log. *)
Definition same_app (w w' : World) : Prop :=
  storage w' = storage w /\ jobs w' = jobs w /\ timers w' = timers w
  /\ clock w' = clock w.

(** The state in which the [catch (apsError)] block of [processFile] leaves
    the process. *)
Definition aps_failure (id : Z) (e : Error) (w : World) : World :=
  snd (storage_updateFileStatus id FILE_STATUS_ERROR
         (Some ("APS error: " +:+ message e))
         (add_log (LogConsole "APS processing error:" e) w)).

(** The state in which [processFile] leaves the process once the translation
    is submitted: the closure is allocated and its first run scheduled. *)
Definition polling_started (id : Z) (urn bKey oKey : string) (w : World) : World :=
  snd (setTimeout (CheckStatus (length (jobs w))) 10000
         (set_jobs (jobs w ++ [mkJob id urn bKey oKey 0 30]) w)).

(** [st.status] for a manifest [st] that is not [null]. *)
Definition manifest_status (st : json) : option json :=
  match st with
  | JObj props => obj_get props "status"
  | _ => None
  end.

(** A computation that touches only the network and the token cache. *)
Definition net_only {A} (c : M A) : Prop :=
  forall w, same_app w (snd (c w)) /\ log (snd (c w)) = log w.

(** A property of the store that every operation the server performs on it
    maintains; the server creates records in status UPLOADING only. *)
Record StoreInvariant (P : MemStorage -> Prop) : Prop := {
  inv_status : forall now id st msg s,
    P s -> P (snd (updateFileStatus now id st msg s));
  inv_metadata : forall id md s,
    P s -> P (snd (updateFileMetadata id md s));
  inv_delete : forall id s,
    P s -> P (snd (deleteFile id s));
  inv_create : forall now ins s,
    ins_status ins = FILE_STATUS_UPLOADING ->
    P s -> P (snd (createFile now ins s))
}.






(** Every record in a terminal status has its [processedAt]. *)
Definition stamped (s : MemStorage) : Prop :=
  forall id f, files s !! id = Some f ->
    is_terminal (status f) = true -> is_Some (processedAt f).

(** An event other than a status request that sets READY. *)
Definition no_ready_patch (ev : Event) : Prop :=
  match ev with
  | ReqPatch _ st _ => st <> FILE_STATUS_READY
  | _ => True
  end.

(** The writes addressed to [id] maintain [P]. *)
Definition writes_keep (P : MemStorage -> Prop) (id : Z) : Prop :=
  (forall now st msg s, P s -> P (snd (updateFileStatus now id st msg s)))
  /\ (forall md s, P s -> P (snd (updateFileMetadata id md s))).

(** A remote service that answers: while the network is in a state of [good],
    a token request and a manifest request return (a manifest, not [null]),
    and every request leaves the network in [good]. *)
Record Responsive (good : Net -> Prop) : Prop := {
  token_answers : forall c n, good n ->
    exists a n', post_token c n = (Returned a, n') /\ good n';
  manifest_answers : forall tok urn n, good n ->
    exists st n', get_manifest tok urn n = (Returned st, n')
                  /\ st <> JNull /\ good n';
  buckets_keeps_good : forall tok key n,
    good n -> good (snd (post_buckets tok key n));
  details_keeps_good : forall tok key n,
    good n -> good (snd (get_bucket_details tok key n));
  object_keeps_good : forall tok bKey oKey path n,
    good n -> good (snd (put_object tok bKey oKey path n));
  job_keeps_good : forall tok urn n,
    good n -> good (snd (post_job tok urn n))
}.

(** What [createBucket] relies on from the object store, for a reading
    [has n key b] of "in state [n] the bucket [key] exists and is [b]":
    a bucket that was created or found exists; creating an existing bucket
    never succeeds; looking up an existing bucket never answers another one;
    a token request does not touch buckets. *)
Record BucketStore (has : Net -> string -> APSBucket -> Prop) : Prop := {
  created_exists : forall tok key n b n',
    post_buckets tok key n = (Returned b, n') -> has n' key b;
  found_exists : forall tok key n b n',
    get_bucket_details tok key n = (Returned b, n') -> has n' key b;
  create_existing : forall tok key n b r n',
    has n key b -> post_buckets tok key n = (r, n') ->
    has n' key b /\ forall b', r <> Returned b';
  find_existing : forall tok key n b r n',
    has n key b -> get_bucket_details tok key n = (r, n') ->
    has n' key b /\ forall b', r = Returned b' -> b' = b;
  token_keeps_buckets : forall c key n b r n',
    has n key b -> post_token c n = (r, n') -> has n' key b
}.

End Server.

Arguments World Net : clear implicits.
Arguments M Net A : clear implicits.

Notation "'let!' x ':=' c 'in' k" := (bind c (fun x => k))
  (at level 10, x pattern, c at level 100, k at level 200).

(** A write of the pipeline addressed to one record. *)
Inductive PipelineWrite : Type :=
  | WriteStatus (now : Z) (st : string) (msg : option string)
  | WriteMetadata (md : string).

Definition apply_write (id : Z) (wr : PipelineWrite) (s : MemStorage)
  : option File * MemStorage :=
  match wr with
  | WriteStatus now st msg => updateFileStatus now id st msg s
  | WriteMetadata md => updateFileMetadata id md s
  end.

Definition apply_writes (id : Z) (wrs : list PipelineWrite) (s : MemStorage)
  : MemStorage :=
  fold_left (fun s wr => snd (apply_write id wr s)) wrs s.

(** ** A deterministic double of the remote service *)

Record Remote := mkRemote {
  r_token : result APSAuth;             (* the answer to a token request *)
  r_buckets : gmap string APSBucket;    (* the buckets of the object store *)
  r_upload : option Error;              (* the failure of an upload, if any *)
  r_job : option Error;                 (* the failure of a job submission *)
  r_manifests : list (result json)      (* the answers to the coming polls *)
}.

Definition manifest (st : string) : json :=
  JObj [("type", JStr "manifest"); ("status", JStr st)].

Definition conflict : Error :=
  {| message := "Request failed with status code 409";
     response_status := Some 409 |}.

Definition not_found : Error :=
  {| message := "Request failed with status code 404";
     response_status := Some 404 |}.

Definition network_error : Error :=
  {| message := "Network Error"; response_status := None |}.

#[export] Instance Remote_axios : Axios Remote := {|
  post_token _ r := (r_token r, r);
  post_buckets _ key r :=
    match r_buckets r !! key with
    | Some _ => (Thrown conflict, r)
    | None =>
        let b := {| bucketKey := key;
                    bucketOwner := "owner";
                    createdDate := Z.of_nat (size (r_buckets r));
                    permissions := [];
                    policyKey := "temporary" |} in
        (Returned b,
         mkRemote (r_token r) (<[key := b]> (r_buckets r)) (r_upload r)
                  (r_job r) (r_manifests r))
    end;
  get_bucket_details _ key r :=
    match r_buckets r !! key with
    | Some b => (Returned b, r)
    | None => (Thrown not_found, r)
    end;
  put_object _ bKey oKey _ r :=
    match r_upload r with
    | Some e => (Thrown e, r)
    | None =>
        (Returned {| up_bucketKey := bKey;
                     objectId := "urn:adsk.objects:os.object:" +:+ bKey +:+ "/" +:+ oKey;
                     objectKey := oKey;
                     up_size := 0;
                     contentType := "application/octet-stream";
                     location := "" |}, r)
    end;
  post_job _ urn r :=
    match r_job r with
    | Some e => (Thrown e, r)
    | None => (Returned (JObj [("result", JStr "created"); ("urn", JStr urn)]), r)
    end;
  get_manifest _ _ r :=
    match r_manifests r with
    | [] => (Returned (manifest "inprogress"), r)
    | m :: rest =>
        (m, mkRemote (r_token r) (r_buckets r) (r_upload r) (r_job r) rest)
    end
|}.

(** A stand-in for [path.extname] on plain file names: the part from the last
    dot on, empty when there is no dot after the first character. *)
Fixpoint last_dot (s : string) : option string :=
  match s with
  | EmptyString => None
  | String c rest =>
      match last_dot rest with
      | Some e => Some e
      | None => if decide (c = "."%char) then Some s else None
      end
  end.

Definition extname (name : string) : string :=
  match name with
  | EmptyString => ""
  | String _ rest => default "" (last_dot rest)
  end.

Definition token : APSAuth :=
  {| access_token := "tok"; expires_in := 3600; token_type := "Bearer" |}.

Definition service : APSService :=
  {| clientId := "id"; clientSecret := "secret";
     accessToken := None; tokenExpiry := None |}.

(** A remote that accepts everything and answers the polls as scripted. *)
Definition remote (polls : list (result json)) : Remote :=
  {| r_token := Returned token; r_buckets := ∅; r_upload := None;
     r_job := None; r_manifests := polls |}.

Definition plan_dwg : MulterFile :=
  {| mf_filename := "8d1f"; mf_originalname := "plan.dwg";
     mf_mimetype := "application/acad"; mf_size := 10485760;
     mf_path := "uploads/8d1f" |}.

Definition spec_pdf : MulterFile :=
  {| mf_filename := "77aa"; mf_originalname := "spec.pdf";
     mf_mimetype := "application/pdf"; mf_size := 2097152;
     mf_path := "uploads/77aa" |}.

(** The state after booting at time [1000] against [remote polls] and handling
    the given events. *)
Definition scenario (polls : list (result json)) (evs : list Event) : World Remote :=
  run_events extname evs (boot service (remote polls) 1000).

(** In the double, the bucket [key] exists and is [b]. *)
Definition has_bucket (r : Remote) (key : string) (b : APSBucket) : Prop :=
  r_buckets r !! key = Some b.

(** The double answers its token requests and its coming polls. *)
Definition answering (r : Remote) : Prop :=
  (exists a, r_token r = Returned a)
  /\ Forall (fun m => exists st, m = Returned st /\ st <> JNull) (r_manifests r).

(** The record of [plan_dwg] as the upload handler creates it. *)
Definition drawing : InsertFile :=
  {| ins_filename := "8d1f"; ins_originalName := "plan.dwg";
     ins_mimeType := "application/acad"; ins_size := 10485760;
     ins_filePath := "uploads/8d1f"; ins_fileType := "autocad";
     ins_status := "uploading"; ins_errorMessage := None;
     ins_metadata := None |}.

(** The state right after that record is created, before [processFile]. *)
Definition created (polls : list (result json)) : World Remote :=
  snd (storage_createFile drawing (boot service (remote polls) 1000)).

(** ** The list of records: [getAllFiles] and GET /api/files *)

From Stdlib Require Import Sorted.

(** [Array.prototype.sort(cmp)], a stable sort: [cmp a b > 0] puts [b]
    before [a], and elements that compare equal keep their order. *)
Fixpoint sort_insert {A} (cmp : A -> A -> Z) (x : A) (l : list A) : list A :=
  match l with
  | [] => [x]
  | y :: rest =>
      if (0 <? cmp x y)%Z then y :: sort_insert cmp x rest else x :: l
  end.

Fixpoint Array_sort {A} (cmp : A -> A -> Z) (l : list A) : list A :=
  match l with
  | [] => []
  | x :: rest => sort_insert cmp x (Array_sort cmp rest)
  end.

(** [Array.from(this.files.values())]: the values in insertion order.
    [MemStorage] inserts its keys in increasing order ([currentId++]) and
    [Map.set] on a present key keeps the key's place, so the insertion order
    of [files] is the order of its keys. *)
Definition Map_values (m : gmap Z File) : list File :=
  map snd (Array_sort (fun a b => fst a - fst b) (map_to_list m)).

Definition getAllFiles (s : MemStorage) : list File :=
  Array_sort (fun a b => uploadedAt b - uploadedAt a) (Map_values (files s)).

(** The answers of the routes below. *)
Inductive HttpReply : Type :=
  | ReplyFiles (fs : list File)                  (* 200, the records *)
  | ReplyToken (tok : string) (lifetime : Z)     (* 200, {access_token, expires_in} *)
  | ReplyError (code : Z) (msg : string) (error : option string).
                                                 (* code, {message, error} *)

Section Routes.

Context {Net : Type} `{!Axios Net}.

Definition storage_getAllFiles : M Net (list File) :=
  fun w => (Returned (getAllFiles (storage w)), w).

(** GET /api/files *)
Definition get_files : M Net HttpReply :=
  try_catch
    (let! fs := storage_getAllFiles in
     ret (ReplyFiles fs))
    (fun _ => ret (ReplyError 500 "Failed to fetch files" None)).

(** GET /api/aps/token *)
Definition get_aps_token : M Net HttpReply :=
  try_catch
    (let! tok := getViewerToken in
     ret (ReplyToken tok 3600))
    (fun error =>
       let! _ := console_error "APS token error:" error in
       ret (ReplyError 500 "Failed to get APS token" (Some (message error)))).

(** ** More vocabulary *)

(** The rejections nobody handled, newest first. *)
Definition unhandled (w : World Net) : list Error :=
  omap (fun e => match e with LogUnhandled e => Some e | _ => None end) (log w).

End Routes.

(** Every record is stored under its own id, and the ids handed out are
    those from 1 up to [currentId], excluded. *)
Definition well_keyed (s : MemStorage) : Prop :=
  1 <= currentId s
  /\ forall id f, files s !! id = Some f -> fileId f = id /\ 1 <= id < currentId s.

(** The fields that say which file a record stands for. *)
Definition same_identity (f f' : File) : Prop :=
  fileId f' = fileId f /\ filename f' = filename f
  /\ originalName f' = originalName f /\ mimeType f' = mimeType f
  /\ fileSize f' = fileSize f /\ filePath f' = filePath f
  /\ fileType f' = fileType f /\ uploadedAt f' = uploadedAt f.

(** [s'] is a later state of the store [s]: ids were only added above those
    handed out in [s], an id handed out in [s] and absent stays absent, and a
    record present in both stands for the same file. *)
Definition later_store (s s' : MemStorage) : Prop :=
  currentId s <= currentId s'
  /\ (forall id, id < currentId s -> files s !! id = None -> files s' !! id = None)
  /\ (forall id f f', files s !! id = Some f -> files s' !! id = Some f' ->
        same_identity f f').

(** A record has an error message exactly when it is in status ERROR. *)
Definition message_iff_error (s : MemStorage) : Prop :=
  forall id f, files s !! id = Some f ->
    (is_Some (errorMessage f) <-> status f = FILE_STATUS_ERROR).

(** The events the client of this repository causes: its one status request
    is the retry of [FileQueue], with body [{status: 'processing'}]. *)
Definition client_event (ev : Event) : Prop :=
  match ev with
  | ReqPatch _ st msg => st = FILE_STATUS_PROCESSING /\ msg = None
  | _ => True
  end.

(** The order of GET /api/files: newer first, and among records uploaded at
    the same millisecond the smaller id first. *)
Definition listed_before (a b : File) : Prop :=
  uploadedAt b < uploadedAt a
  \/ (uploadedAt a = uploadedAt b /\ fileId a < fileId b).

(** ** Reading a base64url text back *)





Section Quiet.

Context {Net : Type} `{!Axios Net}.

(** A computation that leaves no rejection unhandled. *)
Definition quiet {A} (c : M Net A) : Prop :=
  forall w, unhandled (snd (c w)) = unhandled w.

End Quiet.

(** No timestamp of a record lies after [now], and a record was processed
    no earlier than it was uploaded. *)
Definition timestamps_ordered (now : Z) (s : MemStorage) : Prop :=
  forall id f, files s !! id = Some f ->
    uploadedAt f <= now
    /\ forall t, processedAt f = Some t -> uploadedAt f <= t <= now.

Section Clock.

Context {Net : Type}.

(** What a computation does about time while one event is handled: the
    clock stands still, and the timestamps stay ordered. *)
Definition keeps_time (w w' : World Net) : Prop :=
  clock w' = clock w
  /\ (timestamps_ordered (clock w) (storage w) ->
      timestamps_ordered (clock w) (storage w')).

End Clock.

(** ** The poll loop among other timers *)

Section Polling.

Context {Net : Type} `{!Axios Net}.





(** ** Complete metadata *)

(** The complete metadata object of a record's detected type: for a drawing
    the object that [checkStatus] writes for some closure and manifest, for
    any other file the object of the standard path. *)
Definition complete_metadata (f : File) : Prop :=
  if decide (fileType f = FILE_TYPES_AUTOCAD)
  then exists job st, metadata f = Some (aps_metadata job st)
  else metadata f = Some standard_metadata.

(** Every record in READY has the complete metadata of its type. *)
Definition ready_is_complete (s : MemStorage) : Prop :=
  forall id f, files s !! id = Some f ->
    status f = FILE_STATUS_READY -> complete_metadata f.

(** The pipelines in flight fit the records: the closures of [checkStatus]
    write to ids that were handed out to drawings, the pending callbacks of
    the standard path to ids that were handed out to other files, and the
    records in READY have their metadata. *)
Definition pipelines_typed (w : World Net) : Prop :=
  well_keyed (storage w)
  /\ (forall j job, jobs w !! j = Some job ->
        job_fileId job < currentId (storage w)
        /\ forall f, file_of w (job_fileId job) = Some f ->
             fileType f = FILE_TYPES_AUTOCAD)
  /\ (forall t id, t ∈ timers w -> callback t = StandardProcessing id ->
        id < currentId (storage w)
        /\ forall f, file_of w id = Some f -> fileType f <> FILE_TYPES_AUTOCAD)
  /\ ready_is_complete (storage w).

(** The same, while [processFile] runs for the record [id] of type [fType]. *)
Definition pipeline_of (id : Z) (fType : string) (w : World Net) : Prop :=
  pipelines_typed w
  /\ id < currentId (storage w)
  /\ forall f, file_of w id = Some f -> fileType f = fType.

End Polling.


(** * Properties *)

(** ** The status store *)

Section StoreFacts.

Implicit Types (s : MemStorage) (id : Z) (f : File).

Lemma updateFileStatus_absent s now id st msg :
  files s !! id = None -> updateFileStatus now id st msg s = (None, s).
Proof. intros Hnone. unfold updateFileStatus. by rewrite Hnone. Qed.

Lemma updateFileMetadata_absent s id md :
  files s !! id = None -> updateFileMetadata id md s = (None, s).
Proof. intros Hnone. unfold updateFileMetadata. by rewrite Hnone. Qed.

Lemma deleteFile_lookup s id : files (snd (deleteFile id s)) !! id = None.
Proof. cbn. apply lookup_delete_eq. Qed.

Lemma updateFileStatus_lookup s now id st msg f :
  files s !! id = Some f ->
  exists f',
    updateFileStatus now id st msg s
    = (Some f', {| files := <[id := f']> (files s); currentId := currentId s |})
    /\ status f' = st
    /\ errorMessage f' = or_null msg
    /\ metadata f' = metadata f
    /\ processedAt f' = (if is_terminal st then Some now else processedAt f).
Proof.
  intros Hf. unfold updateFileStatus. rewrite Hf. eexists. split; [reflexivity|].
  by cbn.
Qed.

Lemma updateFileMetadata_lookup s id md f :
  files s !! id = Some f ->
  exists f',
    updateFileMetadata id md s
    = (Some f', {| files := <[id := f']> (files s); currentId := currentId s |})
    /\ status f' = status f
    /\ errorMessage f' = errorMessage f
    /\ metadata f' = Some md
    /\ processedAt f' = processedAt f.
Proof.
  intros Hf. unfold updateFileMetadata. rewrite Hf. eexists. split; [reflexivity|].
  by cbn.
Qed.

Lemma updateFileStatus_other s now id st msg id' :
  id <> id' ->
  files (snd (updateFileStatus now id st msg s)) !! id' = files s !! id'.
Proof.
  intros Hne. unfold updateFileStatus. destruct (files s !! id); [|done].
  cbn. by rewrite lookup_insert_ne.
Qed.

Lemma updateFileMetadata_other s id md id' :
  id <> id' ->
  files (snd (updateFileMetadata id md s)) !! id' = files s !! id'.
Proof.
  intros Hne. unfold updateFileMetadata. destruct (files s !! id); [|done].
  cbn. by rewrite lookup_insert_ne.
Qed.

End StoreFacts.

(** ** base64url *)

Section Base64Facts.









(** *** Reading the result back *)

Implicit Types (a b c : ascii) (s : string) (i : Z).













End Base64Facts.

(** ** Deleted records and [processedAt] *)

Section StoreWrites.

Implicit Types (s : MemStorage) (id : Z) (f : File).

Lemma apply_write_absent s id wr :
  files s !! id = None -> apply_write id wr s = (None, s).
Proof.
  intros Hnone. destruct wr; cbn.
  - by apply updateFileStatus_absent.
  - by apply updateFileMetadata_absent.
Qed.

Lemma apply_writes_absent s id wrs :
  files s !! id = None -> apply_writes id wrs s = s.
Proof.
  intros Hnone. unfold apply_writes. induction wrs as [|wr wrs IH]; [done|].
  cbn. by rewrite apply_write_absent.
Qed.

End StoreWrites.

(** ** The orchestrator *)

Section ServerFacts.

Context {Net : Type} `{!Axios Net} (path_extname : string -> string).

Implicit Types (w : World Net) (id : Z) (f : File) (j : nat) (job : ConversionJob).

Local Ltac crunch :=
  repeat first
    [ progress cbn in *
    | progress simplify_eq
    | case_match ].

(** *** What the methods of [apsService] can change *)

Lemma request_token_frame w :
  same_app w (snd (request_token w)) /\ log (snd (request_token w)) = log w.
Proof. unfold request_token, bind, axios, same_app. crunch; done. Qed.

Lemma same_app_refl w : same_app w w.
Proof. by unfold same_app. Qed.

Lemma same_app_trans w1 w2 w3 : same_app w1 w2 -> same_app w2 w3 -> same_app w1 w3.
Proof. unfold same_app. intros (?&?&?&?) (?&?&?&?). split_and!; congruence. Qed.

Lemma net_only_throw {A} e : net_only (throw e : M Net A).
Proof. intros w. split; [apply same_app_refl | done]. Qed.

Lemma net_only_axios {A} (call : Net -> result A * Net) : net_only (axios call).
Proof. intros w. unfold axios. by destruct (call (net w)). Qed.

Lemma net_only_bind {A B} (c : M Net A) (k : A -> M Net B) :
  net_only c -> (forall a, net_only (k a)) -> net_only (bind c k).
Proof.
  intros Hc Hk w. unfold bind. specialize (Hc w).
  destruct (c w) as [[a|e] w1]; cbn in *; [|done].
  specialize (Hk a w1). destruct Hc as [Hs Hl], Hk as [Hs' Hl'].
  split; [by eapply same_app_trans | congruence].
Qed.

Lemma net_only_try_catch {A} (c : M Net A) (h : Error -> M Net A) :
  net_only c -> (forall e, net_only (h e)) -> net_only (try_catch c h).
Proof.
  intros Hc Hh w. unfold try_catch. specialize (Hc w).
  destruct (c w) as [[a|e] w1]; cbn in *; [done|].
  specialize (Hh e w1). destruct Hc as [Hs Hl], Hh as [Hs' Hl'].
  split; [by eapply same_app_trans | congruence].
Qed.

Lemma net_only_authenticate : net_only authenticate.
Proof.
  intros w. unfold authenticate.
  destruct (accessToken (apsService w)), (tokenExpiry (apsService w));
    try apply request_token_frame.
  case_match; [by unfold same_app | apply request_token_frame].
Qed.

(** A method of [apsService]: its entry is logged, then it authenticates and
    talks to the network. *)
Lemma aps_method_frame {A} (name arg : string) (body : APSAuth -> M Net A) w :
  (forall auth, net_only (body auth)) ->
  let w' := snd ((let! _ := log_aps name arg in
                  let! auth := authenticate in body auth) w) in
  same_app w w' /\ log w' = LogAps (clock w) name arg :: log w.
Proof.
  intros Hbody.
  pose proof (net_only_bind authenticate body net_only_authenticate Hbody
                (add_log (LogAps (clock w) name arg) w)) as [Hs Hl].
  unfold same_app in *. cbn in *. done.
Qed.

Lemma createBucket_frame key w :
  let w' := snd (createBucket key w) in
  same_app w w' /\ log w' = LogAps (clock w) "createBucket" key :: log w.
Proof.
  apply aps_method_frame. intros auth.
  apply net_only_try_catch; [apply net_only_axios|].
  intros e. case_decide; [apply net_only_axios | apply net_only_throw].
Qed.

Lemma uploadFile_frame bKey oKey path w :
  let w' := snd (uploadFile bKey oKey path w) in
  same_app w w' /\ log w' = LogAps (clock w) "uploadFile" oKey :: log w.
Proof. apply aps_method_frame. intros auth. apply net_only_axios. Qed.

Lemma translateFile_frame urn w :
  let w' := snd (translateFile urn w) in
  same_app w w' /\ log w' = LogAps (clock w) "translateFile" urn :: log w.
Proof. apply aps_method_frame. intros auth. apply net_only_axios. Qed.

Lemma getTranslationStatus_frame urn w :
  let w' := snd (getTranslationStatus urn w) in
  same_app w w' /\ log w' = LogAps (clock w) "getTranslationStatus" urn :: log w.
Proof. apply aps_method_frame. intros auth. apply net_only_axios. Qed.

(** *** One run of [checkStatus] *)

Lemma poll_frame w j job r w2 :
  getTranslationStatus (job_urn job) (count_attempt j job w) = (r, w2) ->
  storage w2 = storage w /\ timers w2 = timers w /\ clock w2 = clock w
  /\ jobs w2 = <[j := with_attempts (attempts job + 1) job]> (jobs w)
  /\ log w2 = LogAps (clock w) "getTranslationStatus" (job_urn job) :: log w.
Proof.
  intros Hpoll.
  pose proof (getTranslationStatus_frame (job_urn job) (count_attempt j job w)) as H.
  rewrite Hpoll in H. cbn in H. destruct H as [(?&?&?&?) ?]. done.
Qed.

(** What a run of [checkStatus] does, by the answer of its poll. *)
Lemma checkStatus_eq w j job r w2 :
  jobs w !! j = Some job ->
  getTranslationStatus (job_urn job) (count_attempt j job w) = (r, w2) ->
  checkStatus j w =
    match r with
    | Thrown e => (Thrown e, w2)
    | Returned JNull =>
        (Thrown {| message := "Cannot read properties of null (reading 'status')";
                   response_status := None |}, w2)
    | Returned st =>
        if is_string (manifest_status st) "success" then
          (Returned tt,
           snd (storage_updateFileMetadata (job_fileId job) (aps_metadata job st)
                  (snd (storage_updateFileStatus (job_fileId job)
                          FILE_STATUS_READY None w2))))
        else if is_string (manifest_status st) "failed" then
          (Returned tt,
           snd (storage_updateFileStatus (job_fileId job) FILE_STATUS_ERROR
                  (Some "APS translation failed") w2))
        else if (attempts job + 1 <? maxAttempts job)%Z then
          (Returned tt, snd (setTimeout (CheckStatus j) 10000 w2))
        else
          (Returned tt,
           snd (storage_updateFileStatus (job_fileId job) FILE_STATUS_ERROR
                  (Some "Translation timeout") w2))
    end.
Proof.
  intros Hjob Hpoll.
  pose proof (poll_frame _ _ _ _ _ Hpoll) as (_&_&_&Hjobs&_).
  assert (Hj : jobs w2 !! j = Some (with_attempts (attempts job + 1) job)).
  { rewrite Hjobs. apply list_lookup_insert_eq. by eapply lookup_lt_Some. }
  unfold checkStatus. rewrite Hjob. unfold bind at 1. rewrite Hpoll.
  destruct r as [st|e]; [|done].
  assert (Hrest : forall v,
    (if is_string v "success" then
       let! _ := storage_updateFileStatus (job_fileId job) FILE_STATUS_READY None in
       let! _ := storage_updateFileMetadata (job_fileId job) (aps_metadata job st) in
       ret tt
     else if is_string v "failed" then
       let! _ := storage_updateFileStatus (job_fileId job) FILE_STATUS_ERROR
                   (Some "APS translation failed") in
       ret tt
     else
       fun w' : World Net =>
         match jobs w' !! j with
         | None => (Returned tt, w')
         | Some job' =>
             if (attempts job' <? maxAttempts job')%Z then
               setTimeout (CheckStatus j) 10000 w'
             else
               (let! _ := storage_updateFileStatus (job_fileId job)
                            FILE_STATUS_ERROR (Some "Translation timeout") in
                ret tt) w'
         end) w2
    = if is_string v "success" then
        (Returned tt,
         snd (storage_updateFileMetadata (job_fileId job) (aps_metadata job st)
                (snd (storage_updateFileStatus (job_fileId job)
                        FILE_STATUS_READY None w2))))
      else if is_string v "failed" then
        (Returned tt,
         snd (storage_updateFileStatus (job_fileId job) FILE_STATUS_ERROR
                (Some "APS translation failed") w2))
      else if (attempts job + 1 <? maxAttempts job)%Z then
        (Returned tt, snd (setTimeout (CheckStatus j) 10000 w2))
      else
        (Returned tt,
         snd (storage_updateFileStatus (job_fileId job) FILE_STATUS_ERROR
                (Some "Translation timeout") w2))).
  { intros v. destruct (is_string v "success"); [|destruct (is_string v "failed")].
    - unfold bind, ret, storage_updateFileStatus, storage_updateFileMetadata.
      by repeat (case_match; simplify_eq; cbn in * ).
    - unfold bind, ret, storage_updateFileStatus.
      by repeat (case_match; simplify_eq; cbn in * ).
    - rewrite Hj. cbn [attempts maxAttempts with_attempts].
      destruct (attempts job + 1 <? maxAttempts job)%Z; [done|].
      unfold bind, ret, storage_updateFileStatus.
      by repeat (case_match; simplify_eq; cbn in * ). }
  destruct st; unfold bind at 1; cbn [get_prop throw ret]; try apply Hrest.
  done.
Qed.

Lemma checkStatus_manifest w j job st w2 :
  jobs w !! j = Some job ->
  getTranslationStatus (job_urn job) (count_attempt j job w) = (Returned st, w2) ->
  st <> JNull ->
  checkStatus j w =
    if is_string (manifest_status st) "success" then
      (Returned tt,
       snd (storage_updateFileMetadata (job_fileId job) (aps_metadata job st)
              (snd (storage_updateFileStatus (job_fileId job)
                      FILE_STATUS_READY None w2))))
    else if is_string (manifest_status st) "failed" then
      (Returned tt,
       snd (storage_updateFileStatus (job_fileId job) FILE_STATUS_ERROR
              (Some "APS translation failed") w2))
    else if (attempts job + 1 <? maxAttempts job)%Z then
      (Returned tt, snd (setTimeout (CheckStatus j) 10000 w2))
    else
      (Returned tt,
       snd (storage_updateFileStatus (job_fileId job) FILE_STATUS_ERROR
              (Some "Translation timeout") w2)).
Proof.
  intros Hjob Hpoll Hnull. rewrite (checkStatus_eq _ _ _ _ _ Hjob Hpoll).
  by destruct st.
Qed.

(** *** The writes of the pipeline, seen on the state *)

Lemma status_write w id st msg f :
  file_of w id = Some f ->
  let w' := snd (storage_updateFileStatus id st msg w) in
  exists f',
    file_of w' id = Some f'
    /\ status f' = st
    /\ errorMessage f' = or_null msg
    /\ metadata f' = metadata f
    /\ processedAt f' = (if is_terminal st then Some (clock w) else processedAt f).
Proof.
  intros Hf. unfold file_of in *.
  destruct (updateFileStatus_lookup (storage w) (clock w) id st msg f Hf)
    as (f' & Heq & ?). exists f'. cbn. rewrite Heq. cbn.
  by rewrite lookup_insert_eq.
Qed.

Lemma metadata_write w id md f :
  file_of w id = Some f ->
  let w' := snd (storage_updateFileMetadata id md w) in
  exists f',
    file_of w' id = Some f'
    /\ status f' = status f
    /\ errorMessage f' = errorMessage f
    /\ metadata f' = Some md
    /\ processedAt f' = processedAt f.
Proof.
  intros Hf. unfold file_of in *.
  destruct (updateFileMetadata_lookup (storage w) id md f Hf)
    as (f' & Heq & ?). exists f'. cbn. rewrite Heq. cbn.
  by rewrite lookup_insert_eq.
Qed.

(** C3 (amended). A poll that answers a manifest with a [status] property has
    one of four outcomes, by that status and the attempts counted so far:
    - ['success']: the record becomes READY and then gets the metadata
      [{viewerType:'aps', urn, bucketKey, objectKey, status:'translated',
      derivatives: <the manifest>}]; no timer is added;
    - ['failed']: the record becomes ERROR with the message
      ["APS translation failed"]; no timer is added;
    - any other status while the attempts, this one included, are below
      [maxAttempts]: the record is untouched and one poll is scheduled 10000
      ms later;
    - any other status otherwise: the record becomes ERROR with the message
      ["Translation timeout"]; no timer is added. *)
Theorem checkStatus_outcomes w j job st w2 f :
  jobs w !! j = Some job ->
  getTranslationStatus (job_urn job) (count_attempt j job w) = (Returned st, w2) ->
  st <> JNull ->
  file_of w (job_fileId job) = Some f ->
  let v := manifest_status st in
  let w' := snd (checkStatus j w) in
  exists f',
    file_of w' (job_fileId job) = Some f'
    /\ (is_string v "success" = true ->
          status f' = "ready"
          /\ errorMessage f' = None
          /\ metadata f'
             = Some (JSON_stringify
                       (JObj [("viewerType", JStr "aps");
                              ("urn", JStr (job_urn job));
                              ("bucketKey", JStr (job_bucketKey job));
                              ("objectKey", JStr (job_objectKey job));
                              ("status", JStr "translated");
                              ("derivatives", st)]))
          /\ timers w' = timers w)
    /\ (is_string v "success" = false -> is_string v "failed" = true ->
          status f' = "error"
          /\ errorMessage f' = Some "APS translation failed"
          /\ metadata f' = metadata f
          /\ timers w' = timers w)
    /\ (is_string v "success" = false -> is_string v "failed" = false ->
          attempts job + 1 < maxAttempts job ->
          f' = f
          /\ timers w' = (timers w ++ [mkTimer (clock w + 10000) (CheckStatus j)])%list)
    /\ (is_string v "success" = false -> is_string v "failed" = false ->
          maxAttempts job <= attempts job + 1 ->
          status f' = "error"
          /\ errorMessage f' = Some "Translation timeout"
          /\ metadata f' = metadata f
          /\ timers w' = timers w).
Proof.
  intros Hjob Hpoll Hnull Hf v w'.
  pose proof (poll_frame _ _ _ _ _ Hpoll) as (Hs & Ht & Hc & _ & _).
  assert (Hf2 : file_of w2 (job_fileId job) = Some f)
    by (unfold file_of in *; by rewrite Hs).
  subst w'. rewrite (checkStatus_manifest _ _ _ _ _ Hjob Hpoll Hnull). fold v.
  destruct (is_string v "success") eqn:Hsucc;
    [|destruct (is_string v "failed") eqn:Hfail;
      [|destruct (attempts job + 1 <? maxAttempts job)%Z eqn:Hlt]].
  - destruct (status_write w2 _ FILE_STATUS_READY None f Hf2)
      as (f1 & Hf1 & Hst1 & Hem1 & Hmd1 & _).
    destruct (metadata_write _ _ (aps_metadata job st) f1 Hf1)
      as (f' & Hf' & Hst' & Hem' & Hmd' & _).
    exists f'. cbn [snd]. split; [exact Hf'|].
    split_and!; try done. all: intros _; rewrite Hst', Hem', Hmd', Hst1, Hem1.
    all: by rewrite <- Ht.
  - destruct (status_write w2 _ FILE_STATUS_ERROR (Some "APS translation failed")
                f Hf2) as (f' & Hf' & Hst' & Hem' & Hmd' & _).
    exists f'. cbn [snd]. split; [exact Hf'|].
    split_and!; try done. all: intros _ _; rewrite Hst', Hem', Hmd'.
    all: by rewrite <- Ht.
  - exists f. cbn [snd]. split; [by cbn|].
    apply Z.ltb_lt in Hlt.
    split_and!; try done; try lia. all: intros _ _ _; split; [done|].
    all: cbn; by rewrite Ht, Hc.
  - destruct (status_write w2 _ FILE_STATUS_ERROR (Some "Translation timeout")
                f Hf2) as (f' & Hf' & Hst' & Hem' & Hmd' & _).
    exists f'. cbn [snd]. split; [exact Hf'|].
    apply Z.ltb_ge in Hlt.
    split_and!; try done; try lia. all: intros _ _ _; rewrite Hst', Hem', Hmd'.
    all: by rewrite <- Ht.
Qed.

(** *** [createBucket] *)

Lemma createBucket_eq key w :
  createBucket key w =
    match authenticate (add_log (LogAps (clock w) "createBucket" key) w) with
    | (Thrown e, w1) => (Thrown e, w1)
    | (Returned auth, w1) =>
        match post_buckets (access_token auth) key (net w1) with
        | (Returned b, n1) => (Returned b, set_net n1 w1)
        | (Thrown e, n1) =>
            if decide (response_status e = Some 409) then
              axios (get_bucket_details (access_token auth) key) (set_net n1 w1)
            else (Thrown e, set_net n1 w1)
        end
    end.
Proof.
  unfold createBucket, bind, log_aps, try_catch, axios, throw. cbn.
  destruct (authenticate _) as [[auth|e] w1]; [|done].
  destruct (post_buckets _ _ _) as [[b|e] n1]; cbn; [done|].
  by case_decide.
Qed.

Lemma authenticate_has has key b w :
  BucketStore has -> has (net w) key b -> has (net (snd (authenticate w))) key b.
Proof.
  intros Hstore Hhas.
  assert (Hreq : has (net (snd (request_token w))) key b).
  { unfold request_token, bind, axios.
    destruct (post_token _ (net w)) as [r n'] eqn:Htok.
    pose proof (token_keeps_buckets has Hstore _ _ _ _ _ _ Hhas Htok).
    by destruct r. }
  unfold authenticate.
  destruct (accessToken (apsService w)), (tokenExpiry (apsService w)); try done.
  by case_match.
Qed.

(** C9. [createBucket] is idempotent. When the creation request is answered
    with status 409, [createBucket] goes on to fetch the bucket's details and
    answers what that request answers, instead of failing with the conflict.
    Against an object store that keeps its buckets, a second call with the
    same key that returns a bucket returns the bucket the first call
    returned. *)
Theorem createBucket_idempotent (has : Net -> string -> APSBucket -> Prop) :
  BucketStore has ->
  (forall w key auth w1 e n1,
      authenticate (add_log (LogAps (clock w) "createBucket" key) w)
      = (Returned auth, w1) ->
      post_buckets (access_token auth) key (net w1) = (Thrown e, n1) ->
      response_status e = Some 409 ->
      createBucket key w
      = axios (get_bucket_details (access_token auth) key) (set_net n1 w1))
  /\ (forall w key b1 w1 b2 w2,
        createBucket key w = (Returned b1, w1) ->
        createBucket key w1 = (Returned b2, w2) ->
        b2 = b1).
Proof.
  intros Hstore. split.
  - intros w key auth w1 e n1 Hauth Hpost H409.
    rewrite createBucket_eq, Hauth, Hpost. by rewrite decide_True.
  - intros w key b1 w1 b2 w2 H1 H2.
    assert (Hhas : has (net w1) key b1).
    { rewrite createBucket_eq in H1.
      destruct (authenticate _) as [[auth|e] wa]; [|done].
      destruct (post_buckets _ _ _) as [[b|e] n1] eqn:Hpost.
      - simplify_eq. cbn. by eapply created_exists.
      - case_decide; [|done]. unfold axios in H1. cbn in H1.
        destruct (get_bucket_details _ _ n1) as [r n2] eqn:Hget.
        cbn in H1. simplify_eq. cbn. by eapply found_exists. }
    rewrite createBucket_eq in H2.
    pose proof (authenticate_has has key b1
                  (add_log (LogAps (clock w1) "createBucket" key) w1) Hstore Hhas)
      as Hhas'.
    destruct (authenticate _) as [[auth|e] wa]; [|done]. cbn in Hhas'.
    destruct (post_buckets _ _ _) as [r n1] eqn:Hpost.
    destruct (create_existing has Hstore _ _ _ _ _ _ Hhas' Hpost) as [Hhas1 Hnot].
    destruct r as [b|e]; [by destruct (Hnot b)|].
    case_decide; [|done]. unfold axios in H2. cbn in H2.
    destruct (get_bucket_details _ _ n1) as [r n2] eqn:Hget.
    destruct (find_existing has Hstore _ _ _ _ _ _ Hhas1 Hget) as [_ Hsame].
    cbn in H2. simplify_eq. by apply Hsame.
Qed.

(** *** Properties of the store kept by every step *)

Section Keeps.

Context (P : MemStorage -> Prop).

Lemma keeps_refl w : keeps P w w.
Proof. by unfold keeps. Qed.

Lemma keeps_same w w' : storage w' = storage w -> keeps P w w'.
Proof. unfold keeps. by intros ->. Qed.

Lemma keeps_trans w1 w2 w3 : keeps P w1 w2 -> keeps P w2 w3 -> keeps P w1 w3.
Proof. unfold keeps. auto. Qed.

Lemma respects_ret {A} (a : A) : respects (keeps P) (ret a : M Net A).
Proof. intros w. apply keeps_refl. Qed.

Lemma respects_throw {A} e : respects (keeps P) (throw e : M Net A).
Proof. intros w. apply keeps_refl. Qed.

Lemma respects_bind {A B} (c : M Net A) (k : A -> M Net B) :
  respects (keeps P) c -> (forall a, respects (keeps P) (k a)) ->
  respects (keeps P) (bind c k).
Proof.
  intros Hc Hk w. unfold bind. specialize (Hc w).
  destruct (c w) as [[a|e] w1]; cbn in *; [|done].
  eapply keeps_trans; [exact Hc | apply Hk].
Qed.

Lemma respects_try_catch {A} (c : M Net A) (h : Error -> M Net A) :
  respects (keeps P) c -> (forall e, respects (keeps P) (h e)) ->
  respects (keeps P) (try_catch c h).
Proof.
  intros Hc Hh w. unfold try_catch. specialize (Hc w).
  destruct (c w) as [[a|e] w1]; cbn in *; [done|].
  eapply keeps_trans; [exact Hc | apply Hh].
Qed.

Lemma respects_unawaited (c : M Net unit) :
  respects (keeps P) c -> respects (keeps P) (unawaited c).
Proof.
  intros Hc w. unfold unawaited. specialize (Hc w).
  by destruct (c w) as [[a|e] w1].
Qed.

Lemma respects_same_app {A} (c : M Net A) :
  (forall w, same_app w (snd (c w))) -> respects (keeps P) c.
Proof. intros Hc w. apply keeps_same, Hc. Qed.

Lemma respects_createBucket key : respects (keeps P) (createBucket key).
Proof. apply respects_same_app. intros w. apply createBucket_frame. Qed.

Lemma respects_uploadFile bKey oKey path :
  respects (keeps P) (uploadFile bKey oKey path).
Proof. apply respects_same_app. intros w. apply uploadFile_frame. Qed.

Lemma respects_translateFile urn : respects (keeps P) (translateFile urn).
Proof. apply respects_same_app. intros w. apply translateFile_frame. Qed.

Lemma respects_getTranslationStatus urn :
  respects (keeps P) (getTranslationStatus urn).
Proof. apply respects_same_app. intros w. apply getTranslationStatus_frame. Qed.

Lemma respects_setTimeout cb delay : respects (keeps P) (setTimeout (Net := Net) cb delay).
Proof. intros w. by apply keeps_same. Qed.

Lemma respects_console_error label e : respects (keeps P) (console_error (Net := Net) label e).
Proof. intros w. by apply keeps_same. Qed.

Lemma respects_Date_now : respects (keeps P) (Date_now (Net := Net)).
Proof. intros w. by apply keeps_same. Qed.

Lemma respects_new_job job : respects (keeps P) (new_job (Net := Net) job).
Proof. intros w. by apply keeps_same. Qed.

Lemma respects_get_prop st k : respects (keeps P) (get_prop (Net := Net) st k).
Proof. intros w. destruct st; by apply keeps_same. Qed.

Lemma respects_storage_getFile id : respects (keeps P) (storage_getFile (Net := Net) id).
Proof. intros w. by apply keeps_same. Qed.

Lemma respects_updateFileStatus id st msg :
  writes_keep P id -> respects (keeps P) (storage_updateFileStatus (Net := Net) id st msg).
Proof. intros [Hst _] w Hw. cbn. by apply Hst. Qed.

Lemma respects_updateFileMetadata id md :
  writes_keep P id -> respects (keeps P) (storage_updateFileMetadata (Net := Net) id md).
Proof. intros [_ Hmd] w Hw. cbn. by apply Hmd. Qed.

Create HintDb respects.

#[local] Hint Resolve respects_ret respects_throw respects_bind respects_try_catch
  respects_unawaited respects_createBucket respects_uploadFile
  respects_translateFile respects_getTranslationStatus respects_setTimeout
  respects_console_error respects_Date_now respects_new_job respects_get_prop
  respects_storage_getFile respects_updateFileStatus
  respects_updateFileMetadata : respects.

Lemma respects_standardProcessing id :
  writes_keep P id -> respects (keeps P) (standardProcessing (Net := Net) id).
Proof. intros Hid. unfold standardProcessing. auto 10 with respects. Qed.

Lemma respects_checkStatus j w id :
  target w (CheckStatus j) = Some id -> writes_keep P id ->
  keeps P w (snd (checkStatus j w)).
Proof.
  intros Htarget Hid. unfold checkStatus. cbn in Htarget.
  destruct (jobs w !! j) as [job|]; [|done]. cbn in Htarget. simplify_eq.
  eapply keeps_trans; [by apply (keeps_same w (count_attempt j job w))|].
  apply respects_bind; [auto with respects|]. intros st.
  apply respects_bind; [auto with respects|]. intros v.
  repeat case_match; auto 10 with respects.
  intros w'. repeat case_match; try apply keeps_refl.
  - by apply respects_setTimeout.
  - apply (respects_bind (storage_updateFileStatus _ _ _)); auto with respects.
Qed.

Lemma respects_processFile id fType path oName :
  writes_keep P id -> respects (keeps P) (processFile id fType path oName).
Proof.
  intros Hid. unfold processFile.
  apply respects_try_catch; [|auto 10 with respects].
  case_decide; auto 20 with respects.
Qed.

Lemma run_callback_keeps cb w id :
  target w cb = Some id -> writes_keep P id -> keeps P w (snd (run_callback cb w)).
Proof.
  intros Htarget Hid. destruct cb as [j|id']; cbn [run_callback].
  - by eapply respects_checkStatus.
  - cbn in Htarget. simplify_eq. by apply respects_standardProcessing.
Qed.

Lemma writes_keep_of_invariant id : StoreInvariant P -> writes_keep P id.
Proof. intros [Hst Hmd _ _]. split; intros; [apply Hst | apply Hmd]; done. Qed.

Lemma run_callback_keeps_all cb w :
  StoreInvariant P -> keeps P w (snd (run_callback cb w)).
Proof.
  intros Hinv. destruct (target w cb) as [id|] eqn:Htarget.
  - eapply run_callback_keeps; [done | by apply writes_keep_of_invariant].
  - destruct cb as [j|id]; [|done]. cbn in *. unfold checkStatus.
    destruct (jobs w !! j); [done | apply keeps_refl].
Qed.

Lemma fire_keeps w w' : StoreInvariant P -> fire w = Some w' -> keeps P w w'.
Proof.
  intros Hinv Hfire. unfold fire in Hfire.
  destruct (pop_timer (timers w)) as [[t rest]|]; [|done].
  set (w1 := set_clock _ _) in Hfire.
  pose proof (run_callback_keeps_all (callback t) w1 Hinv) as Hk.
  destruct (run_callback (callback t) w1) as [[[]|e] w2]; simplify_eq; exact Hk.
Qed.

Lemma respects_upload_one file :
  StoreInvariant P -> respects (keeps P) (upload_one path_extname file).
Proof.
  intros Hinv. unfold upload_one. apply respects_bind.
  - intros w Hw.
    match goal with
    | |- P (storage (snd (storage_createFile ?ins w))) =>
        exact (inv_create P Hinv (clock w) ins (storage w) eq_refl Hw)
    end.
  - intros saved. apply respects_bind; [|auto with respects].
    apply respects_unawaited, respects_processFile.
    by apply writes_keep_of_invariant.
Qed.

Lemma respects_upload_all fs :
  StoreInvariant P -> respects (keeps P) (upload_all path_extname fs).
Proof.
  intros Hinv. induction fs as [|file fs IH]; cbn [upload_all].
  - apply respects_ret.
  - apply respects_bind; [by apply respects_upload_one|]. intros saved.
    apply respects_bind; [exact IH|]. intros more. apply respects_ret.
Qed.

Lemma step_keeps ev w :
  StoreInvariant P -> keeps P w (step path_extname ev w).
Proof.
  intros Hinv. destruct ev as [fs|id|id st msg|id| |ms]; cbn [step].
  - unfold post_upload. apply respects_try_catch; [|auto with respects].
    destruct fs as [fs|]; [|apply respects_ret].
    apply respects_bind; [by apply respects_upload_all|]. auto with respects.
  - unfold get_file. apply respects_try_catch; [|auto with respects].
    apply respects_bind; [auto with respects|]. intros [f|]; auto with respects.
  - unfold patch_status. apply respects_try_catch; [|auto with respects].
    apply respects_bind.
    + apply respects_updateFileStatus. by apply writes_keep_of_invariant.
    + intros [f|]; auto with respects.
  - unfold delete_file. apply respects_try_catch; [|auto with respects].
    apply respects_bind.
    + intros w0 Hw0. exact (inv_delete P Hinv id (storage w0) Hw0).
    + intros []; auto with respects.
  - destruct (fire w) as [w'|] eqn:Hfire; cbn; [by eapply fire_keeps | apply keeps_refl].
  - by apply keeps_same.
Qed.

Lemma reachable_invariant w :
  StoreInvariant P -> P MemStorage_new -> reachable path_extname w -> P (storage w).
Proof.
  intros Hinv Hnew Hreach. induction Hreach as [svc n t0|ev w Hreach IH]; [done|].
  by apply step_keeps.
Qed.

End Keeps.

Lemma reachable_run_events evs w :
  reachable path_extname w -> reachable path_extname (run_events path_extname evs w).
Proof.
  revert w. induction evs as [|ev evs IH]; intros w Hw; [done|].
  cbn. apply IH. by constructor.
Qed.

(** *** [processedAt] *)

Lemma stamped_invariant : StoreInvariant stamped.
Proof.
  split.
  - intros now id st msg s Hs id' f' Hf' Hterm.
    destruct (files s !! id) as [f|] eqn:Hf;
      [|rewrite updateFileStatus_absent in Hf' by done; by eapply Hs].
    destruct (decide (id = id')) as [<-|Hne];
      [|rewrite updateFileStatus_other in Hf' by done; by eapply Hs].
    destruct (updateFileStatus_lookup s now id st msg f Hf) as (f1 & Heq & Hst & _ & _ & Hp).
    rewrite Heq in Hf'. cbn in Hf'. rewrite lookup_insert_eq in Hf'.
    injection Hf' as <-. rewrite Hp. rewrite Hst in Hterm. by rewrite Hterm.
  - intros id md s Hs id' f' Hf' Hterm.
    destruct (files s !! id) as [f|] eqn:Hf;
      [|rewrite updateFileMetadata_absent in Hf' by done; by eapply Hs].
    destruct (decide (id = id')) as [<-|Hne];
      [|rewrite updateFileMetadata_other in Hf' by done; by eapply Hs].
    destruct (updateFileMetadata_lookup s id md f Hf) as (f1 & Heq & Hst & _ & _ & Hp).
    rewrite Heq in Hf'. cbn in Hf'. rewrite lookup_insert_eq in Hf'.
    injection Hf' as <-. rewrite Hp. rewrite Hst in Hterm. by eapply Hs.
  - intros id s Hs id' f' Hf' Hterm. cbn in Hf'.
    apply lookup_delete_Some in Hf' as [_ Hf']. by eapply Hs.
  - intros now ins s Hins Hs id' f' Hf' Hterm. cbn in Hf'.
    apply lookup_insert_Some in Hf' as [[<- <-]|[_ Hf']]; [|by eapply Hs].
    cbn in Hterm. by rewrite Hins in Hterm.
Qed.

(** C7 (amended). [processedAt] is null in a new record; a status update
    writes it, with the time of the update, exactly when the new status is
    READY or ERROR (so a later terminal transition replaces the earlier
    time) and keeps it otherwise; a metadata update keeps it; hence it is
    never reset to null, and in every state the server can reach a record in
    READY or ERROR has its [processedAt]. *)
Theorem processedAt_lifecycle :
  (forall now ins s, processedAt (fst (createFile now ins s)) = None)
  /\ (forall s now id st msg f, files s !! id = Some f ->
        exists f', files (snd (updateFileStatus now id st msg s)) !! id = Some f'
                   /\ processedAt f'
                      = if is_terminal st then Some now else processedAt f)
  /\ (forall s id md f, files s !! id = Some f ->
        exists f', files (snd (updateFileMetadata id md s)) !! id = Some f'
                   /\ processedAt f' = processedAt f)
  /\ (forall w, reachable path_extname w -> stamped (storage w)).
Proof.
  split_and!.
  - done.
  - intros s now id st msg f Hf.
    destruct (updateFileStatus_lookup s now id st msg f Hf) as (f' & Heq & _ & _ & _ & Hp).
    exists f'. rewrite Heq. cbn. by rewrite lookup_insert_eq.
  - intros s id md f Hf.
    destruct (updateFileMetadata_lookup s id md f Hf) as (f' & Heq & _ & _ & _ & Hp).
    exists f'. rewrite Heq. cbn. by rewrite lookup_insert_eq.
  - intros w Hreach. apply (reachable_invariant stamped); [apply stamped_invariant| |done].
    intros id f Hf. cbn in Hf. by rewrite lookup_empty in Hf.
Qed.

(** *** The two steps that make a record READY *)

Lemma standardProcessing_eq id w :
  standardProcessing id w
  = (Returned tt,
     snd (storage_updateFileMetadata id standard_metadata
            (snd (storage_updateFileStatus id FILE_STATUS_READY None w)))).
Proof. done. Qed.

Lemma ready_writes w id md f :
  file_of w id = Some f ->
  let w1 := snd (storage_updateFileStatus id FILE_STATUS_READY None w) in
  let w2 := snd (storage_updateFileMetadata id md w1) in
  exists f1 f2,
    snapshots w2 = files (storage w2) :: files (storage w1) :: snapshots w
    /\ file_of w1 id = Some f1 /\ status f1 = "ready" /\ metadata f1 = metadata f
    /\ file_of w2 id = Some f2 /\ status f2 = "ready" /\ metadata f2 = Some md
    /\ errorMessage f2 = None /\ processedAt f2 = Some (clock w).
Proof.
  intros Hf w1 w2.
  destruct (status_write w id FILE_STATUS_READY None f Hf)
    as (f1 & Hf1 & Hst1 & Hem1 & Hmd1 & Hp1).
  destruct (metadata_write _ id md f1 Hf1) as (f2 & Hf2 & Hst2 & Hem2 & Hmd2 & Hp2).
  cbn in Hem1. change (is_terminal FILE_STATUS_READY) with true in Hp1.
  unfold FILE_STATUS_READY in Hst1.
  exists f1, f2. split_and!; try done; congruence.
Qed.

(** *** Files that are not drawings *)

Lemma processFile_standard id fType path oName w :
  fType <> FILE_TYPES_AUTOCAD ->
  processFile id fType path oName w
  = (Returned tt, snd (setTimeout (StandardProcessing id) 1000 w)).
Proof. intros Hne. unfold processFile, try_catch. by rewrite decide_False. Qed.

(** C6 (amended). For a file whose detected type is not AUTOCAD,
    [processFile] writes nothing to the store (the record keeps the status
    it has, UPLOADING after an upload: there is no transition to PROCESSING),
    makes no call on the remote translation client and schedules one
    callback 1000 ms later. That callback, on a record that still exists,
    makes it READY and then attaches the metadata
    [{viewerType:'standard', processed:true}], again without any call on
    the remote translation client or any request on the network. With no
    other timer pending, the callback is what runs next, at the clock plus
    1000 ms. Accordingly the upload of such a file leaves its new record in
    UPLOADING with that one callback added to the timers. *)
Theorem standard_pipeline w id fType path oName :
  fType <> FILE_TYPES_AUTOCAD ->
  let w1 := snd (processFile id fType path oName w) in
  (storage w1 = storage w /\ snapshots w1 = snapshots w
   /\ timers w1 = (timers w ++ [mkTimer (clock w + 1000) (StandardProcessing id)])%list
   /\ aps_calls w1 = aps_calls w /\ net w1 = net w)
  /\ (forall w2 f,
        file_of w2 id = Some f ->
        let w3 := snd (standardProcessing id w2) in
        exists f',
          file_of w3 id = Some f'
          /\ status f' = "ready"
          /\ errorMessage f' = None
          /\ metadata f'
             = Some (JSON_stringify
                       (JObj [("viewerType", JStr "standard");
                              ("processed", JBool true)]))
          /\ timers w3 = timers w2
          /\ aps_calls w3 = aps_calls w2 /\ net w3 = net w2)
  /\ (timers w = [] ->
        fire w1
        = Some (snd (standardProcessing id
                       (set_clock (clock w + 1000) (set_timers [] w1)))))
  /\ (forall file w0,
        detectFileType path_extname (mf_originalname file) (mf_mimetype file)
        = fType ->
        let wu := snd (upload_one path_extname file w0) in
        let new := currentId (storage w0) in
        (exists f, file_of wu new = Some f /\ status f = "uploading"
                   /\ metadata f = None)
        /\ timers wu
           = (timers w0 ++ [mkTimer (clock w0 + 1000) (StandardProcessing new)])%list
        /\ aps_calls wu = aps_calls w0 /\ net wu = net w0).
Proof.
  intros Hne w1. subst w1. rewrite (processFile_standard _ _ _ _ _ Hne).
  split_and!; try done.
  - intros w2 f Hf w3.
    destruct (ready_writes w2 id standard_metadata f Hf)
      as (f1 & f2 & _ & _ & _ & _ & Hf2 & Hst2 & Hmd2 & Hem2 & _).
    exists f2. split_and!; done.
  - intros Ht. unfold fire. cbn. rewrite Ht. cbn.
    by replace (Z.max (clock w) (clock w + 1000)) with (clock w + 1000) by lia.
  - intros file w0 Hft wu new. subst wu.
    unfold upload_one, bind, unawaited. cbn [storage_createFile fst snd].
    rewrite Hft, (processFile_standard _ _ _ _ _ Hne). cbn [fst snd].
    split_and!; try done.
    eexists. split; [unfold file_of; cbn; apply lookup_insert_eq|]. done.
Qed.

(** *** Writes to a deleted record *)

Lemma callback_on_absent_record w cb id :
  target w cb = Some id ->
  file_of w id = None ->
  storage (snd (run_callback cb w)) = storage w.
Proof.
  intros Htarget Hnone.
  apply (run_callback_keeps (fun s => s = storage w) cb w id Htarget); [|done].
  split.
  - intros now st msg s ->. by rewrite updateFileStatus_absent.
  - intros md s ->. by rewrite updateFileMetadata_absent.
Qed.

(** C8. Once a record is deleted, a status update or a metadata update
    addressed to its id answers no record and leaves the store as it is, and
    so does any sequence of them: the id stays absent. In the server, after
    the delete request the record is absent, and a pipeline callback that
    targets an absent record leaves the store as it found it. *)
Theorem writes_after_delete_are_noops :
  (forall s id,
      let s' := snd (deleteFile id s) in
      files s' !! id = None
      /\ (forall now st msg, updateFileStatus now id st msg s' = (None, s'))
      /\ (forall md, updateFileMetadata id md s' = (None, s'))
      /\ (forall wrs, apply_writes id wrs s' = s'))
  /\ (forall w id, file_of (snd (delete_file id w)) id = None)
  /\ (forall w cb id,
        target w cb = Some id -> file_of w id = None ->
        storage (snd (run_callback cb w)) = storage w
        /\ file_of (snd (run_callback cb w)) id = None).
Proof.
  split_and!.
  - intros s id s'. pose proof (deleteFile_lookup s id) as Hnone. fold s' in Hnone.
    split_and!; [done| | |].
    + intros. by apply updateFileStatus_absent.
    + intros. by apply updateFileMetadata_absent.
    + intros wrs. by apply apply_writes_absent.
  - intros w id. unfold file_of, delete_file, try_catch, bind, storage_deleteFile.
    cbn. destruct (bool_decide _); cbn; apply lookup_delete_eq.
  - intros w cb id Htarget Hnone.
    pose proof (callback_on_absent_record w cb id Htarget Hnone) as Hs.
    split; [done|]. unfold file_of in *. by rewrite Hs.
Qed.

(** *** A remote service that answers *)

Section Good.

Context (good : Net -> Prop) (Hresp : Responsive good).

Lemma request_token_good w :
  good (net w) ->
  exists auth w', request_token w = (Returned auth, w') /\ good (net w').
Proof.
  intros Hg. unfold request_token, bind, axios.
  destruct (token_answers good Hresp
              (toString_base64
                 (Buffer_from (clientId (apsService w) +:+ ":"
                               +:+ clientSecret (apsService w))))
              (net w) Hg) as (a & n' & Heq & Hg').
  rewrite Heq. cbn. eauto.
Qed.

Lemma authenticate_good w :
  good (net w) ->
  exists auth w', authenticate w = (Returned auth, w') /\ good (net w').
Proof.
  intros Hg. unfold authenticate.
  destruct (accessToken (apsService w)), (tokenExpiry (apsService w));
    try by apply request_token_good.
  case_match; [eauto | by apply request_token_good].
Qed.

Lemma createBucket_good key w :
  good (net w) -> good (net (snd (createBucket key w))).
Proof.
  intros Hg. rewrite createBucket_eq.
  destruct (authenticate_good (add_log (LogAps (clock w) "createBucket" key) w) Hg)
    as (auth & w1 & -> & Hg1).
  pose proof (buckets_keeps_good good Hresp (access_token auth) key _ Hg1) as Hg2.
  destruct (post_buckets _ _ _) as [[b|e] n1]; cbn in *; [done|].
  case_decide; [|done]. cbn.
  by apply (details_keeps_good good Hresp).
Qed.

Lemma uploadFile_good bKey oKey path w :
  good (net w) -> good (net (snd (uploadFile bKey oKey path w))).
Proof.
  intros Hg. unfold uploadFile, bind, log_aps.
  destruct (authenticate_good (add_log (LogAps (clock w) "uploadFile" oKey) w) Hg)
    as (auth & w1 & -> & Hg1).
  cbn. by apply (object_keeps_good good Hresp).
Qed.

Lemma translateFile_good urn w :
  good (net w) -> good (net (snd (translateFile urn w))).
Proof.
  intros Hg. unfold translateFile, bind, log_aps.
  destruct (authenticate_good (add_log (LogAps (clock w) "translateFile" urn) w) Hg)
    as (auth & w1 & -> & Hg1).
  cbn. by apply (job_keeps_good good Hresp).
Qed.


End Good.

(** *** [processFile] on a drawing *)

Lemma storage_updateFileStatus_pair id st msg w :
  storage_updateFileStatus id st msg w
  = (Returned (fst (updateFileStatus (clock w) id st msg (storage w))),
     snd (storage_updateFileStatus id st msg w)).
Proof. done. Qed.

Lemma processFile_autocad id path oName w :
  let w0 := snd (storage_updateFileStatus id FILE_STATUS_PROCESSING None w) in
  let bKey := "autocad-viewer-" +:+ pretty (clock w) in
  let oKey := pretty id +:+ "-" +:+ oName in
  processFile id FILE_TYPES_AUTOCAD path oName w =
    match createBucket bKey w0 with
    | (Thrown e, w1) => (Returned tt, aps_failure id e w1)
    | (Returned _, w1) =>
        match uploadFile bKey oKey path w1 with
        | (Thrown e, w2) => (Returned tt, aps_failure id e w2)
        | (Returned up, w2) =>
            match translateFile (encodeBase64Url (objectId up)) w2 with
            | (Thrown e, w3) => (Returned tt, aps_failure id e w3)
            | (Returned _, w3) =>
                (Returned tt,
                 polling_started id (encodeBase64Url (objectId up)) bKey oKey w3)
            end
        end
    end.
Proof.
  intros w0 bKey oKey. unfold processFile. rewrite decide_True by done.
  unfold try_catch at 1. unfold bind at 1.
  rewrite storage_updateFileStatus_pair. fold w0.
  unfold bind at 1. unfold Date_now at 1.
  change (clock w0) with (clock w). cbv zeta. fold bKey oKey.
  unfold try_catch at 1. unfold bind at 1.
  destruct (createBucket bKey w0) as [[b|e] w1]; [|done].
  unfold bind at 1.
  destruct (uploadFile bKey oKey path w1) as [[up|e] w2]; [|done].
  unfold bind at 1.
  destruct (translateFile _ w2) as [[job|e] w3]; [|done].
  done.
Qed.

(** *** The poll loop *)

Lemma run_timers_idle fuel w : timers w = [] -> run_timers fuel w = w.
Proof. intros Ht. destruct fuel; [done|]. cbn. unfold fire. by rewrite Ht. Qed.

Lemma run_timers_S fuel w wf :
  fire w = Some wf -> run_timers (S fuel) w = run_timers fuel wf.
Proof. intros Hfire. cbn. by rewrite Hfire. Qed.

Lemma run_timers_add a b w :
  run_timers (a + b) w = run_timers b (run_timers a w).
Proof.
  revert w. induction a as [|a IH]; intros w; [done|]. cbn.
  destruct (fire w) as [w'|] eqn:Hfire; [apply IH|].
  destruct b; [done|]. cbn. by rewrite Hfire.
Qed.

Lemma poll_times_poll w w2 urn :
  log w2 = LogAps (clock w) "getTranslationStatus" urn :: log w ->
  poll_times w2 = clock w :: poll_times w.
Proof. intros Hlog. unfold poll_times. by rewrite Hlog. Qed.

Lemma poll_times_other w w' t m a :
  log w' = LogAps t m a :: log w -> m <> "getTranslationStatus" ->
  poll_times w' = poll_times w.
Proof.
  intros Hlog Hm. unfold poll_times. rewrite Hlog. cbn.
  by rewrite bool_decide_eq_false_2.
Qed.

(** The steps of [processFile] on a drawing before the first poll: either
    one of them throws, and the record is left in ERROR with the captured
    message and nothing scheduled, or the closure is allocated with no
    attempt counted and its first run scheduled 10000 ms later. *)
Lemma processFile_autocad_cases id path oName w :
  let w1 := snd (processFile id FILE_TYPES_AUTOCAD path oName w) in
  poll_times w1 = poll_times w
  /\ clock w1 = clock w
  /\ ((timers w1 = timers w /\ jobs w1 = jobs w
       /\ forall f, file_of w id = Some f ->
            exists f' e, file_of w1 id = Some f' /\ status f' = "error"
                         /\ errorMessage f' = Some ("APS error: " +:+ message e))
      \/ (exists job,
            timers w1
            = (timers w
               ++ [mkTimer (clock w + 10000) (CheckStatus (length (jobs w)))])%list
            /\ jobs w1 = (jobs w ++ [job])%list
            /\ job_fileId job = id /\ attempts job = 0 /\ maxAttempts job = 30
            /\ (forall f, file_of w id = Some f ->
                  exists f', file_of w1 id = Some f' /\ status f' = "processing")
            /\ forall good, Responsive good -> good (net w) -> good (net w1))).
Proof.
  intros w1. subst w1. rewrite processFile_autocad.
  set (w0 := snd (storage_updateFileStatus id FILE_STATUS_PROCESSING None w)).
  set (bKey := "autocad-viewer-" +:+ pretty (clock w)).
  set (oKey := pretty id +:+ "-" +:+ oName).
  assert (Hfail : forall e wx,
    same_app w0 wx -> poll_times wx = poll_times w ->
    let w1 := aps_failure id e wx in
    poll_times w1 = poll_times w /\ clock w1 = clock w
    /\ timers w1 = timers w /\ jobs w1 = jobs w
    /\ forall f, file_of w id = Some f ->
         exists f' e, file_of w1 id = Some f' /\ status f' = "error"
                      /\ errorMessage f' = Some ("APS error: " +:+ message e)).
  { intros e wx (Hs & Hj & Htm & Hc) Hp w1. subst w1. unfold aps_failure.
    split_and!; [done | cbn; by rewrite Hc | cbn; by rewrite Htm
                | cbn; by rewrite Hj |].
    intros f Hf.
    destruct (status_write w id FILE_STATUS_PROCESSING None f Hf) as (f0 & Hf0 & _).
    assert (Hfx : file_of (add_log (LogConsole "APS processing error:" e) wx) id
                  = Some f0) by (unfold file_of in *; cbn; by rewrite Hs).
    destruct (status_write _ id FILE_STATUS_ERROR
                (Some ("APS error: " +:+ message e)) f0 Hfx)
      as (f' & Hf' & Hst' & Hem' & _).
    exists f', e. by split_and!. }
  assert (Hp0 : poll_times w0 = poll_times w) by done.
  destruct (createBucket bKey w0) as [[b|e] wa] eqn:Hcb.
  2:{ pose proof (createBucket_frame bKey w0) as [Hsa Hlog]. rewrite Hcb in Hsa, Hlog.
      cbn [snd] in *.
      destruct (Hfail e wa Hsa) as (? & ? & ? & ? & ?);
        [rewrite <- Hp0; by eapply poll_times_other|]. split_and!; try done. by left. }
  pose proof (createBucket_frame bKey w0) as [Hsa Hloga]. rewrite Hcb in Hsa, Hloga.
  cbn [snd] in Hsa, Hloga.
  assert (Hpa : poll_times wa = poll_times w)
    by (rewrite <- Hp0; by eapply poll_times_other).
  destruct (uploadFile bKey oKey path wa) as [[up|e] wb] eqn:Hup.
  2:{ pose proof (uploadFile_frame bKey oKey path wa) as [Hsb Hlog]. rewrite Hup in Hsb, Hlog.
      cbn [snd] in *.
      destruct (Hfail e wb (same_app_trans _ _ _ Hsa Hsb)) as (? & ? & ? & ? & ?);
        [rewrite <- Hpa; by eapply poll_times_other|]. split_and!; try done. by left. }
  pose proof (uploadFile_frame bKey oKey path wa) as [Hsb Hlogb]. rewrite Hup in Hsb, Hlogb.
  cbn [snd] in Hsb, Hlogb.
  assert (Hpb : poll_times wb = poll_times w)
    by (rewrite <- Hpa; by eapply poll_times_other).
  set (urn := encodeBase64Url (objectId up)).
  destruct (translateFile urn wb) as [[jb|e] wc] eqn:Htr.
  2:{ pose proof (translateFile_frame urn wb) as [Hsc Hlog]. rewrite Htr in Hsc, Hlog.
      cbn [snd] in *.
      destruct (Hfail e wc (same_app_trans _ _ _ (same_app_trans _ _ _ Hsa Hsb) Hsc))
        as (? & ? & ? & ? & ?);
        [rewrite <- Hpb; by eapply poll_times_other|]. split_and!; try done. by left. }
  pose proof (translateFile_frame urn wb) as [Hsc Hlogc]. rewrite Htr in Hsc, Hlogc.
  cbn [snd] in Hsc, Hlogc.
  assert (Hpc : poll_times wc = poll_times w)
    by (rewrite <- Hpb; by eapply poll_times_other).
  destruct (same_app_trans _ _ _ (same_app_trans _ _ _ Hsa Hsb) Hsc)
    as (Hs & Hj & Htm & Hc).
  cbn [snd]. split_and!.
  - done.
  - cbn. by rewrite Hc.
  - right. exists (mkJob id urn bKey oKey 0 30).
    split_and!; try done.
    + cbn. by rewrite Htm, Hc, Hj.
    + cbn. by rewrite Hj.
    + intros f Hf.
      destruct (status_write w id FILE_STATUS_PROCESSING None f Hf)
        as (f0 & Hf0 & Hst0 & _).
      exists f0. split; [|done]. unfold file_of in *. cbn. by rewrite Hs.
    + intros good Hresp Hg. cbn.
      pose proof (createBucket_good good Hresp bKey w0 Hg) as Hga. rewrite Hcb in Hga.
      pose proof (uploadFile_good good Hresp bKey oKey path wa Hga) as Hgb.
      rewrite Hup in Hgb.
      pose proof (translateFile_good good Hresp urn wb Hgb) as Hgc.
      by rewrite Htr in Hgc.
Qed.

(** *** The attempt ceiling in every reachable state *)


Lemma pop_timer_None ts : pop_timer ts = None -> ts = [].
Proof.
  destruct ts as [|t ts]; [done|]. cbn.
  destruct (pop_timer ts) as [[t' rest']|]; [by case_match | done].
Qed.

Lemma pop_timer_perm ts t rest :
  pop_timer ts = Some (t, rest) -> ts ≡ₚ t :: rest.
Proof.
  revert t rest. induction ts as [|t0 ts IH]; intros t rest Hpop; [done|].
  cbn in Hpop. destruct (pop_timer ts) as [[t' rest']|] eqn:Hts.
  - case_match; simplify_eq; [|done].
    rewrite (IH _ _ eq_refl). apply Permutation_swap.
  - simplify_eq. by rewrite (pop_timer_None _ Hts).
Qed.




(** What a run of [checkStatus] does to the closures, the timers and the
    polls: one more attempt, one more poll, at most one more timer. *)
Lemma checkStatus_frame w j job :
  jobs w !! j = Some job ->
  let wf := snd (checkStatus j w) in
  jobs wf = <[j := with_attempts (attempts job + 1) job]> (jobs w)
  /\ poll_times wf = clock w :: poll_times w
  /\ (timers wf = timers w
      \/ (attempts job + 1 < maxAttempts job
          /\ timers wf
             = (timers w ++ [mkTimer (clock w + 10000) (CheckStatus j)])%list)).
Proof.
  intros Hjob wf. subst wf.
  destruct (getTranslationStatus (job_urn job) (count_attempt j job w))
    as [r w2] eqn:Hpoll.
  pose proof (poll_frame _ _ _ _ _ Hpoll) as (Hs & Ht & Hc & Hjobs & Hlog).
  pose proof (poll_times_poll _ _ _ Hlog) as Hpt.
  rewrite (checkStatus_eq _ _ _ _ _ Hjob Hpoll).
  destruct r as [st|e]; [|by split_and!; [| |left]].
  destruct st; repeat case_match; cbn [snd];
    (split_and!; [done|done|]);
    first [ by left
          | right; split; [by apply Z.ltb_lt|]; cbn; by rewrite Ht, Hc ].
Qed.








(** *** Every timer fires a bounded number of times *)









(** *** A poll that throws, and the retry request *)

(** A run of [checkStatus] whose poll throws rejects with that error: it
    writes nothing to the store and schedules nothing. *)
Lemma checkStatus_poll_throws w j job e w2 :
  jobs w !! j = Some job ->
  getTranslationStatus (job_urn job) (count_attempt j job w) = (Thrown e, w2) ->
  checkStatus j w = (Thrown e, w2)
  /\ storage w2 = storage w /\ timers w2 = timers w.
Proof.
  intros Hjob Hpoll. rewrite (checkStatus_eq _ _ _ _ _ Hjob Hpoll).
  by destruct (poll_frame _ _ _ _ _ Hpoll) as (? & ? & _).
Qed.

(** The status request writes the status it is given and nothing else: no
    timer, no closure, no call on the remote translation client. *)
Lemma patch_status_schedules_nothing w id st msg :
  let w' := snd (patch_status id st msg w) in
  timers w' = timers w /\ jobs w' = jobs w /\ aps_calls w' = aps_calls w
  /\ net w' = net w
  /\ storage w' = snd (updateFileStatus (clock w) id st msg (storage w)).
Proof.
  unfold patch_status, try_catch, bind. rewrite storage_updateFileStatus_pair.
  by destruct (fst _).
Qed.

End ServerFacts.

(** ** The scenarios, run against the double *)

Section Scenarios.

Lemma Remote_bucket_store : BucketStore has_bucket.
Proof.
  split; unfold has_bucket; cbn.
  - intros tok key n b n' H. destruct (r_buckets n !! key) eqn:Hk; simplify_eq.
    cbn. by rewrite lookup_insert_eq.
  - intros tok key n b n' H. destruct (r_buckets n !! key) eqn:Hk; by simplify_eq.
  - intros tok key n b r n' Hhas H. rewrite Hhas in H. by simplify_eq.
  - intros tok key n b r n' Hhas H. rewrite Hhas in H. simplify_eq.
    split; [done|]. by intros b' [= ->].
  - intros c key n b r n' Hhas H. by simplify_eq.
Qed.

Lemma Remote_responsive : Responsive answering.
Proof.
  split; unfold answering; cbn.
  - intros c n [[a Ha] Hm]. exists a, n. rewrite Ha. eauto.
  - intros tok urn n [Ha Hm]. destruct (r_manifests n) as [|m rest] eqn:Hn.
    + exists (manifest "inprogress"), n. split_and!; try done. by rewrite Hn.
    + apply Forall_cons in Hm as [(st & -> & Hnull) Hrest].
      eexists st, _. split_and!; done.
  - intros tok key n H. by destruct (r_buckets n !! key).
  - intros tok key n H. by destruct (r_buckets n !! key).
  - intros tok bKey oKey path n H. by destruct (r_upload n).
  - intros tok urn n H. by destruct (r_job n).
Qed.

(** RFC 4648, section 10. *)
Example base64_vectors :
  map (fun s => toString_base64 (Buffer_from s))
      [""; "f"; "fo"; "foo"; "foob"; "fooba"; "foobar"]
  = [""; "Zg=="; "Zm8="; "Zm9v"; "Zm9vYg=="; "Zm9vYmE="; "Zm9vYmFy"].
Proof. reflexivity. Qed.

Example encodeBase64Url_sample : encodeBase64Url "ab?>~~" = "YWI_Pn5-".
Proof. reflexivity. Qed.

(** [plan.dwg], manifest [success] on the first poll: READY with a urn. *)
Example drawing_success :
  let w := scenario [Returned (manifest "success")]
             [ReqUpload (Some [plan_dwg]); TimerFires] in
  exists f, file_of w 1 = Some f
            /\ fileType f = "autocad" /\ status f = "ready"
            /\ processedAt f = Some 11000
            /\ job_urn <$> jobs w !! 0%nat
               = Some "dXJuOmFkc2sub2JqZWN0czpvcy5vYmplY3Q6YXV0b2NhZC12aWV3ZXItMTAwMC8xLXBsYW4uZHdn".
Proof. vm_compute. eexists. split; [reflexivity|]. by split_and!. Qed.

(** [spec.pdf]: READY with the standard metadata and no remote call. *)
Example document_ready :
  let w := scenario [] [ReqUpload (Some [spec_pdf]); TimerFires] in
  exists f, file_of w 1 = Some f
            /\ fileType f = "pdf" /\ status f = "ready"
            /\ metadata f = Some standard_metadata
            /\ aps_calls w = [].
Proof. vm_compute. eexists. split; [reflexivity|]. by split_and!. Qed.

(** A manifest that stays pending: 30 polls, then ERROR. *)
Example always_pending :
  let w := scenario [] (ReqUpload (Some [plan_dwg]) :: repeat TimerFires 40) in
  exists f, file_of w 1 = Some f
            /\ status f = "error"
            /\ errorMessage f = Some "Translation timeout"
            /\ length (poll_times w) = 30%nat
            /\ timers w = [].
Proof. vm_compute. eexists. split; [reflexivity|]. by split_and!. Qed.

(** C1. After a drawing ended in ERROR, the retry request (PATCH with status
    'processing') makes the record PROCESSING and does nothing else: unlike
    the upload, which leaves a timer pending, it leaves none, it makes no
    call on the remote translation client, and no firing of timers changes
    the state any more, so the record stays PROCESSING. *)
Theorem retry_does_not_restart :
  let uploaded := scenario [Returned (manifest "failed")]
                    [ReqUpload (Some [plan_dwg])] in
  let failed := step extname TimerFires uploaded in
  let retried := step extname (ReqPatch 1 "processing" None) failed in
  length (timers uploaded) = 1%nat
  /\ status <$> file_of failed 1 = Some "error"
  /\ status <$> file_of retried 1 = Some "processing"
  /\ timers retried = []
  /\ aps_calls retried = aps_calls failed
  /\ forall fuel, status <$> file_of (run_timers fuel retried) 1 = Some "processing".
Proof.
  cbv zeta. split_and!; [by vm_compute ..|].
  intros fuel. rewrite run_timers_idle; by vm_compute.
Qed.

(** C2, as stated, fails: while the pipeline of a record is still under
    way, a status request with ['ready'] leaves the record READY with no
    metadata, and the next GET /api/files/:id answers it so. For a drawing
    that is being polled, and for a document whose callback is pending. *)
Lemma ready_without_metadata :
  (let w := scenario [] [ReqUpload (Some [plan_dwg]); ReqPatch 1 "ready" None] in
   exists f, fst (get_file 1 w) = Returned (ResFile f)
             /\ fileType f = "autocad" /\ status f = "ready" /\ metadata f = None
             /\ length (timers w) = 1%nat)
  /\ (let w := scenario [] [ReqUpload (Some [spec_pdf]); ReqPatch 1 "ready" None] in
      exists f, fst (get_file 1 w) = Returned (ResFile f)
                /\ fileType f = "pdf" /\ status f = "ready" /\ metadata f = None
                /\ length (timers w) = 1%nat).
Proof.
  split; vm_compute; eexists; (split; [reflexivity|]); by split_and!.
Qed.

(** C3, as stated, fails: the messages the code writes are
    ["APS translation failed"] and ["Translation timeout"], and the metadata
    has the keys [status] and [derivatives], not [derivativeStatus]. *)
Lemma poll_messages_differ :
  (let w := scenario [Returned (manifest "failed")]
              [ReqUpload (Some [plan_dwg]); TimerFires] in
   exists f, file_of w 1 = Some f /\ status f = "error"
             /\ errorMessage f = Some "APS translation failed"
             /\ errorMessage f <> Some "translation failed")
  /\ (let w := scenario [] (ReqUpload (Some [plan_dwg]) :: repeat TimerFires 30) in
      exists f, file_of w 1 = Some f /\ status f = "error"
                /\ errorMessage f = Some "Translation timeout"
                /\ errorMessage f <> Some "translation timeout")
  /\ (let w := scenario [Returned (manifest "success")]
                 [ReqUpload (Some [plan_dwg]); TimerFires] in
      exists f md, file_of w 1 = Some f /\ status f = "ready"
                   /\ metadata f = Some md
                   /\ includes "derivativeStatus" md = false
                   /\ includes "derivatives" md = true).
Proof.
  split_and!; vm_compute.
  - eexists. split; [reflexivity|]. by split_and!.
  - eexists. split; [reflexivity|]. by split_and!.
  - eexists _, _. split; [reflexivity|]. by split_and!.
Qed.

(** A drawing whose first poll answers ['failed']: the poll returns a
    manifest, the record exists, and the run leaves it in ERROR. *)
Lemma checkStatus_outcomes_witness :
  let w := scenario [Returned (manifest "failed")] [ReqUpload (Some [plan_dwg])] in
  exists f', file_of (snd (checkStatus 0 w)) 1 = Some f'
             /\ status f' = "error"
             /\ errorMessage f' = Some "APS translation failed".
Proof.
  intros w.
  pose (job := mkJob 1
          "dXJuOmFkc2sub2JqZWN0czpvcy5vYmplY3Q6YXV0b2NhZC12aWV3ZXItMTAwMC8xLXBsYW4uZHdn"
          "autocad-viewer-1000" "1-plan.dwg" 0 30).
  pose (p := getTranslationStatus (job_urn job) (count_attempt 0 job w)).
  destruct (file_of w 1) as [f|] eqn:Hf; [|by vm_compute in Hf].
  destruct (checkStatus_outcomes w 0%nat job (manifest "failed") (snd p) f)
    as (f' & Hf' & _ & Hfailed & _).
  - by vm_compute.
  - by vm_compute.
  - discriminate.
  - exact Hf.
  - exists f'. split; [exact Hf'|].
    destruct (Hfailed eq_refl eq_refl) as (Hst & Hem & _). by split.
Defined.

(** C4. With a poll that throws, the run of [checkStatus] ends in an
    unhandled rejection: the record is left PROCESSING with no error message,
    no timer is pending, and firing timers changes nothing any more. *)
Theorem poll_exception_is_unhandled :
  let w := scenario [Thrown network_error]
             [ReqUpload (Some [plan_dwg]); TimerFires] in
  status <$> file_of w 1 = Some "processing"
  /\ errorMessage <$> file_of w 1 = Some None
  /\ head (log w) = Some (LogUnhandled network_error)
  /\ timers w = []
  /\ forall fuel, run_timers fuel w = w.
Proof.
  cbv zeta. split_and!; [by vm_compute ..|].
  intros fuel. rewrite run_timers_idle; by vm_compute.
Qed.

(** C6, as stated, fails: a document is never PROCESSING. After the upload
    its record is still UPLOADING, and the only store states that follow are
    the two writes of the callback, both READY. *)
Lemma document_never_processing :
  let uploaded := scenario [] [ReqUpload (Some [spec_pdf])] in
  let finished := step extname TimerFires uploaded in
  status <$> file_of uploaded 1 = Some "uploading"
  /\ map (fun s => status <$> s !! 1) (snapshots finished)
     = [Some "ready"; Some "ready"; Some "uploading"]
  /\ timers finished = [].
Proof. cbv zeta. by split_and!; vm_compute. Qed.

(** [processFile] on a PDF in the state after boot. *)
Lemma standard_pipeline_witness :
  let w := scenario [] [] in
  let w1 := snd (processFile 1 "pdf" "uploads/77aa" "spec.pdf" w) in
  "pdf" <> FILE_TYPES_AUTOCAD
  /\ storage w1 = storage w
  /\ timers w1 = [mkTimer 2000 (StandardProcessing 1)]
  /\ aps_calls w1 = [].
Proof.
  intros w w1. assert (Hne : "pdf" <> FILE_TYPES_AUTOCAD) by discriminate.
  split; [exact Hne|].
  destruct (standard_pipeline extname w 1 "pdf" "uploads/77aa" "spec.pdf" Hne)
    as ((Hs & _ & Ht & Ha & _) & _ & _).
  by split_and!.
Defined.

(** C7, as stated, fails: after a retry from ERROR the record is PROCESSING
    and still has its [processedAt], and a second terminal transition writes
    [processedAt] again, with a later time. *)
Lemma processedAt_kept_and_rewritten :
  let s1 := snd (createFile 100 drawing MemStorage_new) in
  let s2 := snd (updateFileStatus 200 1 "error" (Some "APS error: x") s1) in
  let s3 := snd (updateFileStatus 300 1 "processing" None s2) in
  let s4 := snd (updateFileStatus 400 1 "ready" None s3) in
  processedAt <$> files s2 !! 1 = Some (Some 200)
  /\ (status <$> files s3 !! 1 = Some "processing"
      /\ processedAt <$> files s3 !! 1 = Some (Some 200))
  /\ processedAt <$> files s4 !! 1 = Some (Some 400).
Proof. cbv zeta. by split_and!; vm_compute. Qed.

(** A state reached by an upload, a failed translation and a retry. *)
Lemma processedAt_lifecycle_witness :
  stamped (storage (scenario [Returned (manifest "failed")]
                      [ReqUpload (Some [plan_dwg]); TimerFires;
                       ReqPatch 1 "processing" None])).
Proof.
  apply (proj2 (proj2 (proj2 (processedAt_lifecycle extname)))).
  apply reachable_run_events. constructor.
Defined.

(** Two calls with one key against the double: one bucket, returned twice. *)
Lemma createBucket_idempotent_witness :
  let w0 := scenario [] [] in
  exists b1 w1 b2 w2,
    createBucket "autocad-viewer-1000" w0 = (Returned b1, w1)
    /\ createBucket "autocad-viewer-1000" w1 = (Returned b2, w2)
    /\ b2 = b1
    /\ size (r_buckets (net w2)) = 1%nat.
Proof.
  intros w0.
  destruct (createBucket "autocad-viewer-1000" w0) as [[b1|e1] w1] eqn:H1;
    [|by vm_compute in H1].
  destruct (createBucket "autocad-viewer-1000" w1) as [[b2|e2] w2] eqn:H2.
  - exists b1, w1, b2, w2. split_and!; [done|done| |].
    + exact (proj2 (createBucket_idempotent has_bucket Remote_bucket_store)
               w0 "autocad-viewer-1000" b1 w1 b2 w2 H1 H2).
    + vm_compute in H1. injection H1 as <- <-. vm_compute in H2.
      injection H2 as <- <-. reflexivity.
  - vm_compute in H1. injection H1 as <- <-. by vm_compute in H2.
Defined.

End Scenarios.


(** ** The list of records *)

Section Listing.

Lemma sort_insert_perm {A} (cmp : A -> A -> Z) x l :
  sort_insert cmp x l ≡ₚ x :: l.
Proof.
  induction l as [|y l IH]; cbn; [done|].
  case_match; [|done]. rewrite IH. apply Permutation_swap.
Qed.

Lemma Array_sort_perm {A} (cmp : A -> A -> Z) l : Array_sort cmp l ≡ₚ l.
Proof.
  induction l as [|x l IH]; cbn; [done|]. by rewrite sort_insert_perm, IH.
Qed.

(** Inserting into a sorted list an element that [cmp] places as [R] does. *)
Lemma sort_insert_sorted {A} (cmp : A -> A -> Z) (R : A -> A -> Prop) x l :
  (forall a b c, R a b -> R b c -> R a c) ->
  (forall y, y ∈ l -> if (0 <? cmp x y)%Z then R y x else R x y) ->
  StronglySorted R l -> StronglySorted R (sort_insert cmp x l).
Proof.
  intros Htrans. induction l as [|y l IH]; intros Hx Hl; cbn.
  - by repeat constructor.
  - apply StronglySorted_inv in Hl as [Hl Hy].
    pose proof (Hx y ltac:(left)) as Hxy.
    destruct (0 <? cmp x y)%Z.
    + constructor.
      * apply IH; [|done]. intros z Hz. apply Hx. by right.
      * rewrite sort_insert_perm. by constructor.
    + constructor; [by constructor|].
      constructor; [done|].
      eapply Forall_impl; [exact Hy|]. intros z Hz. by eapply Htrans.
Qed.

Lemma listed_before_trans a b c :
  listed_before a b -> listed_before b c -> listed_before a c.
Proof. unfold listed_before. lia. Qed.

(** Sorting by upload time a list that is in id order. *)
Lemma Array_sort_listed (l : list File) :
  StronglySorted (fun a b => fileId a < fileId b) l ->
  StronglySorted listed_before
    (Array_sort (fun a b => uploadedAt b - uploadedAt a) l).
Proof.
  induction l as [|x l IH]; intros Hl; cbn; [constructor|].
  apply StronglySorted_inv in Hl as [Hl Hx].
  apply sort_insert_sorted; [apply listed_before_trans| |by apply IH].
  intros y Hy. rewrite Array_sort_perm in Hy.
  rewrite Forall_forall in Hx. specialize (Hx y Hy).
  unfold listed_before. destruct (Z.ltb_spec 0 (uploadedAt y - uploadedAt x)); lia.
Qed.

(** Sorting the entries of a map by key. *)
Lemma Array_sort_keys {V} (l : list (Z * V)) :
  NoDup l.*1 ->
  StronglySorted (fun a b => a.1 < b.1) (Array_sort (fun a b => a.1 - b.1) l).
Proof.
  induction l as [|x l IH]; intros Hl; cbn; [constructor|].
  apply NoDup_cons in Hl as [Hx Hl].
  apply sort_insert_sorted; [intros; lia| |by apply IH].
  intros y Hy. rewrite Array_sort_perm in Hy.
  assert (x.1 <> y.1).
  { intros Heq. apply Hx. rewrite Heq. by apply list_elem_of_fmap_2. }
  destruct (Z.ltb_spec 0 (x.1 - y.1)); lia.
Qed.

Lemma Map_values_perm (m : gmap Z File) : Map_values m ≡ₚ (map_to_list m).*2.
Proof. unfold Map_values. by rewrite Array_sort_perm. Qed.

Lemma Map_values_sorted (m : gmap Z File) :
  (forall id f, m !! id = Some f -> fileId f = id) ->
  StronglySorted (fun a b => fileId a < fileId b) (Map_values m).
Proof.
  intros Hkey. unfold Map_values.
  pose proof (Array_sort_keys (map_to_list m) (NoDup_fst_map_to_list m)) as Hs.
  assert (Hin : Forall (fun p => fileId p.2 = p.1)
                  (Array_sort (fun a b => a.1 - b.1) (map_to_list m))).
  { rewrite Array_sort_perm. apply Forall_forall. intros [id f] Hp.
    apply elem_of_map_to_list in Hp. by apply Hkey. }
  induction Hs as [|p l Hs IH Hp]; cbn; [constructor|].
  apply Forall_cons in Hin as [Hp1 Hin]. constructor; [by apply IH|].
  apply Forall_fmap. rewrite Forall_forall in Hp, Hin. apply Forall_forall.
  intros q Hq. cbn. rewrite Hp1, (Hin q Hq). by apply Hp.
Qed.

Lemma getAllFiles_spec s :
  (forall id f, files s !! id = Some f -> fileId f = id) ->
  getAllFiles s ≡ₚ (map_to_list (files s)).*2
  /\ StronglySorted listed_before (getAllFiles s).
Proof.
  intros Hkey. unfold getAllFiles. split.
  - by rewrite Array_sort_perm, Map_values_perm.
  - by apply Array_sort_listed, Map_values_sorted.
Qed.

End Listing.

(** ** The history of the store *)

Section History.

Implicit Types (s : MemStorage) (id : Z) (f : File).

Lemma same_identity_refl f : same_identity f f.
Proof. by unfold same_identity. Qed.

Lemma same_identity_trans f1 f2 f3 :
  same_identity f1 f2 -> same_identity f2 f3 -> same_identity f1 f3.
Proof. unfold same_identity. intros H1 H2. destruct_and!. split_and!; congruence. Qed.

Lemma later_store_refl s : later_store s s.
Proof. split_and!; [lia|done|]. intros id f f' ? ?. simplify_eq. apply same_identity_refl. Qed.

(** An overwrite of a present record by a record for the same file. *)
Lemma history_overwrite s0 s id f f' :
  well_keyed s0 ->
  files s !! id = Some f -> same_identity f f' ->
  well_keyed s /\ later_store s0 s ->
  let s' := {| files := <[id := f']> (files s); currentId := currentId s |} in
  well_keyed s' /\ later_store s0 s'.
Proof.
  intros Hwk0 Hf Hsame [[Hcur Hwk] (Hle & Habs & Hid)]. cbn. split; [split|split_and!]; cbn.
  - done.
  - intros id' g Hg. apply lookup_insert_Some in Hg as [[<- <-]|[_ Hg]]; [|by apply Hwk].
    destruct (Hwk _ _ Hf). destruct Hsame as (Hsame & _). split; [congruence|done].
  - done.
  - intros id' Hlt Hnone. rewrite lookup_insert_ne; [by apply Habs|].
    intros <-. specialize (Habs _ Hlt Hnone). congruence.
  - intros id' g g' Hg Hg'. apply lookup_insert_Some in Hg' as [[<- <-]|[_ Hg']].
    + eapply same_identity_trans; [by eapply Hid | done].
    + by eapply Hid.
Qed.

Lemma history_invariant s0 :
  well_keyed s0 ->
  StoreInvariant (fun s => well_keyed s /\ later_store s0 s).
Proof.
  intros Hwk0. split.
  - intros now id st msg s Hs. unfold updateFileStatus.
    destruct (files s !! id) as [f|] eqn:Hf; [|done].
    cbn [snd]. by eapply history_overwrite.
  - intros id md s Hs. unfold updateFileMetadata.
    destruct (files s !! id) as [f|] eqn:Hf; [|done].
    cbn [snd]. by eapply history_overwrite.
  - intros id s [[Hcur Hwk] (Hle & Habs & Hid)]. cbn. split; [split|split_and!]; cbn.
    + done.
    + intros id' g Hg. apply lookup_delete_Some in Hg as [_ Hg]. by apply Hwk.
    + done.
    + intros id' Hlt Hnone. apply lookup_delete_None. right. by apply Habs.
    + intros id' g g' Hg Hg'. apply lookup_delete_Some in Hg' as [_ Hg']. by eapply Hid.
  - intros now ins s _ [[Hcur Hwk] (Hle & Habs & Hid)]. cbn.
    split; [split|split_and!]; cbn.
    + lia.
    + intros id' g Hg. apply lookup_insert_Some in Hg as [[<- <-]|[_ Hg]]; cbn; [lia|].
      destruct (Hwk _ _ Hg). lia.
    + lia.
    + intros id' Hlt Hnone. rewrite lookup_insert_ne by lia. by apply Habs.
    + intros id' g g' Hg Hg'. destruct Hwk0 as [_ Hwk0]. destruct (Hwk0 _ _ Hg).
      rewrite lookup_insert_ne in Hg' by lia. by eapply Hid.
Qed.

Lemma well_keyed_new : well_keyed MemStorage_new.
Proof. split; [done|]. intros id f Hf. cbn in Hf. by rewrite lookup_empty in Hf. Qed.

End History.

(** ** More about the orchestrator *)

Section MoreServerFacts.

Context {Net : Type} `{!Axios Net} (path_extname : string -> string).

Implicit Types (w : World Net) (id : Z) (f : File) (j : nat) (ev : Event).

(** *** Ids and the history of a record *)

Lemma run_events_keeps (P : MemStorage -> Prop) evs w :
  StoreInvariant P -> P (storage w) -> P (storage (run_events path_extname evs w)).
Proof.
  intros Hinv. revert w. induction evs as [|ev evs IH]; intros w Hw; [done|].
  cbn. apply IH. by apply step_keeps.
Qed.

Lemma reachable_well_keyed w : reachable path_extname w -> well_keyed (storage w).
Proof.
  intros Hreach.
  apply (reachable_invariant path_extname
           (fun s => well_keyed s /\ later_store MemStorage_new s) w); [|split|done].
  - apply history_invariant, well_keyed_new.
  - apply well_keyed_new.
  - apply later_store_refl.
Qed.

Lemma run_events_history evs w :
  well_keyed (storage w) ->
  well_keyed (storage (run_events path_extname evs w))
  /\ later_store (storage w) (storage (run_events path_extname evs w)).
Proof.
  intros Hwk.
  apply (run_events_keeps (fun s => well_keyed s /\ later_store (storage w) s)).
  - by apply history_invariant.
  - split; [done | apply later_store_refl].
Qed.

(** X2. Ids are handed out once. In every reachable state each record is
    stored under its own id, and the ids in use lie between 1 and the next
    id to hand out. Whatever happens afterwards, the next id only grows, an
    id that was handed out and whose record is gone stays without a record,
    and a record that is still there stands for the same file: its id,
    names, MIME type, size, path, detected type and upload time are those it
    was created with. *)
Theorem ids_are_never_reused w :
  reachable path_extname w ->
  well_keyed (storage w)
  /\ forall evs, later_store (storage w) (storage (run_events path_extname evs w)).
Proof.
  intros Hreach. pose proof (reachable_well_keyed w Hreach) as Hwk.
  split; [done|]. intros evs. by apply run_events_history.
Qed.

(** X3. A deleted record never comes back. Once DELETE has removed a record
    in a reachable state, after any further events the id has no record, and
    GET, PATCH and DELETE on it answer 404 "File not found". *)
Theorem deleted_record_stays_deleted w id evs :
  reachable path_extname w ->
  is_Some (file_of w id) ->
  let w' := run_events path_extname evs (step path_extname (ReqDelete id) w) in
  file_of w' id = None
  /\ fst (get_file id w') = Returned (ResMessage 404 "File not found")
  /\ (forall st msg,
        fst (patch_status id st msg w') = Returned (ResMessage 404 "File not found"))
  /\ fst (delete_file id w') = Returned (ResMessage 404 "File not found").
Proof.
  intros Hreach [f Hf]. set (wd := step path_extname (ReqDelete id) w). intros w'.
  assert (Hwd : reachable path_extname wd) by by constructor.
  pose proof (reachable_well_keyed w Hreach) as [_ Hwk].
  destruct (Hwk id f Hf) as [_ Hid].
  assert (Hgone : file_of wd id = None).
  { unfold wd, file_of. cbn. unfold delete_file, try_catch, bind, storage_deleteFile.
    cbn. destruct (bool_decide _); cbn; apply lookup_delete_eq. }
  assert (Hcur : currentId (storage wd) = currentId (storage w)).
  { unfold wd. cbn. unfold delete_file, try_catch, bind, storage_deleteFile.
    cbn. by destruct (bool_decide _). }
  destruct (run_events_history evs wd (reachable_well_keyed wd Hwd))
    as [_ (_ & Habs & _)].
  assert (Hnone : file_of w' id = None).
  { apply Habs; [lia | done]. }
  unfold file_of in Hnone. split_and!; [done|..].
  - unfold get_file, try_catch, bind, storage_getFile, getFile. cbn. by rewrite Hnone.
  - intros st msg. unfold patch_status, try_catch, bind, storage_updateFileStatus.
    cbn. by rewrite updateFileStatus_absent.
  - unfold delete_file, try_catch, bind, storage_deleteFile, deleteFile. cbn.
    rewrite Hnone. by rewrite bool_decide_eq_false_2 by (by intros [? ?]).
Qed.

(** *** One record at a time *)

(** X5. The pipeline of one file writes to that file's record only:
    [processFile] leaves every other record as it was, and so does a timer
    that fires, for every record other than the one its callback was set up
    for. *)
Theorem pipeline_writes_own_record_only :
  (forall id fType path oName w id',
     id' <> id ->
     file_of (snd (processFile id fType path oName w)) id' = file_of w id')
  /\ (forall w w',
        fire w = Some w' ->
        exists t rest,
          pop_timer (timers w) = Some (t, rest)
          /\ forall id', target w (callback t) <> Some id' ->
               file_of w' id' = file_of w id').
Proof.
  assert (Hown : forall id id' r,
            id' <> id -> writes_keep (fun s => files s !! id' = r) id).
  { intros id id' r Hne. split.
    - intros now st msg s Hs. by rewrite updateFileStatus_other.
    - intros md s Hs. by rewrite updateFileMetadata_other. }
  split.
  - intros id fType path oName w id' Hne.
    by apply (respects_processFile (fun s => files s !! id' = file_of w id')
                id fType path oName (Hown id id' _ Hne) w).
  - intros w w' Hfire. unfold fire in Hfire.
    destruct (pop_timer (timers w)) as [[t rest]|] eqn:Hpop; [|done].
    exists t, rest. split; [done|]. intros id' Hne.
    set (w1 := set_clock _ _) in Hfire.
    assert (Hcb : file_of (snd (run_callback (callback t) w1)) id' = file_of w id').
    { destruct (target w (callback t)) as [id|] eqn:Htarget.
      - apply (run_callback_keeps (fun s => files s !! id' = file_of w id')
                 (callback t) w1 id); [done| |done].
        apply Hown. congruence.
      - destruct (callback t) as [j|id]; [|done]. cbn in *. unfold checkStatus.
        change (jobs w1) with (jobs w).
        by destruct (jobs w !! j). }
    destruct (run_callback (callback t) w1) as [[[]|e] w2]; by simplify_eq.
Qed.

(** *** Rejections *)

Lemma quiet_ret {A} (a : A) : quiet (ret a : M Net A).
Proof. by intros w. Qed.

Lemma quiet_bind {A B} (c : M Net A) (k : A -> M Net B) :
  quiet c -> (forall a, quiet (k a)) -> quiet (bind c k).
Proof.
  intros Hc Hk w. unfold bind. specialize (Hc w).
  destruct (c w) as [[a|e] w1]; cbn in *; [|done].
  by rewrite Hk.
Qed.

Lemma quiet_try_catch {A} (c : M Net A) (h : Error -> M Net A) :
  quiet c -> (forall e, quiet (h e)) -> quiet (try_catch c h).
Proof.
  intros Hc Hh w. unfold try_catch. specialize (Hc w).
  destruct (c w) as [[a|e] w1]; cbn in *; [done|].
  by rewrite Hh.
Qed.

(** A computation that adds one entry to the log, not a rejection. *)
Lemma quiet_logged {A} (c : M Net A) :
  (forall w, exists entry,
     log (snd (c w)) = entry :: log w
     /\ match entry with LogUnhandled _ => False | _ => True end) ->
  quiet c.
Proof.
  intros Hc w. destruct (Hc w) as (entry & Hlog & Hentry).
  unfold unhandled. rewrite Hlog. by destruct entry.
Qed.

Lemma quiet_createBucket key : quiet (createBucket key).
Proof.
  apply quiet_logged. intros w. eexists. split; [apply createBucket_frame|done].
Qed.

Lemma quiet_uploadFile bKey oKey path : quiet (uploadFile bKey oKey path).
Proof.
  apply quiet_logged. intros w. eexists. split; [apply uploadFile_frame|done].
Qed.

Lemma quiet_translateFile urn : quiet (translateFile urn).
Proof.
  apply quiet_logged. intros w. eexists. split; [apply translateFile_frame|done].
Qed.

Lemma quiet_getTranslationStatus urn : quiet (getTranslationStatus urn).
Proof.
  apply quiet_logged. intros w. eexists.
  split; [apply getTranslationStatus_frame|done].
Qed.

Lemma quiet_updateFileStatus id st msg :
  quiet (storage_updateFileStatus (Net := Net) id st msg).
Proof. by intros w. Qed.

Lemma quiet_updateFileMetadata id md :
  quiet (storage_updateFileMetadata (Net := Net) id md).
Proof. by intros w. Qed.

Lemma quiet_setTimeout cb delay : quiet (setTimeout (Net := Net) cb delay).
Proof. by intros w. Qed.

Lemma quiet_console_error label e : quiet (console_error (Net := Net) label e).
Proof. by intros w. Qed.

Lemma quiet_get_prop st k : quiet (get_prop (Net := Net) st k).
Proof. intros w. by destruct st. Qed.

Lemma quiet_standardProcessing id : quiet (standardProcessing (Net := Net) id).
Proof. by intros w. Qed.

Lemma quiet_checkStatus j : quiet (checkStatus j).
Proof.
  intros w. unfold checkStatus. destruct (jobs w !! j) as [job|]; [|done].
  change (unhandled w) with (unhandled (count_attempt j job w)).
  match goal with
  | |- unhandled (snd (?body (count_attempt j job w))) = _ =>
      assert (Hq : quiet body); [|apply Hq]
  end.
  apply quiet_bind; [apply quiet_getTranslationStatus|]. intros st.
  apply quiet_bind; [apply quiet_get_prop|]. intros v.
  repeat case_match.
  - by intros w0.
  - by intros w0.
  - intros w0. repeat case_match; done.
Qed.

(** The two [catch] blocks of [processFile]. *)
Lemma quiet_catch id label (msg : Error -> string) e :
  quiet (let! _ := console_error (Net := Net) label e in
         let! _ := storage_updateFileStatus id FILE_STATUS_ERROR (Some (msg e)) in
         ret tt).
Proof. by intros w. Qed.

Lemma quiet_processFile id fType path oName :
  quiet (processFile id fType path oName).
Proof.
  unfold processFile.
  apply quiet_try_catch;
    [|intros e; apply (quiet_catch _ _ (fun e => "Processing failed: " +:+ message e))].
  case_decide; [|apply quiet_setTimeout].
  apply quiet_bind; [apply quiet_updateFileStatus|]. intros _.
  apply quiet_bind; [by intros w|]. intros now.
  apply quiet_try_catch;
    [|intros e; apply (quiet_catch _ _ (fun e => "APS error: " +:+ message e))].
  apply quiet_bind; [apply quiet_createBucket|]. intros _.
  apply quiet_bind; [apply quiet_uploadFile|]. intros up.
  apply quiet_bind; [apply quiet_translateFile|]. intros _.
  apply quiet_bind; [by intros w|]. intros j.
  apply quiet_setTimeout.
Qed.

(** [processFile] handles whatever is thrown inside it. *)
Lemma processFile_returns id fType path oName w :
  fst (processFile id fType path oName w) = Returned tt.
Proof.
  unfold processFile, try_catch.
  match goal with |- fst (match ?body w with _ => _ end) = _ =>
    destruct (body w) as [[[]|e] w1] end; done.
Qed.

Lemma quiet_upload_all fs : quiet (upload_all path_extname fs).
Proof.
  induction fs as [|file fs IH]; cbn [upload_all]; [apply quiet_ret|].
  apply quiet_bind.
  - unfold upload_one. apply quiet_bind; [by intros w|]. intros saved.
    apply quiet_bind; [|intros; apply quiet_ret].
    intros w. unfold unawaited.
    pose proof (processFile_returns (fileId saved)
                  (detectFileType path_extname (mf_originalname file) (mf_mimetype file))
                  (mf_path file) (mf_originalname file) w) as Hret.
    pose proof (quiet_processFile (fileId saved)
                  (detectFileType path_extname (mf_originalname file) (mf_mimetype file))
                  (mf_path file) (mf_originalname file) w) as Hq.
    destruct (processFile _ _ _ _ w) as [[[]|e] w1]; cbn in *; done.
  - intros saved. apply quiet_bind; [exact IH | intros; apply quiet_ret].
Qed.

(** X7. The only rejection that nobody handles is that of a status poll.
    [processFile] never rejects, and no request leaves a rejection
    unhandled; a timer that fires leaves one only when its callback is
    [checkStatus], and then exactly one. *)
Theorem only_a_poll_rejects_unhandled :
  (forall id fType path oName w,
     fst (processFile id fType path oName w) = Returned tt)
  /\ forall ev w,
       unhandled (step path_extname ev w) = unhandled w
       \/ (ev = TimerFires
           /\ exists t rest j e,
                pop_timer (timers w) = Some (t, rest)
                /\ callback t = CheckStatus j
                /\ fst (checkStatus j
                          (set_clock (Z.max (clock w) (due t)) (set_timers rest w)))
                   = Thrown e
                /\ unhandled (step path_extname ev w) = e :: unhandled w).
Proof.
  split; [apply processFile_returns|].
  intros ev w. destruct ev as [fs|id|id st msg|id| |ms]; cbn [step].
  - left. unfold post_upload.
    apply (quiet_try_catch _ _); [|intros; apply quiet_ret].
    destruct fs as [fs|]; [|apply quiet_ret].
    apply quiet_bind; [apply quiet_upload_all | intros; apply quiet_ret].
  - left. unfold get_file.
    apply (quiet_try_catch _ _); [|intros; apply quiet_ret].
    apply quiet_bind; [by intros w0|]. intros [f|]; apply quiet_ret.
  - left. unfold patch_status.
    apply (quiet_try_catch _ _); [|intros; apply quiet_ret].
    apply quiet_bind; [apply quiet_updateFileStatus|]. intros [f|]; apply quiet_ret.
  - left. unfold delete_file.
    apply (quiet_try_catch _ _); [|intros; apply quiet_ret].
    apply quiet_bind; [by intros w0|]. intros []; apply quiet_ret.
  - unfold fire. destruct (pop_timer (timers w)) as [[t rest]|] eqn:Hpop; [|by left].
    cbn [default]. set (w1 := set_clock _ _).
    destruct (callback t) as [j|id] eqn:Hcb; cbn [run_callback].
    + pose proof (quiet_checkStatus j w1) as Hq.
      destruct (checkStatus j w1) as [[[]|e] w2] eqn:Hrun; cbn in Hq; [by left|].
      right. split; [done|]. exists t, rest, j, e.
      split_and!; [done | done | by fold w1; rewrite Hrun |].
      unfold unhandled in *. cbn. by rewrite Hq.
    + left. done.
  - by left.
Qed.

(** *** Error messages *)

Lemma mie_status id st msg :
  (is_Some (or_null msg) <-> st = FILE_STATUS_ERROR) ->
  respects (keeps message_iff_error) (storage_updateFileStatus (Net := Net) id st msg).
Proof.
  intros Hst w Hw id' f' Hf'. cbn in Hf'.
  destruct (files (storage w) !! id) as [f|] eqn:Hf;
    [|rewrite updateFileStatus_absent in Hf' by done; by eapply Hw].
  destruct (decide (id = id')) as [<-|Hne];
    [|rewrite updateFileStatus_other in Hf' by done; by eapply Hw].
  destruct (updateFileStatus_lookup _ (clock w) id st msg f Hf)
    as (f1 & Heq & Hst1 & Hmsg & _).
  rewrite Heq in Hf'. cbn in Hf'. rewrite lookup_insert_eq in Hf'.
  injection Hf' as <-. by rewrite Hst1, Hmsg.
Qed.

Lemma mie_metadata id md :
  respects (keeps message_iff_error) (storage_updateFileMetadata (Net := Net) id md).
Proof.
  intros w Hw id' f' Hf'. cbn in Hf'.
  destruct (files (storage w) !! id) as [f|] eqn:Hf;
    [|rewrite updateFileMetadata_absent in Hf' by done; by eapply Hw].
  destruct (decide (id = id')) as [<-|Hne];
    [|rewrite updateFileMetadata_other in Hf' by done; by eapply Hw].
  destruct (updateFileMetadata_lookup _ id md f Hf) as (f1 & Heq & Hst1 & Hmsg & _).
  rewrite Heq in Hf'. cbn in Hf'. rewrite lookup_insert_eq in Hf'.
  injection Hf' as <-. rewrite Hst1, Hmsg. by eapply Hw.
Qed.

(** The status writes of the pipeline: no message with PROCESSING and READY,
    a message that is not empty with ERROR. *)
Lemma mie_quiet_status id st :
  st = FILE_STATUS_PROCESSING \/ st = FILE_STATUS_READY ->
  respects (keeps message_iff_error) (storage_updateFileStatus (Net := Net) id st None).
Proof.
  intros Hst. apply mie_status. cbn. split; [by intros [? ?]|].
  by destruct Hst as [-> | ->].
Qed.

Lemma mie_error_status id (prefix : ascii) rest :
  respects (keeps message_iff_error)
    (storage_updateFileStatus (Net := Net) id FILE_STATUS_ERROR
       (Some (String prefix rest))).
Proof. apply mie_status. cbn. by split. Qed.

Lemma mie_checkStatus j : respects (keeps message_iff_error) (checkStatus j).
Proof.
  intros w. unfold checkStatus. destruct (jobs w !! j) as [job|]; [|apply keeps_refl].
  eapply keeps_trans; [by apply (keeps_same _ w (count_attempt j job w))|].
  apply respects_bind; [apply respects_getTranslationStatus|]. intros st.
  apply respects_bind; [apply respects_get_prop|]. intros v.
  repeat case_match.
  - apply respects_bind; [apply mie_quiet_status; by right|]. intros _.
    apply respects_bind; [apply mie_metadata | intros; apply respects_ret].
  - apply respects_bind; [apply mie_error_status | intros; apply respects_ret].
  - intros w'. repeat case_match; try apply keeps_refl.
    + by apply respects_setTimeout.
    + apply (respects_bind _ (storage_updateFileStatus _ _ _));
        [apply mie_error_status | intros; apply respects_ret].
Qed.

Lemma mie_processFile id fType path oName :
  respects (keeps message_iff_error) (processFile id fType path oName).
Proof.
  assert (Hcatch : forall label (prefix : ascii) rest e,
    respects (keeps message_iff_error)
      (let! _ := console_error (Net := Net) label e in
       let! _ := storage_updateFileStatus id FILE_STATUS_ERROR
                   (Some (String prefix (rest e))) in
       ret tt)).
  { intros label prefix rest e. apply respects_bind; [apply respects_console_error|].
    intros _. apply respects_bind; [apply mie_error_status | intros; apply respects_ret]. }
  unfold processFile.
  apply respects_try_catch;
    [|intros e; apply (Hcatch _ "P"%char (fun e => "rocessing failed: " +:+ message e))].
  case_decide; [|apply respects_setTimeout].
  apply respects_bind; [apply mie_quiet_status; by left|]. intros _.
  apply respects_bind; [apply respects_Date_now|]. intros now.
  apply respects_try_catch;
    [|intros e; apply (Hcatch _ "A"%char (fun e => "PS error: " +:+ message e))].
  apply respects_bind; [apply respects_createBucket|]. intros _.
  apply respects_bind; [apply respects_uploadFile|]. intros up.
  apply respects_bind; [apply respects_translateFile|]. intros _.
  apply respects_bind; [apply respects_new_job|]. intros j.
  apply respects_setTimeout.
Qed.

Lemma mie_upload_all fs :
  respects (keeps message_iff_error) (upload_all path_extname fs).
Proof.
  induction fs as [|file fs IH]; cbn [upload_all]; [apply respects_ret|].
  apply respects_bind.
  - unfold upload_one. apply respects_bind.
    + intros w Hw id f Hf. cbn in Hf.
      apply lookup_insert_Some in Hf as [[_ <-]|[_ Hf]]; [|by eapply Hw].
      cbn. split; [by intros [? ?] | done].
    + intros saved. apply respects_bind; [|intros; apply respects_ret].
      apply respects_unawaited, mie_processFile.
  - intros saved. apply respects_bind; [exact IH | intros; apply respects_ret].
Qed.

Lemma mie_step ev w :
  client_event ev ->
  message_iff_error (storage w) ->
  message_iff_error (storage (step path_extname ev w)).
Proof.
  intros Hev. change (keeps message_iff_error w (step path_extname ev w)).
  destruct ev as [fs|id|id st msg|id| |ms]; cbn [step].
  - unfold post_upload. apply respects_try_catch; [|intros; apply respects_ret].
    destruct fs as [fs|]; [|apply respects_ret].
    apply respects_bind; [apply mie_upload_all | intros; apply respects_ret].
  - unfold get_file. apply respects_try_catch; [|intros; apply respects_ret].
    apply respects_bind; [apply respects_storage_getFile|].
    intros [f|]; apply respects_ret.
  - destruct Hev as [-> ->].
    unfold patch_status. apply respects_try_catch; [|intros; apply respects_ret].
    apply respects_bind; [apply mie_quiet_status; by left|].
    intros [f|]; apply respects_ret.
  - unfold delete_file. apply respects_try_catch; [|intros; apply respects_ret].
    apply respects_bind; [|intros []; apply respects_ret].
    intros w0 Hw0 id' f' Hf'. cbn in Hf'.
    apply lookup_delete_Some in Hf' as [_ Hf']. by eapply Hw0.
  - unfold fire. destruct (pop_timer (timers w)) as [[t rest]|]; [|apply keeps_refl].
    cbn [default]. set (w1 := set_clock _ _).
    assert (Hcb : keeps message_iff_error w1 (snd (run_callback (callback t) w1))).
    { destruct (callback t) as [j|id]; cbn [run_callback].
      - apply mie_checkStatus.
      - unfold standardProcessing.
        apply respects_bind; [apply mie_quiet_status; by right|]. intros _.
        apply respects_bind; [apply mie_metadata | intros; apply respects_ret]. }
    eapply keeps_trans; [by apply (keeps_same _ w w1)|].
    by destruct (run_callback (callback t) w1) as [[[]|e] w2].
  - by apply keeps_same.
Qed.

(** X6. Error messages go with the status ERROR. As long as the only status
    request is the client's retry ([{status: 'processing'}], no message),
    every record has an error message exactly when its status is ERROR: the
    pipeline writes a message that is not empty with every ERROR, and every
    other status write clears the message. *)
Theorem error_message_iff_error evs w :
  Forall client_event evs ->
  message_iff_error (storage w) ->
  message_iff_error (storage (run_events path_extname evs w)).
Proof.
  revert w. induction evs as [|ev evs IH]; intros w Hevs Hw; [done|].
  apply Forall_cons in Hevs as [Hev Hevs]. cbn. apply IH; [done|].
  by apply mie_step.
Qed.

(** *** The answer to an upload *)

Lemma processFile_currentId id fType path oName w :
  currentId (storage (snd (processFile id fType path oName w)))
  = currentId (storage w).
Proof.
  apply (respects_processFile (fun s => currentId s = currentId (storage w))
           id fType path oName); [|done].
  split.
  - intros now st msg s Hs. unfold updateFileStatus. by destruct (files s !! id).
  - intros md s Hs. unfold updateFileMetadata. by destruct (files s !! id).
Qed.

Lemma processFile_clock id fType path oName w :
  clock (snd (processFile id fType path oName w)) = clock w.
Proof.
  destruct (decide (fType = FILE_TYPES_AUTOCAD)) as [->|Hne].
  - apply processFile_autocad_cases.
  - by rewrite processFile_standard.
Qed.

Lemma processFile_other id fType path oName w id' :
  id' <> id ->
  file_of (snd (processFile id fType path oName w)) id' = file_of w id'.
Proof.
  intros Hne.
  apply (respects_processFile (fun s => files s !! id' = file_of w id')
           id fType path oName); [|done].
  split.
  - intros now st msg s Hs. by rewrite updateFileStatus_other.
  - intros md s Hs. by rewrite updateFileMetadata_other.
Qed.

(** The record that the upload handler creates for a file, under [id] at
    time [now]. *)
Lemma upload_one_eq file w :
  let saved :=
    {| fileId := currentId (storage w);
       filename := mf_filename file;
       originalName := mf_originalname file;
       mimeType := mf_mimetype file;
       fileSize := mf_size file;
       filePath := mf_path file;
       fileType := detectFileType path_extname (mf_originalname file) (mf_mimetype file);
       status := FILE_STATUS_UPLOADING;
       errorMessage := None;
       uploadedAt := clock w;
       processedAt := None;
       metadata := None |} in
  let w0 := add_log (LogStore (<[fileId saved := saved]> (files (storage w))))
              (set_storage {| files := <[fileId saved := saved]> (files (storage w));
                              currentId := currentId (storage w) + 1 |} w) in
  upload_one path_extname file w
  = (Returned saved,
     snd (processFile (fileId saved) (fileType saved) (mf_path file)
            (mf_originalname file) w0)).
Proof.
  intros saved w0. unfold upload_one, bind, unawaited.
  change (storage_createFile _ w) with (Returned (A := File) saved, w0).
  cbv iota beta.
  pose proof (processFile_returns (fileId saved) (fileType saved) (mf_path file)
                (mf_originalname file) w0) as Hret.
  change (detectFileType path_extname (mf_originalname file) (mf_mimetype file))
    with (fileType saved).
  by destruct (processFile _ _ _ _ w0) as [[[]|e] w1].
Qed.

Lemma upload_all_frame fs w :
  exists saved,
    upload_all path_extname fs w = (Returned saved, snd (upload_all path_extname fs w))
    /\ length saved = length fs
    /\ currentId (storage (snd (upload_all path_extname fs w)))
       = currentId (storage w) + Z.of_nat (length fs)
    /\ clock (snd (upload_all path_extname fs w)) = clock w
    /\ (forall id, id < currentId (storage w) ->
          file_of (snd (upload_all path_extname fs w)) id = file_of w id)
    /\ forall k mf,
         fs !! k = Some mf ->
         exists f stored,
           saved !! k = Some f
           /\ f = {| fileId := currentId (storage w) + Z.of_nat k;
                     filename := mf_filename mf;
                     originalName := mf_originalname mf;
                     mimeType := mf_mimetype mf;
                     fileSize := mf_size mf;
                     filePath := mf_path mf;
                     fileType := detectFileType path_extname (mf_originalname mf)
                                   (mf_mimetype mf);
                     status := FILE_STATUS_UPLOADING;
                     errorMessage := None;
                     uploadedAt := clock w;
                     processedAt := None;
                     metadata := None |}
           /\ file_of (snd (upload_all path_extname fs w)) (fileId f) = Some stored
           /\ (fileType f = FILE_TYPES_AUTOCAD ->
                 status stored = FILE_STATUS_PROCESSING
                 \/ status stored = FILE_STATUS_ERROR)
           /\ (fileType f <> FILE_TYPES_AUTOCAD -> stored = f).
Proof.
  revert w. induction fs as [|file fs IH]; intros w.
  - exists []. cbn. split_and!; try done. lia.
  - pose proof (upload_one_eq file w) as Hone. cbv zeta in Hone.
    set (saved := {| fileId := currentId (storage w) |}) in Hone.
    set (w0 := add_log _ _) in Hone.
    set (w1 := snd (processFile _ _ _ _ w0)) in Hone.
    destruct (IH w1) as (more & Heq & Hlen & Hcur & Hclock & Hold & Hnew).
    assert (Hstep : upload_all path_extname (file :: fs) w
                    = (Returned (saved :: more), snd (upload_all path_extname fs w1))).
    { cbn [upload_all]. unfold bind at 1. rewrite Hone.
      unfold bind at 1. by rewrite Heq. }
    rewrite Hstep. cbn [snd].
    assert (Hcur1 : currentId (storage w1) = currentId (storage w) + 1).
    { unfold w1. by rewrite processFile_currentId. }
    assert (Hclock1 : clock w1 = clock w).
    { unfold w1. by rewrite processFile_clock. }
    exists (saved :: more). split_and!.
    + done.
    + cbn. by rewrite Hlen.
    + rewrite Hcur, Hcur1. cbn [length]. lia.
    + by rewrite Hclock, Hclock1.
    + intros id Hid. rewrite Hold by lia. unfold w1.
      rewrite processFile_other by (cbn; lia).
      unfold file_of, w0. cbn. by rewrite lookup_insert_ne by lia.
    + intros [|k] mf Hk.
      * cbn in Hk. injection Hk as <-.
        assert (Hcreated : file_of w0 (fileId saved) = Some saved).
        { unfold file_of, w0. cbn. by rewrite lookup_insert_eq. }
        assert (Hkept : file_of (snd (upload_all path_extname fs w1)) (fileId saved)
                        = file_of w1 (fileId saved)).
        { apply Hold. rewrite Hcur1. cbn. lia. }
        destruct (decide (fileType saved = FILE_TYPES_AUTOCAD)) as [Hcad|Hstd].
        -- pose proof (processFile_autocad_cases (fileId saved) (mf_path file)
                         (mf_originalname file) w0) as Hcases.
           cbv zeta in Hcases.
           assert (Hw1 : snd (processFile (fileId saved) FILE_TYPES_AUTOCAD
                                (mf_path file) (mf_originalname file) w0) = w1).
           { unfold w1. by rewrite Hcad. }
           rewrite Hw1 in Hcases.
           destruct Hcases as (_ & _ & [(_ & _ & Herr)|(job & _ & _ & _ & _ & _ & Hproc & _)]).
           ++ destruct (Herr saved Hcreated) as (f' & e & Hf' & Hst & _).
              exists saved, f'. rewrite Z.add_0_r.
              split_and!; [done|done| |by right|done].
              rewrite Hkept. exact Hf'.
           ++ destruct (Hproc saved Hcreated) as (f' & Hf' & Hst).
              exists saved, f'. rewrite Z.add_0_r.
              split_and!; [done|done| |by left|done].
              rewrite Hkept. exact Hf'.
        -- exists saved, saved. rewrite Z.add_0_r.
           split_and!; [done|done| |done|done].
           rewrite Hkept. unfold w1. rewrite processFile_standard by done.
           exact Hcreated.
      * cbn in Hk.
        destruct (Hnew k mf Hk) as (f & stored & Hf & Hrec & Hstored & Hcad & Hstd).
        exists f, stored. rewrite Hcur1, Hclock1 in Hrec.
        replace (currentId (storage w) + Z.of_nat (S k))
          with (currentId (storage w) + 1 + Z.of_nat k) by lia.
        split_and!; [done | done | done | exact Hcad | exact Hstd].
Qed.

(** X4. What an upload answers. The handler answers 400 when the request
    has no files; otherwise it answers 200 with one record per file, in the
    order of the request: the ids are the next ids of the store, counted up
    one by one, the upload time is the time of the request, the status is
    UPLOADING, and message, metadata and [processedAt] are null. The answer
    shows each record as it was created: by the time it is sent, the stored
    record of a drawing is already PROCESSING or ERROR, and only the record
    of another file is still as answered. *)
Theorem upload_answers_the_new_records :
  (forall w,
     post_upload path_extname None w
     = (Returned (ResMessage 400 "No files uploaded"), w))
  /\ forall fs w,
       let w' := snd (post_upload path_extname (Some fs) w) in
       exists saved,
         fst (post_upload path_extname (Some fs) w)
         = Returned (ResUploaded "Files uploaded successfully" saved)
         /\ length saved = length fs
         /\ currentId (storage w') = currentId (storage w) + Z.of_nat (length fs)
         /\ forall k mf,
              fs !! k = Some mf ->
              exists f stored,
                saved !! k = Some f
                /\ f = {| fileId := currentId (storage w) + Z.of_nat k;
                          filename := mf_filename mf;
                          originalName := mf_originalname mf;
                          mimeType := mf_mimetype mf;
                          fileSize := mf_size mf;
                          filePath := mf_path mf;
                          fileType := detectFileType path_extname
                                        (mf_originalname mf) (mf_mimetype mf);
                          status := FILE_STATUS_UPLOADING;
                          errorMessage := None;
                          uploadedAt := clock w;
                          processedAt := None;
                          metadata := None |}
                /\ file_of w' (fileId f) = Some stored
                /\ (fileType f = FILE_TYPES_AUTOCAD ->
                      status stored = FILE_STATUS_PROCESSING
                      \/ status stored = FILE_STATUS_ERROR)
                /\ (fileType f <> FILE_TYPES_AUTOCAD -> stored = f).
Proof.
  split; [done|]. intros fs w.
  destruct (upload_all_frame fs w) as (saved & Heq & Hlen & Hcur & _ & _ & Hnew).
  unfold post_upload, try_catch, bind. rewrite Heq. cbn [fst snd ret].
  exists saved. split_and!; done.
Qed.

(** *** The token cache *)

Lemma authenticate_hit w tok expiry :
  accessToken (apsService w) = Some tok -> tok <> "" ->
  tokenExpiry (apsService w) = Some expiry -> clock w < expiry ->
  authenticate w
  = (Returned {| access_token := tok;
                 expires_in := (expiry - clock w) / 1000;
                 token_type := "Bearer" |}, w).
Proof.
  intros Htok Hne Hexp Hlt. unfold authenticate. rewrite Htok, Hexp.
  destruct tok; [done|]. cbn. by rewrite bool_decide_eq_true_2.
Qed.

Lemma request_token_caches w a w1 :
  request_token w = (Returned a, w1) ->
  accessToken (apsService w1) = Some (access_token a)
  /\ tokenExpiry (apsService w1) = new_Date (clock w + expires_in a * 1000)
  /\ clock w1 = clock w.
Proof.
  unfold request_token, bind, axios. cbn.
  destruct (post_token _ (net w)) as [[auth|e] n]; cbn; intros Heq; by simplify_eq.
Qed.

Lemma new_Date_valid t : - max_time <= t <= max_time -> new_Date t = Some t.
Proof. intros Ht. unfold new_Date. by rewrite bool_decide_eq_true_2. Qed.

Lemma new_Date_invalid t : max_time < t -> new_Date t = None.
Proof.
  intros Ht. unfold new_Date. rewrite bool_decide_eq_false_2; [done|lia].
Qed.

(** X8. A token is asked for once per lifetime. After [authenticate] has
    returned a token (from the network or from its cache) whose expiry is a
    valid date, every call made before the lifetime it reported is over
    returns the same token from the cache: no request is sent and nothing
    changes, and the lifetime reported is no longer than before. When the
    expiry of a token just received lies beyond the range of dates, the
    token is not reused: every later call asks for a token again. *)
Theorem authenticate_reuses_token :
  (forall w a w1 w2,
     authenticate w = (Returned a, w1) ->
     access_token a <> "" ->
     apsService w2 = apsService w1 ->
     - max_time <= clock w1 ->
     clock w1 + expires_in a * 1000 <= max_time ->
     clock w1 <= clock w2 < clock w1 + expires_in a * 1000 ->
     exists a2,
       authenticate w2 = (Returned a2, w2)
       /\ access_token a2 = access_token a
       /\ expires_in a2 <= expires_in a)
  /\ (forall w a w1 w2,
        request_token w = (Returned a, w1) ->
        max_time < clock w + expires_in a * 1000 ->
        apsService w2 = apsService w1 ->
        authenticate w2 = request_token w2).
Proof.
  split.
  - intros w a w1 w2 Hauth Hne Hsvc Hmin Hmax Hclock.
    assert (Hcached : exists expiry,
              accessToken (apsService w1) = Some (access_token a)
              /\ tokenExpiry (apsService w1) = Some expiry
              /\ clock w1 + expires_in a * 1000 <= expiry
              /\ (expiry - clock w1) / 1000 <= expires_in a).
    { assert (Hmiss : request_token w = (Returned a, w1) ->
                exists expiry,
                  accessToken (apsService w1) = Some (access_token a)
                  /\ tokenExpiry (apsService w1) = Some expiry
                  /\ clock w1 + expires_in a * 1000 <= expiry
                  /\ (expiry - clock w1) / 1000 <= expires_in a).
      { intros Hreq. destruct (request_token_caches _ _ _ Hreq) as (Htok & Hexp & Hc).
        rewrite <- Hc, new_Date_valid in Hexp by lia.
        eexists. split_and!; [done | done | lia |].
        replace (clock w1 + expires_in a * 1000 - clock w1)
          with (expires_in a * 1000) by lia.
        rewrite Z.div_mul by done. lia. }
      unfold authenticate in Hauth.
      destruct (accessToken (apsService w)) as [tok|] eqn:Htok; [|by apply Hmiss].
      destruct (tokenExpiry (apsService w)) as [expiry|] eqn:Hexp; [|by apply Hmiss].
      destruct (truthy (Some tok) && bool_decide (clock w < expiry)) eqn:Hhit;
        [|by apply Hmiss].
      injection Hauth as <- <-. cbn. exists expiry. split_and!; [done | done | | done].
      pose proof (Z.mul_div_le (expiry - clock w) 1000 ltac:(done)). lia. }
    destruct Hcached as (expiry & Htok & Hexp & Hle & Hlife).
    rewrite <- Hsvc in Htok, Hexp.
    rewrite (authenticate_hit w2 _ expiry Htok Hne Hexp) by lia.
    eexists. split_and!; [done | done |]. cbn.
    etrans; [|exact Hlife]. apply Z.div_le_mono; lia.
  - intros w a w1 w2 Hreq Hbig Hsvc.
    destruct (request_token_caches _ _ _ Hreq) as (Htok & Hexp & _).
    rewrite new_Date_invalid in Hexp by done.
    unfold authenticate. by rewrite Hsvc, Htok, Hexp.
Qed.

(** X9. The token route. While a token is cached and not expired, GET
    /api/aps/token answers it without sending any request, and the lifetime
    it reports is 3600 seconds whatever is left of the token's own. In every
    state the route answers: a token with lifetime 3600, or 500 "Failed to
    get APS token" with the message of the error. *)
Theorem token_route_reports_fixed_lifetime :
  (forall w tok expiry,
     accessToken (apsService w) = Some tok -> tok <> "" ->
     tokenExpiry (apsService w) = Some expiry -> clock w < expiry ->
     get_aps_token w
     = (Returned (ReplyToken tok 3600),
        add_log (LogAps (clock w) "getViewerToken" "") w))
  /\ forall w,
       (exists tok, fst (get_aps_token w) = Returned (ReplyToken tok 3600))
       \/ (exists e,
             fst (get_aps_token w)
             = Returned (ReplyError 500 "Failed to get APS token" (Some (message e)))
             /\ LogConsole "APS token error:" e ∈ log (snd (get_aps_token w))).
Proof.
  split.
  - intros w tok expiry Htok Hne Hexp Hlt.
    unfold get_aps_token, try_catch, getViewerToken, bind, log_aps. cbn.
    by rewrite (authenticate_hit _ tok expiry).
  - intros w. unfold get_aps_token, try_catch, getViewerToken, bind, log_aps. cbn.
    destruct (authenticate _) as [[a|e] w1]; cbn.
    + left. by eexists.
    + right. exists e. split; [done|]. by left.
Qed.

(** *** The list of records *)

(** X1. GET /api/files in a reachable state answers 200 with every stored
    record exactly once, the newest upload first and, among records uploaded
    in the same millisecond, the smaller id first; the store is unchanged. *)
Theorem files_are_listed_newest_first w :
  reachable path_extname w ->
  exists fs,
    get_files w = (Returned (ReplyFiles fs), w)
    /\ fs ≡ₚ (map_to_list (files (storage w))).*2
    /\ (forall f, f ∈ fs <-> exists id, file_of w id = Some f)
    /\ StronglySorted listed_before fs.
Proof.
  intros Hreach. destruct (reachable_well_keyed w Hreach) as [_ Hwk].
  destruct (getAllFiles_spec (storage w)) as [Hperm Hsorted].
  { intros id f Hf. by apply Hwk. }
  exists (getAllFiles (storage w)). split_and!; [done | done | | done].
  intros f. rewrite Hperm, list_elem_of_fmap. split.
  - intros ([id f'] & -> & Hin). exists id. by apply elem_of_map_to_list in Hin.
  - intros (id & Hf). exists (id, f). split; [done|]. by apply elem_of_map_to_list.
Qed.

(** *** The calls on the remote service during an upload *)

(** The state in which the [catch (apsError)] block leaves a present record. *)
Lemma aps_failure_spec id e w f :
  file_of w id = Some f ->
  let w' := aps_failure id e w in
  timers w' = timers w /\ jobs w' = jobs w
  /\ aps_calls w' = aps_calls w
  /\ LogConsole "APS processing error:" e ∈ log w'
  /\ exists f',
       file_of w' id = Some f' /\ status f' = FILE_STATUS_ERROR
       /\ errorMessage f' = Some ("APS error: " +:+ message e)
       /\ processedAt f' = Some (clock w).
Proof.
  intros Hf. cbv zeta. unfold aps_failure. split_and!; [done | done | done | |].
  - cbn. right. by left.
  - unfold file_of in *. cbn.
    destruct (updateFileStatus_lookup (storage w) (clock w) id FILE_STATUS_ERROR
                (Some ("APS error: " +:+ message e)) f Hf)
      as (f' & Heq & Hst & Hmsg & _ & Hat).
    rewrite Heq. cbn. exists f'. rewrite lookup_insert_eq. by split_and!.
Qed.

(** A method of [apsService] seen from [processFile]: one more call in the
    log, the rest as before. *)
Lemma aps_call_spec {A} (c : M Net A) name arg w :
  (let w' := snd (c w) in
   same_app w w' /\ log w' = LogAps (clock w) name arg :: log w) ->
  let w' := snd (c w) in
  storage w' = storage w /\ jobs w' = jobs w /\ timers w' = timers w
  /\ clock w' = clock w
  /\ aps_calls w' = LogAps (clock w) name arg :: aps_calls w.
Proof.
  cbv zeta. intros [(Hs & Hj & Ht & Hc) Hlog]. split_and!; [done..|].
  unfold aps_calls. by rewrite Hlog.
Qed.

(** X12. What becomes of a drawing when [processFile] runs on its record.
    The remote service is called in the order createBucket, uploadFile,
    translateFile, and a call is made only if the one before returned. If
    all three return, the record is PROCESSING without a message and the
    first poll is set 10000 ms ahead. If one throws, no further call is
    made, no timer is set, the error is written to the console, and the
    record is ERROR with the message "APS error: " followed by the error's
    message and with [processedAt] at the time of the call. *)
Theorem drawing_is_polled_or_marked_failed id path oName w f :
  file_of w id = Some f ->
  let bKey := "autocad-viewer-" +:+ pretty (clock w) in
  let oKey := pretty id +:+ "-" +:+ oName in
  let created := LogAps (clock w) "createBucket" bKey in
  let uploaded := LogAps (clock w) "uploadFile" oKey in
  let w' := snd (processFile id FILE_TYPES_AUTOCAD path oName w) in
  (exists urn f',
     aps_calls w'
     = LogAps (clock w) "translateFile" urn :: uploaded :: created :: aps_calls w
     /\ timers w'
        = (timers w ++ [mkTimer (clock w + 10000) (CheckStatus (length (jobs w)))])%list
     /\ file_of w' id = Some f'
     /\ status f' = FILE_STATUS_PROCESSING /\ errorMessage f' = None)
  \/ (exists e calls f',
        (calls = [created] \/ calls = [uploaded; created]
         \/ exists urn,
              calls = [LogAps (clock w) "translateFile" urn; uploaded; created])
        /\ aps_calls w' = (calls ++ aps_calls w)%list
        /\ timers w' = timers w /\ jobs w' = jobs w
        /\ LogConsole "APS processing error:" e ∈ log w'
        /\ file_of w' id = Some f'
        /\ status f' = FILE_STATUS_ERROR
        /\ errorMessage f' = Some ("APS error: " +:+ message e)
        /\ processedAt f' = Some (clock w)).
Proof.
  intros Hf bKey oKey created uploaded. cbv zeta.
  rewrite processFile_autocad. cbv zeta. fold bKey oKey.
  set (w0 := snd (storage_updateFileStatus id FILE_STATUS_PROCESSING None w)).
  destruct (updateFileStatus_lookup (storage w) (clock w) id FILE_STATUS_PROCESSING
              None f Hf) as (f0 & Heq0 & Hst0 & Hmsg0 & _).
  assert (Hf0 : file_of w0 id = Some f0).
  { unfold file_of, w0. cbn. rewrite Heq0. cbn. by rewrite lookup_insert_eq. }
  assert (Hw0 : timers w0 = timers w /\ jobs w0 = jobs w /\ clock w0 = clock w
                /\ aps_calls w0 = aps_calls w) by done.
  destruct Hw0 as (Ht0 & Hj0 & Hc0 & Ha0).
  destruct (aps_call_spec _ _ _ w0 (createBucket_frame bKey w0))
    as (Hs1 & Hj1 & Ht1 & Hc1 & Ha1).
  destruct (createBucket bKey w0) as [[b|e] w1]; cbn [snd] in *.
  2: { right.
       destruct (aps_failure_spec id e w1 f0)
         as (Ht & Hj & Ha & Hlog & f' & Hf' & Hst & Hmsg & Hat).
       { unfold file_of. by rewrite Hs1. }
       exists e, [created], f'.
       split_and!; [by left | | congruence | congruence | done | done | done | done
                   | congruence].
       rewrite Ha, Ha1, Ha0, Hc0. done. }
  destruct (aps_call_spec _ _ _ w1 (uploadFile_frame bKey oKey path w1))
    as (Hs2 & Hj2 & Ht2 & Hc2 & Ha2).
  destruct (uploadFile bKey oKey path w1) as [[up|e] w2]; cbn [snd] in *.
  2: { right.
       destruct (aps_failure_spec id e w2 f0)
         as (Ht & Hj & Ha & Hlog & f' & Hf' & Hst & Hmsg & Hat).
       { unfold file_of. by rewrite Hs2, Hs1. }
       exists e, [uploaded; created], f'.
       split_and!; [right; by left | | congruence | congruence | done | done | done | done
                   | congruence].
       rewrite Ha, Ha2, Ha1, Ha0, Hc1, Hc0. done. }
  set (urn := encodeBase64Url (objectId up)).
  destruct (aps_call_spec _ _ _ w2 (translateFile_frame urn w2))
    as (Hs3 & Hj3 & Ht3 & Hc3 & Ha3).
  destruct (translateFile urn w2) as [[r|e] w3]; cbn [snd] in *.
  2: { right.
       destruct (aps_failure_spec id e w3 f0)
         as (Ht & Hj & Ha & Hlog & f' & Hf' & Hst & Hmsg & Hat).
       { unfold file_of. by rewrite Hs3, Hs2, Hs1. }
       exists e, [LogAps (clock w) "translateFile" urn; uploaded; created], f'.
       split_and!; [right; right; by exists urn | | congruence | congruence | done | done | done | done
                   | congruence].
       rewrite Ha, Ha3, Ha2, Ha1, Ha0, Hc2, Hc1, Hc0. done. }
  left. exists urn, f0. unfold polling_started. split_and!.
  - change (aps_calls (snd (setTimeout _ _ _))) with (aps_calls w3).
    rewrite Ha3, Ha2, Ha1, Ha0, Hc2, Hc1, Hc0. done.
  - cbn. rewrite Ht3, Ht2, Ht1, Ht0, Hj3, Hj2, Hj1, Hj0, Hc3, Hc2, Hc1, Hc0. done.
  - unfold file_of in *. cbn. by rewrite Hs3, Hs2, Hs1.
  - done.
  - by rewrite Hmsg0.
Qed.

(** The calls that [processFile] makes for a drawing begin with createBucket. *)
Lemma processFile_autocad_calls id path oName w :
  exists later,
    aps_calls (snd (processFile id FILE_TYPES_AUTOCAD path oName w))
    = (later ++ LogAps (clock w) "createBucket"
                  ("autocad-viewer-" +:+ pretty (clock w)) :: aps_calls w)%list.
Proof.
  rewrite processFile_autocad. cbv zeta.
  set (bKey := "autocad-viewer-" +:+ pretty (clock w)).
  set (oKey := pretty id +:+ "-" +:+ oName).
  set (w0 := snd (storage_updateFileStatus id FILE_STATUS_PROCESSING None w)).
  assert (Ha0 : aps_calls w0 = aps_calls w) by done.
  assert (Hc0 : clock w0 = clock w) by done.
  assert (Hfail : forall e (wk : World Net),
            aps_calls (aps_failure id e wk) = aps_calls wk) by done.
  destruct (aps_call_spec _ _ _ w0 (createBucket_frame bKey w0))
    as (_ & _ & _ & Hc1 & Ha1).
  destruct (createBucket bKey w0) as [[b|e] w1]; cbn [snd] in *.
  2: { exists []. by rewrite Hfail, Ha1, Ha0, Hc0. }
  destruct (aps_call_spec _ _ _ w1 (uploadFile_frame bKey oKey path w1))
    as (_ & _ & _ & Hc2 & Ha2).
  destruct (uploadFile bKey oKey path w1) as [[up|e] w2]; cbn [snd] in *.
  2: { eexists [_]. by rewrite Hfail, Ha2, Ha1, Ha0, Hc0. }
  destruct (aps_call_spec _ _ _ w2
              (translateFile_frame (encodeBase64Url (objectId up)) w2))
    as (_ & _ & _ & Hc3 & Ha3).
  destruct (translateFile _ w2) as [[r|e] w3]; cbn [snd] in *.
  2: { eexists [_; _]. by rewrite Hfail, Ha3, Ha2, Ha1, Ha0, Hc0. }
  eexists [_; _]. unfold polling_started.
  change (aps_calls (snd (setTimeout _ _ _))) with (aps_calls w3).
  by rewrite Ha3, Ha2, Ha1, Ha0, Hc0.
Qed.

Lemma detectFileType_autocad name mime :
  detectFileType path_extname name mime = FILE_TYPES_AUTOCAD
  <-> toLowerCase (path_extname name) ∈ [".dwg"; ".dxf"; ".dwt"].
Proof.
  unfold detectFileType. case_bool_decide as Hext; [done|].
  split; [|done]. by repeat case_match.
Qed.

(** X11. Which uploads reach the remote service. The upload of a file calls
    the remote service, first of all createBucket, exactly when the
    extension of its original name, in lower case, is .dwg, .dxf or .dwt;
    the MIME type plays no part in it. For any other file the upload calls
    nothing and sets the one timer of the standard path, 1000 ms ahead. *)
Theorem remote_is_called_for_drawings_only file w :
  let ext := toLowerCase (path_extname (mf_originalname file)) in
  let w' := snd (upload_one path_extname file w) in
  (ext ∈ [".dwg"; ".dxf"; ".dwt"] ->
     exists later,
       aps_calls w'
       = (later ++ LogAps (clock w) "createBucket"
                     ("autocad-viewer-" +:+ pretty (clock w)) :: aps_calls w)%list)
  /\ (ext ∉ [".dwg"; ".dxf"; ".dwt"] ->
       aps_calls w' = aps_calls w
       /\ timers w'
          = (timers w
             ++ [mkTimer (clock w + 1000) (StandardProcessing (currentId (storage w)))])%list).
Proof.
  cbv zeta. rewrite upload_one_eq. cbv zeta. cbn [snd fileId fileType].
  set (saved := {| fileId := currentId (storage w) |}).
  set (w0 := add_log _ _).
  split; intros Hext.
  - rewrite (proj2 (detectFileType_autocad (mf_originalname file) (mf_mimetype file)) Hext).
    apply (processFile_autocad_calls (currentId (storage w)) (mf_path file)
             (mf_originalname file) w0).
  - rewrite processFile_standard; [done|].
    intros Hcad. by apply Hext, (detectFileType_autocad (mf_originalname file) (mf_mimetype file)).
Qed.

(** *** Deleting a file whose translation is being polled *)

(** X13. DELETE does not stop the polling. The handler leaves the timers and
    the closures of [checkStatus] as they are. A later run of the closure
    set up for the deleted file still asks the remote service for the
    status and counts the attempt; it writes nothing to the store, and it
    leaves the timers as they are or, with attempts left, sets the next
    poll 10000 ms ahead. *)
Theorem delete_does_not_stop_polling id w j job :
  jobs w !! j = Some job ->
  job_fileId job = id ->
  let wd := snd (delete_file id w) in
  timers wd = timers w /\ jobs wd = jobs w
  /\ forall w1,
       jobs w1 = jobs wd -> file_of w1 id = None ->
       let w2 := snd (checkStatus j w1) in
       poll_times w2 = clock w1 :: poll_times w1
       /\ storage w2 = storage w1
       /\ jobs w2 = <[j := with_attempts (attempts job + 1) job]> (jobs w1)
       /\ (timers w2 = timers w1
           \/ (attempts job + 1 < maxAttempts job
               /\ timers w2
                  = (timers w1 ++ [mkTimer (clock w1 + 10000) (CheckStatus j)])%list)).
Proof.
  intros Hjob Hid wd.
  assert (Hframe : timers wd = timers w /\ jobs wd = jobs w).
  { unfold wd, delete_file, try_catch, bind, storage_deleteFile. cbn.
    by destruct (bool_decide _). }
  destruct Hframe as [Ht Hj]. split_and!; [done | done |].
  intros w1 Hjobs Hnone w2.
  assert (Hjob1 : jobs w1 !! j = Some job) by (by rewrite Hjobs, Hj).
  destruct (checkStatus_frame w1 j job Hjob1) as (Hjobs2 & Hpolls & Htimers).
  split_and!; [done | | done | done].
  apply (callback_on_absent_record w1 (CheckStatus j) id); [|done].
  cbn. by rewrite Hjob1, <- Hid.
Qed.

(** *** Timestamps *)

Lemma timestamps_ordered_mono c c' s :
  c <= c' -> timestamps_ordered c s -> timestamps_ordered c' s.
Proof.
  intros Hle Hs id f Hf. destruct (Hs id f Hf) as [Hup Hat].
  split; [lia|]. intros t Ht. specialize (Hat t Ht). lia.
Qed.

Lemma keeps_time_refl w : keeps_time w w.
Proof. by split. Qed.

Lemma keeps_time_trans w1 w2 w3 :
  keeps_time w1 w2 -> keeps_time w2 w3 -> keeps_time w1 w3.
Proof.
  intros [Hc1 H1] [Hc2 H2]. split; [congruence|].
  intros Hs. rewrite Hc1 in H2. by apply H2, H1.
Qed.

Lemma keeps_time_same w w' :
  clock w' = clock w -> storage w' = storage w -> keeps_time w w'.
Proof. intros Hc Hs. split; [done|]. by rewrite Hs. Qed.

Lemma time_ret {A} (a : A) : respects keeps_time (ret a : M Net A).
Proof. intros w. apply keeps_time_refl. Qed.

Lemma time_bind {A B} (c : M Net A) (k : A -> M Net B) :
  respects keeps_time c -> (forall a, respects keeps_time (k a)) ->
  respects keeps_time (bind c k).
Proof.
  intros Hc Hk w. unfold bind. specialize (Hc w).
  destruct (c w) as [[a|e] w1]; cbn in *; [|done].
  eapply keeps_time_trans; [exact Hc | apply Hk].
Qed.

Lemma time_try_catch {A} (c : M Net A) (h : Error -> M Net A) :
  respects keeps_time c -> (forall e, respects keeps_time (h e)) ->
  respects keeps_time (try_catch c h).
Proof.
  intros Hc Hh w. unfold try_catch. specialize (Hc w).
  destruct (c w) as [[a|e] w1]; cbn in *; [done|].
  eapply keeps_time_trans; [exact Hc | apply Hh].
Qed.

Lemma time_same_app {A} (c : M Net A) :
  (forall w, same_app w (snd (c w))) -> respects keeps_time c.
Proof. intros Hc w. destruct (Hc w) as (Hs & _ & _ & Hclock). by apply keeps_time_same. Qed.

Lemma time_updateFileStatus id st msg :
  respects keeps_time (storage_updateFileStatus (Net := Net) id st msg).
Proof.
  intros w. split; [done|]. intros Hw id' f' Hf'. cbn in Hf'.
  destruct (files (storage w) !! id) as [f|] eqn:Hf;
    [|rewrite updateFileStatus_absent in Hf' by done; by eapply Hw].
  destruct (decide (id = id')) as [<-|Hne];
    [|rewrite updateFileStatus_other in Hf' by done; by eapply Hw].
  destruct (Hw id f Hf) as [Hup Hat].
  unfold updateFileStatus in Hf'. rewrite Hf in Hf'. cbn in Hf'.
  rewrite lookup_insert_eq in Hf'. injection Hf' as <-. cbn.
  split; [done|]. intros t Ht. destruct (is_terminal st); [|by apply Hat].
  injection Ht as <-. lia.
Qed.

Lemma time_updateFileMetadata id md :
  respects keeps_time (storage_updateFileMetadata (Net := Net) id md).
Proof.
  intros w. split; [done|]. intros Hw id' f' Hf'. cbn in Hf'.
  destruct (files (storage w) !! id) as [f|] eqn:Hf;
    [|rewrite updateFileMetadata_absent in Hf' by done; by eapply Hw].
  destruct (decide (id = id')) as [<-|Hne];
    [|rewrite updateFileMetadata_other in Hf' by done; by eapply Hw].
  unfold updateFileMetadata in Hf'. rewrite Hf in Hf'. cbn in Hf'.
  rewrite lookup_insert_eq in Hf'. injection Hf' as <-. cbn. by apply (Hw id f).
Qed.

Lemma time_checkStatus j : respects keeps_time (checkStatus j).
Proof.
  intros w. unfold checkStatus.
  destruct (jobs w !! j) as [job|]; [|apply keeps_time_refl].
  eapply keeps_time_trans; [by apply (keeps_time_same w (count_attempt j job w))|].
  apply time_bind; [apply time_same_app, getTranslationStatus_frame|]. intros st.
  apply time_bind; [intros w0; destruct st; apply keeps_time_refl|]. intros v.
  repeat case_match.
  - apply time_bind; [apply time_updateFileStatus|]. intros _.
    apply time_bind; [apply time_updateFileMetadata | intros; apply time_ret].
  - apply time_bind; [apply time_updateFileStatus | intros; apply time_ret].
  - intros w'. repeat case_match; try apply keeps_time_refl.
    + by apply keeps_time_same.
    + apply (time_bind (storage_updateFileStatus _ _ _));
        [apply time_updateFileStatus | intros; apply time_ret].
Qed.

Lemma time_processFile id fType path oName :
  respects keeps_time (processFile id fType path oName).
Proof.
  assert (Hcatch : forall label (msg : Error -> string) e,
    respects keeps_time
      (let! _ := console_error (Net := Net) label e in
       let! _ := storage_updateFileStatus id FILE_STATUS_ERROR (Some (msg e)) in
       ret tt)).
  { intros label msg e. apply time_bind; [by intros w; apply keeps_time_same|].
    intros _. apply time_bind; [apply time_updateFileStatus | intros; apply time_ret]. }
  unfold processFile.
  apply time_try_catch;
    [|intros e; apply (Hcatch _ (fun e => "Processing failed: " +:+ message e))].
  case_decide; [|by intros w; apply keeps_time_same].
  apply time_bind; [apply time_updateFileStatus|]. intros _.
  apply time_bind; [by intros w; apply keeps_time_same|]. intros now.
  apply time_try_catch;
    [|intros e; apply (Hcatch _ (fun e => "APS error: " +:+ message e))].
  apply time_bind; [apply time_same_app, createBucket_frame|]. intros _.
  apply time_bind; [apply time_same_app, uploadFile_frame|]. intros up.
  apply time_bind; [apply time_same_app, translateFile_frame|]. intros _.
  apply time_bind; [by intros w; apply keeps_time_same|]. intros j.
  by intros w; apply keeps_time_same.
Qed.

Lemma time_upload_all fs : respects keeps_time (upload_all path_extname fs).
Proof.
  induction fs as [|file fs IH]; cbn [upload_all]; [apply time_ret|].
  apply time_bind.
  - unfold upload_one. apply time_bind.
    + intros w. split; [done|]. intros Hw id f Hf. cbn in Hf.
      apply lookup_insert_Some in Hf as [[_ <-]|[_ Hf]]; [|by eapply Hw].
      cbn. split; [lia | done].
    + intros saved. apply time_bind; [|intros; apply time_ret].
      intros w. unfold unawaited.
      pose proof (time_processFile (fileId saved)
                    (detectFileType path_extname (mf_originalname file) (mf_mimetype file))
                    (mf_path file) (mf_originalname file) w) as Hp.
      by destruct (processFile _ _ _ _ w) as [[[]|e] w1].
  - intros saved. apply time_bind; [exact IH | intros; apply time_ret].
Qed.

Lemma time_step ev w :
  timestamps_ordered (clock w) (storage w) ->
  timestamps_ordered (clock (step path_extname ev w))
    (storage (step path_extname ev w)).
Proof.
  intros Hw.
  assert (Hhandler : forall w', keeps_time w w' ->
            timestamps_ordered (clock w') (storage w')).
  { intros w' [Hc Hs]. rewrite Hc. by apply Hs. }
  destruct ev as [fs|id|id st msg|id| |ms]; cbn [step].
  - apply Hhandler. unfold post_upload.
    apply time_try_catch; [|intros; apply time_ret].
    destruct fs as [fs|]; [|apply time_ret].
    apply time_bind; [apply time_upload_all | intros; apply time_ret].
  - apply Hhandler. unfold get_file.
    apply time_try_catch; [|intros; apply time_ret].
    apply time_bind; [by intros w0; apply keeps_time_same|].
    intros [f|]; apply time_ret.
  - apply Hhandler. unfold patch_status.
    apply time_try_catch; [|intros; apply time_ret].
    apply time_bind; [apply time_updateFileStatus|]. intros [f|]; apply time_ret.
  - apply Hhandler. unfold delete_file.
    apply time_try_catch; [|intros; apply time_ret].
    apply time_bind; [|intros []; apply time_ret].
    intros w0. split; [done|]. intros Hw0 id' f' Hf'. cbn in Hf'.
    apply lookup_delete_Some in Hf' as [_ Hf']. by eapply Hw0.
  - unfold fire. destruct (pop_timer (timers w)) as [[t rest]|]; [|done].
    cbn [default]. set (w1 := set_clock _ _).
    assert (Hw1 : timestamps_ordered (clock w1) (storage w1)).
    { apply (timestamps_ordered_mono (clock w)); [cbn; lia | done]. }
    assert (Hcb : keeps_time w1 (snd (run_callback (callback t) w1))).
    { destruct (callback t) as [j|id]; cbn [run_callback].
      - apply time_checkStatus.
      - unfold standardProcessing.
        apply time_bind; [apply time_updateFileStatus|]. intros _.
        apply time_bind; [apply time_updateFileMetadata | intros; apply time_ret]. }
    destruct Hcb as [Hc Hs]. specialize (Hs Hw1).
    destruct (run_callback (callback t) w1) as [[[]|e] w2]; cbn in *;
      by rewrite Hc.
  - cbn. apply (timestamps_ordered_mono (clock w)); [lia | done].
Qed.

(** X14. Timestamps are ordered. In every reachable state no record was
    uploaded or processed after the current time, and a record that has a
    [processedAt] was processed no earlier than it was uploaded. *)
Theorem timestamps_are_ordered w :
  reachable path_extname w ->
  forall id f,
    file_of w id = Some f ->
    uploadedAt f <= clock w
    /\ forall t, processedAt f = Some t -> uploadedAt f <= t <= clock w.
Proof.
  intros Hreach. change (timestamps_ordered (clock w) (storage w)).
  induction Hreach as [svc n t0|ev w Hreach IH].
  - intros id f Hf. cbn in Hf. by rewrite lookup_empty in Hf.
  - by apply time_step.
Qed.

End MoreServerFacts.

(** ** The poll loop among other timers *)

Section PollLoop.

Context {Net : Type} `{!Axios Net} (path_extname : string -> string).

Implicit Types (w : World Net) (id : Z) (f : File) (j : nat) (job : ConversionJob).




(** *** Records that are settled stay settled when a timer fires *)





(** *** A run of [checkStatus] against a remote service that answers *)








(** *** A remote service that stays pending *)





End PollLoop.

(** ** READY and the metadata *)

Section ReadyMetadata.

Context {Net : Type} `{!Axios Net} (path_extname : string -> string).

Implicit Types (w : World Net) (id : Z) (f : File) (j : nat) (job : ConversionJob).

(** *** The pipelines in flight and the records *)

Lemma well_keyed_status now id st msg s :
  well_keyed s -> well_keyed (snd (updateFileStatus now id st msg s)).
Proof.
  intros Hwk.
  apply (inv_status _ (history_invariant s Hwk) now id st msg s).
  split; [done | apply later_store_refl].
Qed.

Lemma well_keyed_metadata id md s :
  well_keyed s -> well_keyed (snd (updateFileMetadata id md s)).
Proof.
  intros Hwk.
  apply (inv_metadata _ (history_invariant s Hwk) id md s).
  split; [done | apply later_store_refl].
Qed.

Lemma well_keyed_delete id s : well_keyed s -> well_keyed (snd (deleteFile id s)).
Proof.
  intros Hwk.
  apply (inv_delete _ (history_invariant s Hwk) id s).
  split; [done | apply later_store_refl].
Qed.

(** A state whose store is the same, whose closures write to the ids they
    wrote to or to an id of a drawing, and whose callbacks of the standard
    path are old or for an id of another file. *)
Lemma typed_frame w w' :
  storage w' = storage w ->
  (forall j job', jobs w' !! j = Some job' ->
     (exists job, jobs w !! j = Some job /\ job_fileId job = job_fileId job')
     \/ (job_fileId job' < currentId (storage w)
         /\ forall f, file_of w (job_fileId job') = Some f ->
              fileType f = FILE_TYPES_AUTOCAD)) ->
  (forall t id, t ∈ timers w' -> callback t = StandardProcessing id ->
     t ∈ timers w
     \/ (id < currentId (storage w)
         /\ forall f, file_of w id = Some f -> fileType f <> FILE_TYPES_AUTOCAD)) ->
  pipelines_typed w -> pipelines_typed w'.
Proof.
  intros Hs Hjobs Htimers (Hwk & Hj & Ht & Hr).
  unfold pipelines_typed, file_of in *. rewrite Hs. split_and!; [done| | |done].
  - intros j job' Hjob'. destruct (Hjobs j job' Hjob') as [(job & Hjob & Hid)|H]; [|done].
    rewrite <- Hid. by apply (Hj j).
  - intros t id Hin Hcb. destruct (Htimers t id Hin Hcb) as [Hin'|H]; [|done].
    by apply (Ht t).
Qed.

Lemma typed_same w w' :
  storage w' = storage w -> jobs w' = jobs w -> timers w' = timers w ->
  pipelines_typed w -> pipelines_typed w'.
Proof.
  intros Hs Hj Ht. apply typed_frame; [done| |].
  - intros j job' Hjob'. left. exists job'. by rewrite <- Hj.
  - intros t id Hin _. left. by rewrite <- Ht.
Qed.

(** A present record is replaced by a record for the same file, which has
    its metadata if it is READY. *)
Lemma typed_overwrite w w' id f f' :
  file_of w id = Some f ->
  fileType f' = fileType f ->
  (status f' = FILE_STATUS_READY -> complete_metadata f') ->
  well_keyed (storage w') ->
  files (storage w') = <[id := f']> (files (storage w)) ->
  currentId (storage w') = currentId (storage w) ->
  jobs w' = jobs w -> timers w' = timers w ->
  pipelines_typed w -> pipelines_typed w'.
Proof.
  intros Hf Htype Hready Hwk' Hfiles Hcur Hjobs Htimers (Hwk & Hj & Ht & Hr).
  assert (Hlook : forall id' g', files (storage w') !! id' = Some g' ->
            exists g, files (storage w) !! id' = Some g
                      /\ fileType g' = fileType g
                      /\ (id' <> id -> g' = g)).
  { intros id' g' Hg'. rewrite Hfiles in Hg'.
    apply lookup_insert_Some in Hg' as [[<- <-]|[Hne Hg']].
    - exists f. by split_and!.
    - exists g'. by split_and!. }
  unfold pipelines_typed, file_of in *. rewrite Hcur, Hjobs, Htimers.
  split_and!; [done| | |].
  - intros j job Hjob. destruct (Hj j job Hjob) as [Hlt Hty]. split; [done|].
    intros g' Hg'. destruct (Hlook _ _ Hg') as (g & Hg & -> & _). by apply Hty.
  - intros t id' Hin Hcb. destruct (Ht t id' Hin Hcb) as [Hlt Hty]. split; [done|].
    intros g' Hg'. destruct (Hlook _ _ Hg') as (g & Hg & -> & _). by apply Hty.
  - intros id' g' Hg' Hst. rewrite Hfiles in Hg'.
    apply lookup_insert_Some in Hg' as [[<- <-]|[Hne Hg']]; [by apply Hready|].
    by apply (Hr id').
Qed.

Lemma typed_status id st msg w :
  st <> FILE_STATUS_READY ->
  pipelines_typed w ->
  pipelines_typed (snd (storage_updateFileStatus id st msg w)).
Proof.
  intros Hst Hw.
  destruct (file_of w id) as [f|] eqn:Hf; unfold file_of in Hf.
  - destruct (updateFileStatus_lookup _ (clock w) id st msg f Hf)
      as (f' & Heq & Hst' & _).
    assert (Htype : fileType f' = fileType f).
    { unfold updateFileStatus in Heq. rewrite Hf in Heq.
      injection Heq as Hrec _. by rewrite <- Hrec. }
    apply (typed_overwrite w _ id f f'); try done.
    + intros Hready. congruence.
    + cbn. apply well_keyed_status, Hw.
    + cbn. by rewrite Heq.
    + cbn. by rewrite Heq.
  - apply (typed_same w); try done. cbn. by rewrite updateFileStatus_absent.
Qed.

(** The two writes that make a record READY, with metadata that fits the
    type of the record. *)
Lemma typed_ready_block id md w :
  (forall f, file_of w id = Some f ->
     if decide (fileType f = FILE_TYPES_AUTOCAD)
     then exists job st, md = aps_metadata job st
     else md = standard_metadata) ->
  pipelines_typed w ->
  pipelines_typed
    (snd (storage_updateFileMetadata id md
            (snd (storage_updateFileStatus id FILE_STATUS_READY None w)))).
Proof.
  intros Hmd Hw.
  destruct (file_of w id) as [f|] eqn:Hf; unfold file_of in Hf.
  - specialize (Hmd f eq_refl).
    set (w1 := snd (storage_updateFileStatus id FILE_STATUS_READY None w)).
    set (w2 := snd (storage_updateFileMetadata id md w1)).
    destruct (updateFileStatus_lookup _ (clock w) id FILE_STATUS_READY None f Hf)
      as (f1 & Heq1 & _).
    assert (Htype1 : fileType f1 = fileType f).
    { unfold updateFileStatus in Heq1. rewrite Hf in Heq1.
      injection Heq1 as Hrec _. by rewrite <- Hrec. }
    assert (Hs1 : storage w1
                  = {| files := <[id := f1]> (files (storage w));
                       currentId := currentId (storage w) |}).
    { change (storage w1)
        with (snd (updateFileStatus (clock w) id FILE_STATUS_READY None (storage w))).
      by rewrite Heq1. }
    assert (Hf1 : files (storage w1) !! id = Some f1).
    { rewrite Hs1. cbn. by rewrite lookup_insert_eq. }
    destruct (updateFileMetadata_lookup _ id md f1 Hf1)
      as (f2 & Heq2 & _ & _ & Hmd2 & _).
    assert (Htype2 : fileType f2 = fileType f1).
    { unfold updateFileMetadata in Heq2. rewrite Hf1 in Heq2.
      injection Heq2 as Hrec _. by rewrite <- Hrec. }
    assert (Hs2 : storage w2
                  = {| files := <[id := f2]> (files (storage w));
                       currentId := currentId (storage w) |}).
    { change (storage w2) with (snd (updateFileMetadata id md (storage w1))).
      rewrite Heq2. cbn [snd]. rewrite Hs1. cbn. by rewrite insert_insert_eq. }
    apply (typed_overwrite w w2 id f f2); try done.
    + congruence.
    + intros _. unfold complete_metadata. rewrite Htype2, Htype1, Hmd2.
      destruct (decide (fileType f = FILE_TYPES_AUTOCAD)).
      * destruct Hmd as (job & st & ->). eauto.
      * by rewrite Hmd.
    + change (storage w2) with (snd (updateFileMetadata id md (storage w1))).
      apply well_keyed_metadata.
      change (storage w1)
        with (snd (updateFileStatus (clock w) id FILE_STATUS_READY None (storage w))).
      apply well_keyed_status, Hw.
    + by rewrite Hs2.
    + by rewrite Hs2.
  - apply (typed_same w); try done. cbn.
    rewrite (updateFileStatus_absent _ _ _ _ _ Hf). cbn.
    by rewrite updateFileMetadata_absent.
Qed.

Lemma typed_delete id w :
  pipelines_typed w -> pipelines_typed (snd (storage_deleteFile id w)).
Proof.
  intros (Hwk & Hj & Ht & Hr). unfold pipelines_typed, file_of in *. cbn.
  split_and!.
  - by apply well_keyed_delete.
  - intros j job Hjob. destruct (Hj j job Hjob) as [Hlt Hty]. split; [done|].
    intros g Hg. cbn in Hg. apply lookup_delete_Some in Hg as [_ Hg]. by apply Hty.
  - intros t id' Hin Hcb. destruct (Ht t id' Hin Hcb) as [Hlt Hty]. split; [done|].
    intros g Hg. cbn in Hg. apply lookup_delete_Some in Hg as [_ Hg]. by apply Hty.
  - intros id' g Hg. cbn in Hg. apply lookup_delete_Some in Hg as [_ Hg].
    by apply (Hr id').
Qed.

Lemma typed_checkStatus j w :
  pipelines_typed w -> pipelines_typed (snd (checkStatus j w)).
Proof.
  intros Hw. destruct (jobs w !! j) as [job|] eqn:Hjob;
    [|unfold checkStatus; by rewrite Hjob].
  destruct (getTranslationStatus (job_urn job) (count_attempt j job w))
    as [r w2] eqn:Hpoll.
  pose proof (poll_frame _ _ _ _ _ Hpoll) as (Hs & Ht & _ & Hjobs & _).
  assert (Hw2 : pipelines_typed w2).
  { apply (typed_frame w); [done| |by intros t id Hin _; left; rewrite <- Ht|done].
    intros j' job' Hjob'. left. rewrite Hjobs in Hjob'.
    destruct (decide (j = j')) as [<-|Hne].
    - rewrite list_lookup_insert_eq in Hjob' by (by eapply lookup_lt_Some).
      exists job. by simplify_eq.
    - rewrite list_lookup_insert_ne in Hjob' by done. eauto. }
  assert (Hdrawing : forall f, file_of w2 (job_fileId job) = Some f ->
            fileType f = FILE_TYPES_AUTOCAD).
  { intros f Hf. destruct Hw as (_ & Hj & _). apply (Hj j job Hjob).
    unfold file_of in *. by rewrite <- Hs. }
  rewrite (checkStatus_eq _ _ _ _ _ Hjob Hpoll).
  destruct r as [st|e]; [|done].
  assert (Hst : forall (wa wb : World Net),
            pipelines_typed wa -> pipelines_typed wb ->
            pipelines_typed (match st with JNull => wa | _ => wb end))
    by (intros; by destruct st).
  assert (Hgoal :
    pipelines_typed
      (snd (if is_string (manifest_status st) "success" then
              (Returned tt,
               snd (storage_updateFileMetadata (job_fileId job) (aps_metadata job st)
                      (snd (storage_updateFileStatus (job_fileId job)
                              FILE_STATUS_READY None w2))))
            else if is_string (manifest_status st) "failed" then
              (Returned tt,
               snd (storage_updateFileStatus (job_fileId job) FILE_STATUS_ERROR
                      (Some "APS translation failed") w2))
            else if (attempts job + 1 <? maxAttempts job)%Z then
              (Returned tt, snd (setTimeout (CheckStatus j) 10000 w2))
            else
              (Returned tt,
               snd (storage_updateFileStatus (job_fileId job) FILE_STATUS_ERROR
                      (Some "Translation timeout") w2))))).
  { destruct (is_string (manifest_status st) "success");
      [|destruct (is_string (manifest_status st) "failed");
        [|destruct (attempts job + 1 <? maxAttempts job)%Z]]; cbn [snd].
    - apply typed_ready_block; [|done]. intros f Hf.
      rewrite decide_True by (by apply Hdrawing). eauto.
    - by apply typed_status.
    - apply (typed_frame w2); [done| | |done].
      + intros j' job' Hjob'. left. eauto.
      + intros t id Hin Hcb. cbn in Hin. apply elem_of_app in Hin as [Hin|Hin];
          [by left|]. apply list_elem_of_singleton in Hin as ->. done.
    - by apply typed_status. }
  by destruct st.
Qed.

Lemma typed_standardProcessing id w :
  (forall f, file_of w id = Some f -> fileType f <> FILE_TYPES_AUTOCAD) ->
  pipelines_typed w -> pipelines_typed (snd (standardProcessing id w)).
Proof.
  intros Hother Hw. rewrite standardProcessing_eq. cbn [snd].
  apply typed_ready_block; [|done]. intros f Hf.
  by rewrite decide_False by (by apply Hother).
Qed.

Lemma typed_fire w w' : pipelines_typed w -> fire w = Some w' -> pipelines_typed w'.
Proof.
  intros Hw Hfire. unfold fire in Hfire.
  destruct (pop_timer (timers w)) as [[t rest]|] eqn:Hpop; [|done].
  apply pop_timer_perm in Hpop.
  set (w1 := set_clock (Z.max (clock w) (due t)) (set_timers rest w)) in Hfire.
  assert (Hw1 : pipelines_typed w1).
  { apply (typed_frame w); [done| | |done].
    - intros j job' Hjob'. left. eauto.
    - intros t' id Hin _. left. rewrite Hpop. by right. }
  assert (Hcb : pipelines_typed (snd (run_callback (callback t) w1))).
  { destruct (callback t) as [j|id] eqn:Hcb; cbn [run_callback].
    - by apply typed_checkStatus.
    - apply typed_standardProcessing; [|done].
      destruct Hw as (_ & _ & Ht & _). apply (Ht t id); [|done].
      rewrite Hpop. by left. }
  destruct (run_callback (callback t) w1) as [[[]|e] w2]; simplify_eq; [done|].
  by apply (typed_same w2).
Qed.

(** *** [processFile] on the record it was called for *)

Lemma pipeline_same id fType w w' :
  storage w' = storage w -> jobs w' = jobs w -> timers w' = timers w ->
  pipeline_of id fType w -> pipeline_of id fType w'.
Proof.
  intros Hs Hj Ht (Hw & Hlt & Hty). unfold pipeline_of, file_of in *. rewrite Hs.
  split_and!; [by apply (typed_same w) | done | done].
Qed.

Lemma pipeline_status id fType st msg w :
  st <> FILE_STATUS_READY ->
  pipeline_of id fType w ->
  pipeline_of id fType (snd (storage_updateFileStatus id st msg w)).
Proof.
  intros Hst (Hw & Hlt & Hty). split_and!.
  - by apply typed_status.
  - cbn. unfold updateFileStatus. by destruct (files (storage w) !! id).
  - intros g Hg. unfold file_of in *. cbn in Hg.
    destruct (files (storage w) !! id) as [f|] eqn:Hf.
    + unfold updateFileStatus in Hg. rewrite Hf in Hg. cbn in Hg.
      rewrite lookup_insert_eq in Hg. injection Hg as <-. cbn. by apply Hty.
    + rewrite updateFileStatus_absent in Hg by done. cbn in Hg. congruence.
Qed.

Lemma typed_processFile id fType path oName w :
  pipeline_of id fType w ->
  pipelines_typed (snd (processFile id fType path oName w)).
Proof.
  intros Hw. destruct (decide (fType = FILE_TYPES_AUTOCAD)) as [->|Hne].
  - rewrite processFile_autocad. cbv zeta.
    set (bKey := "autocad-viewer-" +:+ pretty (clock w)).
    set (oKey := pretty id +:+ "-" +:+ oName).
    set (w0 := snd (storage_updateFileStatus id FILE_STATUS_PROCESSING None w)).
    assert (Hw0 : pipeline_of id FILE_TYPES_AUTOCAD w0) by by apply pipeline_status.
    assert (Hfail : forall e (wx : World Net),
              pipeline_of id FILE_TYPES_AUTOCAD wx ->
              pipelines_typed (aps_failure id e wx)).
    { intros e wx Hwx. unfold aps_failure. apply typed_status; [done|].
      apply (pipeline_same id FILE_TYPES_AUTOCAD wx); done. }
    assert (Hcall : forall A (c : M Net A) (wx : World Net),
              same_app wx (snd (c wx)) ->
              pipeline_of id FILE_TYPES_AUTOCAD wx ->
              pipeline_of id FILE_TYPES_AUTOCAD (snd (c wx))).
    { intros A c wx (Hs & Hj & Ht & _). by apply pipeline_same. }
    pose proof (Hcall _ (createBucket bKey) w0 (proj1 (createBucket_frame bKey w0)) Hw0)
      as Hw1.
    destruct (createBucket bKey w0) as [[b|e] w1]; cbn [snd] in *; [|by apply Hfail].
    pose proof (Hcall _ (uploadFile bKey oKey path) w1
                  (proj1 (uploadFile_frame bKey oKey path w1)) Hw1) as Hw2.
    destruct (uploadFile bKey oKey path w1) as [[up|e] w2]; cbn [snd] in *;
      [|by apply Hfail].
    pose proof (Hcall _ (translateFile (encodeBase64Url (objectId up))) w2
                  (proj1 (translateFile_frame _ w2)) Hw2) as Hw3.
    destruct (translateFile _ w2) as [[r|e] w3]; cbn [snd] in *; [|by apply Hfail].
    destruct Hw3 as (Hw3 & Hlt & Hty). unfold polling_started.
    apply (typed_frame w3); [done| | |done].
    + intros j job' Hjob'. cbn in Hjob'.
      apply lookup_app_Some in Hjob' as [Hjob'|[_ Hjob']]; [left; eauto|].
      right. destruct (j - length (jobs w3))%nat; [|done]. cbn in Hjob'.
      injection Hjob' as <-. by cbn.
    + intros t id' Hin Hcb. cbn in Hin. apply elem_of_app in Hin as [Hin|Hin];
        [by left|]. apply list_elem_of_singleton in Hin as ->. done.
  - rewrite processFile_standard by done. destruct Hw as (Hw & Hlt & Hty).
    apply (typed_frame w); [done| | |done].
    + intros j job' Hjob'. left. eauto.
    + intros t id' Hin Hcb. cbn in Hin. apply elem_of_app in Hin as [Hin|Hin];
        [by left|]. apply list_elem_of_singleton in Hin as ->. cbn in Hcb.
      injection Hcb as <-. right. split; [done|]. intros f Hf.
      by rewrite (Hty f Hf).
Qed.

Lemma typed_upload_one file w :
  pipelines_typed w -> pipelines_typed (snd (upload_one path_extname file w)).
Proof.
  intros (Hwk & Hj & Ht & Hr). rewrite upload_one_eq. cbv zeta. cbn [snd].
  apply typed_processFile.
  set (saved := {| fileId := currentId (storage w) |}).
  assert (Hfresh : forall id, id < currentId (storage w) ->
            <[fileId saved := saved]> (files (storage w)) !! id
            = files (storage w) !! id).
  { intros id Hid. apply lookup_insert_ne. cbn. lia. }
  unfold pipeline_of, pipelines_typed, file_of in *. cbn -[saved].
  split_and!.
  - apply (inv_create _ (history_invariant (storage w) Hwk) (clock w)
             {| ins_filename := mf_filename file;
                ins_originalName := mf_originalname file;
                ins_mimeType := mf_mimetype file;
                ins_size := mf_size file;
                ins_filePath := mf_path file;
                ins_fileType := detectFileType path_extname (mf_originalname file)
                                  (mf_mimetype file);
                ins_status := FILE_STATUS_UPLOADING;
                ins_errorMessage := None;
                ins_metadata := None |} (storage w) eq_refl).
    split; [done | apply later_store_refl].
  - intros j job Hjob. destruct (Hj j job Hjob) as [Hlt Hty]. split; [lia|].
    intros f Hf. rewrite Hfresh in Hf by done. by apply Hty.
  - intros t id Hin Hcb. destruct (Ht t id Hin Hcb) as [Hlt Hty]. split; [lia|].
    intros f Hf. rewrite Hfresh in Hf by done. by apply Hty.
  - intros id f Hf Hst. cbn [files] in Hf.
    apply lookup_insert_Some in Hf as [[_ <-]|[_ Hf]]; [done|].
    by apply (Hr id).
  - cbn. lia.
  - intros f Hf. cbn [files] in Hf. rewrite lookup_insert_eq in Hf.
    by injection Hf as <-.
Qed.

Lemma typed_upload_all fs w :
  pipelines_typed w -> pipelines_typed (snd (upload_all path_extname fs w)).
Proof.
  revert w. induction fs as [|file fs IH]; intros w Hw; [done|].
  cbn [upload_all]. unfold bind at 1.
  pose proof (typed_upload_one file w Hw) as H1.
  destruct (upload_one path_extname file w) as [[saved|e] w1]; cbn [snd] in *; [|done].
  unfold bind at 1. specialize (IH w1 H1).
  by destruct (upload_all path_extname fs w1) as [[more|e] w2].
Qed.

Lemma typed_step ev w :
  no_ready_patch ev -> pipelines_typed w -> pipelines_typed (step path_extname ev w).
Proof.
  intros Hev Hw. destruct ev as [fs|id|id st msg|id| |ms]; cbn [step].
  - unfold post_upload, try_catch. destruct fs as [fs|]; [|done].
    unfold bind. pose proof (typed_upload_all fs w Hw) as H.
    by destruct (upload_all path_extname fs w) as [[saved|e] w1].
  - unfold get_file, try_catch, bind, storage_getFile. cbn.
    by destruct (getFile (storage w) id).
  - unfold patch_status, try_catch, bind.
    pose proof (typed_status id st msg w Hev Hw) as H.
    rewrite storage_updateFileStatus_pair. cbn [fst snd].
    by destruct (fst (updateFileStatus _ _ _ _ _)).
  - unfold delete_file, try_catch, bind.
    pose proof (typed_delete id w Hw) as H.
    destruct (storage_deleteFile id w) as [[[]|e] w1]; cbn in *; done.
  - destruct (fire w) as [w'|] eqn:Hfire; [|done]. cbn. by eapply typed_fire.
  - by apply (typed_same w).
Qed.

Lemma typed_run_events evs w :
  Forall no_ready_patch evs -> pipelines_typed w ->
  pipelines_typed (run_events path_extname evs w).
Proof.
  revert w. induction evs as [|ev evs IH]; intros w Hevs Hw; [done|].
  apply Forall_cons in Hevs as [Hev Hevs]. cbn. apply IH; [done|].
  by apply typed_step.
Qed.

Lemma typed_boot svc (n : Net) t0 : pipelines_typed (boot svc n t0).
Proof.
  split_and!.
  - apply well_keyed_new.
  - intros j job Hjob. by destruct j.
  - intros t id Hin. by apply elem_of_nil in Hin.
  - intros id f Hf. cbn in Hf. by rewrite lookup_empty in Hf.
Qed.

(** C2 (amended). Between two events, that is whenever a request can read
    the store, and as long as no status request sets READY itself, every
    record in READY has the complete metadata object of its detected type:
    that of [checkStatus] for a drawing, that of the standard path for any
    other file. So has every READY record that GET /api/files/:id answers,
    and every READY record in the list that GET /api/files answers. *)
Theorem ready_records_have_complete_metadata svc (n : Net) t0 evs :
  Forall no_ready_patch evs ->
  let w := run_events path_extname evs (boot svc n t0) in
  ready_is_complete (storage w)
  /\ (forall id f,
        fst (get_file id w) = Returned (ResFile f) ->
        status f = FILE_STATUS_READY -> complete_metadata f)
  /\ (forall fs f,
        fst (get_files w) = Returned (ReplyFiles fs) -> f ∈ fs ->
        status f = FILE_STATUS_READY -> complete_metadata f).
Proof.
  intros Hevs w.
  destruct (typed_run_events evs (boot svc n t0) Hevs (typed_boot svc n t0))
    as (_ & _ & _ & Hready). fold w in Hready.
  split_and!; [done| |].
  - intros id f Hget. unfold get_file, try_catch, bind, storage_getFile in Hget.
    cbn in Hget. destruct (getFile (storage w) id) as [g|] eqn:Hg; [|done].
    cbn in Hget. injection Hget as <-. by apply (Hready id).
  - intros fs f Hget Hin. cbn in Hget. injection Hget as <-.
    unfold getAllFiles in Hin. rewrite Array_sort_perm, Map_values_perm in Hin.
    apply list_elem_of_fmap in Hin as ([id g] & -> & Hin).
    apply elem_of_map_to_list in Hin. by apply (Hready id).
Qed.

End ReadyMetadata.

(** ** More scenarios against the double *)

Section MoreScenarios.

(** Two uploads, five milliseconds apart. *)
Lemma files_are_listed_newest_first_witness :
  let w := scenario [] [ReqUpload (Some [plan_dwg; spec_pdf]); TimePasses 5;
                        ReqUpload (Some [spec_pdf])] in
  exists fs,
    get_files w = (Returned (ReplyFiles fs), w)
    /\ fileId <$> fs = [3; 1; 2]
    /\ StronglySorted listed_before fs.
Proof.
  intros w.
  destruct (files_are_listed_newest_first extname w) as (fs & Heq & _ & _ & Hsorted).
  { apply reachable_run_events. constructor. }
  exists fs. split_and!; [done | | done].
  assert (Hfs : fst (get_files w) = Returned (ReplyFiles fs)) by by rewrite Heq.
  vm_compute in Hfs. injection Hfs as <-. reflexivity.
Defined.

(** The state after the upload of a drawing. *)
Lemma ids_are_never_reused_witness :
  let w := scenario [] [ReqUpload (Some [plan_dwg])] in
  well_keyed (storage w)
  /\ forall evs, later_store (storage w) (storage (run_events extname evs w)).
Proof.
  intros w. apply (ids_are_never_reused extname).
  apply reachable_run_events. constructor.
Defined.

(** A drawing is uploaded and deleted; a document is uploaded next. *)
Lemma deleted_record_stays_deleted_witness :
  let w := scenario [] [ReqUpload (Some [plan_dwg])] in
  let w' := run_events extname [ReqUpload (Some [spec_pdf]); TimerFires]
              (step extname (ReqDelete 1) w) in
  is_Some (file_of w 1)
  /\ file_of w' 1 = None
  /\ fst (get_file 1 w') = Returned (ResMessage 404 "File not found")
  /\ is_Some (file_of w' 2).
Proof.
  intros w w'.
  assert (Hsome : is_Some (file_of w 1)) by (eexists; by vm_compute).
  destruct (deleted_record_stays_deleted extname w 1
              [ReqUpload (Some [spec_pdf]); TimerFires]) as (Hnone & Hget & _).
  { apply reachable_run_events. constructor. }
  { exact Hsome. }
  split_and!; [done | done | done |]. eexists. by vm_compute.
Defined.

(** Two drawings: the pipeline of the second leaves the first alone. *)
Lemma pipeline_writes_own_record_only_witness :
  let w := scenario [] [ReqUpload (Some [plan_dwg])] in
  let w' := snd (processFile 2 FILE_TYPES_AUTOCAD "uploads/9e2a" "site.dwg" w) in
  2 <> 1 /\ file_of w' 1 = file_of w 1.
Proof.
  intros w w'. assert (Hne : 1 <> 2) by done.
  split; [done|].
  exact (proj1 (pipeline_writes_own_record_only (Net := Remote)) 2 FILE_TYPES_AUTOCAD
           "uploads/9e2a" "site.dwg" w 1 Hne).
Defined.

(** An upload, a failed translation and the client's retry. *)
Lemma error_message_iff_error_witness :
  let evs := [ReqUpload (Some [plan_dwg; spec_pdf]); TimerFires; TimerFires;
              ReqPatch 1 "processing" None] in
  Forall client_event evs
  /\ message_iff_error (storage (scenario [Returned (manifest "failed")] evs)).
Proof.
  intros evs.
  assert (Hevs : Forall client_event evs) by (repeat constructor).
  split; [done|].
  apply (error_message_iff_error extname evs _ Hevs).
  intros id f Hf. cbn in Hf. by rewrite lookup_empty in Hf.
Defined.

(** A drawing and a document in one request. *)
Lemma upload_answers_the_new_records_witness :
  let w := scenario [] [] in
  exists saved f1 f2,
    fst (post_upload extname (Some [plan_dwg; spec_pdf]) w)
    = Returned (ResUploaded "Files uploaded successfully" saved)
    /\ saved = [f1; f2]
    /\ fileId f1 = 1 /\ fileId f2 = 2
    /\ status f1 = "uploading" /\ status f2 = "uploading".
Proof.
  intros w.
  destruct (proj2 (upload_answers_the_new_records extname) [plan_dwg; spec_pdf] w)
    as (saved & Heq & Hlen & _ & Hnew).
  destruct (Hnew 0%nat plan_dwg eq_refl) as (f1 & _ & H1 & -> & _).
  destruct (Hnew 1%nat spec_pdf eq_refl) as (f2 & _ & H2 & -> & _).
  destruct saved as [|x1 [|x2 [|x3 saved]]]; try discriminate Hlen.
  cbn in H1, H2. injection H1 as ->. injection H2 as ->.
  eexists _, _, _. by split_and!.
Defined.

(** The service asks for a token at time 1000 and is asked again at 2000. *)
Lemma authenticate_reuses_token_witness :
  let w := boot service (remote []) 1000 in
  let w1 := snd (authenticate w) in
  let w2 := set_clock 2000 w1 in
  exists a2,
    authenticate w2 = (Returned a2, w2)
    /\ access_token a2 = "tok" /\ expires_in a2 <= 3600.
Proof.
  intros w w1 w2.
  apply (proj1 (authenticate_reuses_token (Net := Remote)) w token w1 w2).
  - reflexivity.
  - discriminate.
  - reflexivity.
  - by vm_compute.
  - by vm_compute.
  - cbn. lia.
Defined.

(** A token cached until 5000 is served at 4999. *)
Lemma token_route_reports_fixed_lifetime_witness :
  let svc := {| clientId := "id"; clientSecret := "secret";
                accessToken := Some "tok"; tokenExpiry := Some 5000 |} in
  let w := boot svc (remote []) 4999 in
  fst (get_aps_token w) = Returned (ReplyToken "tok" 3600)
  /\ net (snd (get_aps_token w)) = net w.
Proof.
  intros svc w.
  assert (Hlt : clock w < 5000) by (cbn; lia).
  assert (Hne : "tok" <> "") by discriminate.
  rewrite (proj1 (token_route_reports_fixed_lifetime (Net := Remote))
             w "tok" 5000 eq_refl Hne eq_refl Hlt).
  by split.
Defined.

(** A drawing named in capitals, sent as plain text, and a PDF. *)
Lemma remote_is_called_for_drawings_only_witness :
  let w := scenario [] [] in
  let cad := {| mf_filename := "5c0d"; mf_originalname := "PLAN.DWG";
                mf_mimetype := "text/plain"; mf_size := 1024;
                mf_path := "uploads/5c0d" |} in
  (exists later,
     aps_calls (snd (upload_one extname cad w))
     = (later ++ [LogAps 1000 "createBucket" "autocad-viewer-1000"])%list)
  /\ aps_calls (snd (upload_one extname spec_pdf w)) = [].
Proof.
  intros w cad. split.
  - apply (proj1 (remote_is_called_for_drawings_only extname cad w)).
    apply (bool_decide_unpack _). by vm_compute.
  - apply (proj2 (remote_is_called_for_drawings_only extname spec_pdf w)).
    apply (bool_decide_unpack _). by vm_compute.
Defined.

(** The record of a drawing, right after its creation. *)
Lemma drawing_is_polled_or_marked_failed_witness :
  let w := created [] in
  let w' := snd (processFile 1 FILE_TYPES_AUTOCAD "uploads/8d1f" "plan.dwg" w) in
  exists f', file_of w' 1 = Some f'
             /\ (status f' = "processing" \/ status f' = "error").
Proof.
  intros w w'.
  destruct (file_of w 1) as [f|] eqn:Hf; [|by vm_compute in Hf].
  destruct (drawing_is_polled_or_marked_failed (Net := Remote) 1 "uploads/8d1f"
              "plan.dwg" w f Hf)
    as [(urn & f' & _ & _ & Hf' & Hst & _)
       |(e & calls & f' & _ & _ & _ & _ & _ & Hf' & Hst & _)];
    exists f'; split; auto.
Defined.

(** A drawing is uploaded and deleted before its first poll. *)
Lemma delete_does_not_stop_polling_witness :
  let w := scenario [] [ReqUpload (Some [plan_dwg])] in
  let wd := snd (delete_file 1 w) in
  timers wd = [mkTimer 11000 (CheckStatus 0)]
  /\ poll_times (snd (checkStatus 0 wd)) = [1000]
  /\ storage (snd (checkStatus 0 wd)) = storage wd.
Proof.
  intros w wd.
  pose (job := mkJob 1
          "dXJuOmFkc2sub2JqZWN0czpvcy5vYmplY3Q6YXV0b2NhZC12aWV3ZXItMTAwMC8xLXBsYW4uZHdn"
          "autocad-viewer-1000" "1-plan.dwg" 0 30).
  destruct (delete_does_not_stop_polling 1 w 0%nat job) as (Ht & Hj & Hpoll).
  { by vm_compute. }
  { reflexivity. }
  fold wd in Ht, Hj, Hpoll.
  destruct (Hpoll wd eq_refl) as (Hp & Hs & _).
  { by vm_compute. }
  split_and!; [rewrite Ht | rewrite Hp | exact Hs]; by vm_compute.
Defined.

(** The state after an upload, a poll and a retry. *)
Lemma timestamps_are_ordered_witness :
  let w := scenario [Returned (manifest "failed")]
             [ReqUpload (Some [plan_dwg]); TimerFires;
              ReqPatch 1 "processing" None] in
  exists f, file_of w 1 = Some f
            /\ uploadedAt f <= clock w
            /\ forall t, processedAt f = Some t -> uploadedAt f <= t <= clock w.
Proof.
  intros w.
  destruct (file_of w 1) as [f|] eqn:Hf; [|by vm_compute in Hf].
  exists f. split; [done|].
  assert (Hreach : reachable extname w) by (apply reachable_run_events; constructor).
  exact (timestamps_are_ordered extname w Hreach 1 f Hf).
Defined.



(** A drawing and a document are uploaded; the poll of the drawing answers
    success and the callback of the document runs. *)
Lemma ready_records_have_complete_metadata_witness :
  let evs := [ReqUpload (Some [plan_dwg; spec_pdf]); TimerFires; TimerFires] in
  let w := scenario [Returned (manifest "success")] evs in
  Forall no_ready_patch evs
  /\ ready_is_complete (storage w)
  /\ status <$> file_of w 1 = Some "ready"
  /\ status <$> file_of w 2 = Some "ready"
  /\ (metadata <$> file_of w 2) = Some (Some standard_metadata).
Proof.
  intros evs w.
  assert (Hevs : Forall no_ready_patch evs) by (repeat constructor).
  split_and!; [exact Hevs | | reflexivity ..].
  exact (proj1 (ready_records_have_complete_metadata extname service
                  (remote [Returned (manifest "success")]) 1000 evs Hevs)).
Defined.

End MoreScenarios.
